(** * Forward computation of models/eff_acat.py over real-valued tensors

    Tensors are embedded as a shape together with an index function.
    Floating-point scalars are idealised as real numbers; integer tensors
    (the attention mask) carry [Z].  Fallible tensor operations return a
    [result]; code that reads the global random generators, mutates a tensor
    in place or calls an attention strategy lives in the monad [M]. *)

From Stdlib Require Import String Ascii Reals ZArith Bool Arith List Lia Lra ZifyNat.
Import ListNotations.

Set Implicit Arguments.

(** ** Exceptions and results *)

Inductive exn : Type :=
| RuntimeError   (* size / shape mismatch raised by the numeric backend *)
| IndexError     (* too many indices, tuple index out of range *)
| ValueError     (* e.g. batch normalisation on a single value per channel *)
| AttributeError. (* an attribute that was never set *)

Inductive result (A : Type) : Type :=
| Ok (a : A)
| Raise (e : exn).

Arguments Ok {A} a.
Arguments Raise {A} e.

Definition rbind {A B} (c : result A) (k : A -> result B) : result B :=
  match c with
  | Ok a => k a
  | Raise e => Raise e
  end.

Declare Scope result_scope.
Delimit Scope result_scope with result.
Notation "x <~ c ;; k" := (rbind c (fun x => k))
  (at level 100, c at next level, right associativity) : result_scope.
Notation "' p <~ c ;; k" := (rbind c (fun p => k))
  (at level 100, p pattern, c at next level, right associativity) : result_scope.

(** ** Tensors *)

Record Tensor (A : Type) : Type := mkTensor {
  shape : list nat;
  get : list nat -> A
}.

Arguments mkTensor {A} shape get.

Definition numel (s : list nat) : nat := fold_right Nat.mul 1 s.

(** Row-major position of an index, and its inverse. *)
Fixpoint ravel (s idx : list nat) : nat :=
  match s, idx with
  | _ :: s', i :: idx' => i * numel s' + ravel s' idx'
  | _, _ => 0
  end.

Fixpoint unravel (s : list nat) (k : nat) : list nat :=
  match s with
  | [] => []
  | _ :: s' => (k / numel s') :: unravel s' (k mod numel s')
  end.

Fixpoint big_sum (n : nat) (f : nat -> R) : R :=
  match n with
  | O => 0%R
  | S n' => (big_sum n' f + f n')%R
  end.

(** Sum of all entries of a tensor, in row-major order. *)
Definition sum_all (t : Tensor R) : R :=
  big_sum (numel (shape t)) (fun k => get t (unravel (shape t) k)).

Definition tmap {A B} (f : A -> B) (t : Tensor A) : Tensor B :=
  mkTensor (shape t) (fun idx => f (get t idx)).

Definition zeros (s : list nat) : Tensor R := mkTensor s (fun _ => 0%R).
Definition ones (s : list nat) : Tensor R := mkTensor s (fun _ => 1%R).

(** *** Broadcasting *)

Fixpoint broadcast_rev (a b : list nat) : result (list nat) :=
  match a, b with
  | [], _ => Ok b
  | _, [] => Ok a
  | x :: a', y :: b' =>
      match broadcast_rev a' b' with
      | Raise e => Raise e
      | Ok r =>
          if x =? y then Ok (x :: r)
          else if x =? 1 then Ok (y :: r)
          else if y =? 1 then Ok (x :: r)
          else Raise RuntimeError
      end
  end.

Definition broadcast_shapes (a b : list nat) : result (list nat) :=
  match broadcast_rev (rev a) (rev b) with
  | Ok r => Ok (rev r)
  | Raise e => Raise e
  end.

(** [expandable src dst]: [src] can be expanded to exactly [dst]; a
    dimension of size one expands to any size, zero included. *)
Fixpoint expandable_rev (src dst : list nat) : bool :=
  match src, dst with
  | [], _ => true
  | _ :: _, [] => false
  | x :: src', y :: dst' => ((x =? y) || (x =? 1)) && expandable_rev src' dst'
  end.

Definition expandable (src dst : list nat) : bool :=
  expandable_rev (rev src) (rev dst).

(** Index into an operand of shape [src] for the index [idx] of the
    broadcast result. *)
Definition bcast_index (src idx : list nat) : list nat :=
  map (fun '(d, i) => if d =? 1 then 0 else i)
      (combine src (skipn (length idx - length src) idx)).

Definition map2 (f : R -> R -> R) (a b : Tensor R) : result (Tensor R) :=
  (s <~ broadcast_shapes (shape a) (shape b) ;;
   Ok (mkTensor s (fun idx =>
         f (get a (bcast_index (shape a) idx))
           (get b (bcast_index (shape b) idx)))))%result.

Definition tadd := map2 Rplus.
Definition tsub := map2 Rminus.
Definition tmul := map2 Rmult.
Definition tdiv := map2 Rdiv.

(** Multiplication by a Python scalar. *)
Definition smul (t : Tensor R) (c : R) : Tensor R := tmap (fun v => (v * c)%R) t.

(** *** Slicing *)

(** Python's normalisation of a slice bound against a dimension of size [n]. *)
Definition norm_bound (n : nat) (b : Z) : nat :=
  if (b <? 0)%Z then Z.to_nat (Z.max 0 (Z.of_nat n + b))
  else Nat.min (Z.to_nat b) n.

Record Slice : Type := mkSlice {
  sl_start : option Z;
  sl_stop : option Z;
  sl_step : nat
}.

Definition full_slice : Slice := mkSlice None None 1.       (* [:]   *)
Definition upto (b : Z) : Slice := mkSlice None (Some b) 1. (* [:b]  *)
Definition from (a : Z) : Slice := mkSlice (Some a) None 1. (* [a:]  *)
Definition from_step (a : Z) (k : nat) : Slice := mkSlice (Some a) None k. (* [a::k] *)

Definition slice_start (n : nat) (sl : Slice) : nat :=
  match sl_start sl with
  | None => 0
  | Some a => norm_bound n a
  end.

Definition slice_stop (n : nat) (sl : Slice) : nat :=
  match sl_stop sl with
  | None => n
  | Some b => norm_bound n b
  end.

(** Number of positions selected by a slice with positive step. *)
Definition slice_len (n : nat) (sl : Slice) : nat :=
  let a := slice_start n sl in
  let b := slice_stop n sl in
  (b - a + sl_step sl - 1) / sl_step sl.

Definition slice_pos (n : nat) (sl : Slice) (i : nat) : nat :=
  slice_start n sl + i * sl_step sl.

Fixpoint sliced_shape (s : list nat) (sls : list Slice) : list nat :=
  match s, sls with
  | n :: s', sl :: sls' => slice_len n sl :: sliced_shape s' sls'
  | _, _ => s
  end.

Fixpoint sliced_index (s : list nat) (sls : list Slice) (idx : list nat) : list nat :=
  match s, sls, idx with
  | n :: s', sl :: sls', i :: idx' => slice_pos n sl i :: sliced_index s' sls' idx'
  | _, _, _ => idx
  end.

(** [t[sl0, sl1, ...]] with slices only. *)
Definition getitem {A} (t : Tensor A) (sls : list Slice) : result (Tensor A) :=
  if length (shape t) <? length sls then Raise IndexError
  else Ok (mkTensor (sliced_shape (shape t) sls)
                    (fun idx => get t (sliced_index (shape t) sls idx))).

(** Position inside the slice of index [i] of the sliced dimension, if
    the slice selects it. *)
Definition slice_inv (n : nat) (sl : Slice) (i : nat) : option nat :=
  let a := slice_start n sl in
  if (a <=? i) && (i <? slice_stop n sl) && ((i - a) mod sl_step sl =? 0)
  then Some ((i - a) / sl_step sl)
  else None.

Fixpoint sliced_inv (s : list nat) (sls : list Slice) (idx : list nat)
  : option (list nat) :=
  match s, sls, idx with
  | n :: s', sl :: sls', i :: idx' =>
      match slice_inv n sl i, sliced_inv s' sls' idx' with
      | Some j, Some r => Some (j :: r)
      | _, _ => None
      end
  | _, _, _ => Some idx
  end.

(** [t[sl0, sl1, ...] = v]: the value is expanded to the shape of the
    selected view (every assignment of this file has a value of lower rank
    than the view). *)
Definition setitem (t : Tensor R) (sls : list Slice) (v : Tensor R)
  : result (Tensor R) :=
  if length (shape t) <? length sls then Raise IndexError
  else
    if expandable (shape v) (sliced_shape (shape t) sls) then
      Ok (mkTensor (shape t) (fun idx =>
            match sliced_inv (shape t) sls idx with
            | Some j => get v (bcast_index (shape v) j)
            | None => get t idx
            end))
    else Raise RuntimeError.

(** ** PositionalEncoding *)

(** [torch.arange(start, stop, step)] for naturals, as floats. *)
Definition arange_step (start stop step : nat) : Tensor R :=
  mkTensor [(stop - start + step - 1) / step]
           (fun idx => INR (start + hd 0 idx * step)).

Definition arange (n : nat) : Tensor R := arange_step 0 n 1.

(** [t.reshape(-1, 1)] *)
Definition reshape_m1_1 (t : Tensor R) : Tensor R :=
  mkTensor [numel (shape t); 1]
           (fun idx => get t (unravel (shape t) (hd 0 idx))).

(** [torch.pow(base, t)] with a scalar base. *)
Definition pow_base (base : R) (t : Tensor R) : Tensor R := tmap (Rpower base) t.

Definition sdiv (t : Tensor R) (c : R) : Tensor R := tmap (fun v => (v / c)%R) t.

(** [X.shape[i]] *)
Definition size {A} (t : Tensor A) (i : nat) : result nat :=
  match nth_error (shape t) i with
  | Some n => Ok n
  | None => Raise IndexError
  end.

Module PositionalEncoding.

Record t : Type := mk { P : Tensor R }.

Definition init (d_hid max_len : nat) : result t :=
  (let P0 := zeros [1; max_len; d_hid] in
   X <~ tdiv (reshape_m1_1 (arange max_len))
             (pow_base 10000 (sdiv (arange_step 0 d_hid 2) (INR d_hid))) ;;
   P1 <~ setitem P0 [full_slice; full_slice; from_step 0 2] (tmap sin X) ;;
   P2 <~ setitem P1 [full_slice; full_slice; from_step 1 2] (tmap cos X) ;;
   Ok (mk P2))%result.

Definition forward (self : t) (X : Tensor R) : result (Tensor R) :=
  (T <~ size X 1 ;;
   Ps <~ getitem (P self) [full_slice; upto (Z.of_nat T); full_slice] ;;
   tadd X Ps)%result.

End PositionalEncoding.

(** ** Further tensor operations *)

(** Python's normalisation of a dimension argument for a tensor of rank
    [r]; [extra] is one for operations that create a dimension. *)
Definition norm_dim (r extra : nat) (dim : Z) : result nat :=
  let n := Z.of_nat (r + extra) in
  if (dim <? - n)%Z || (n <=? dim)%Z then Raise IndexError
  else Ok (Z.to_nat (if (dim <? 0)%Z then dim + n else dim)).

Definition insert_at {A} (k : nat) (a : A) (l : list A) : list A :=
  firstn k l ++ a :: skipn k l.

Definition remove_at {A} (k : nat) (l : list A) : list A :=
  firstn k l ++ skipn (S k) l.

Definition replace_at {A} (k : nat) (a : A) (l : list A) : list A :=
  firstn k l ++ a :: skipn (S k) l.

(** [t.unsqueeze(dim)] *)
Definition unsqueeze {A} (dim : Z) (t : Tensor A) : result (Tensor A) :=
  (k <~ norm_dim (length (shape t)) 1 dim ;;
   Ok (mkTensor (insert_at k 1 (shape t)) (fun idx => get t (remove_at k idx))))%result.

Fixpoint zip_with {A B C} (f : A -> B -> C) (l : list A) (l' : list B) : list C :=
  match l, l' with
  | a :: l, b :: l' => f a b :: zip_with f l l'
  | _, _ => []
  end.

(** [t.repeat(reps)]; missing leading dimensions of [t] count as one. *)
Definition repeat_ {A} (t : Tensor A) (reps : list nat) : result (Tensor A) :=
  if length reps <? length (shape t) then Raise RuntimeError
  else
    let s := List.repeat 1 (length reps - length (shape t)) ++ shape t in
    Ok (mkTensor (zip_with Nat.mul s reps)
          (fun idx => get t (skipn (length reps - length (shape t))
                                   (zip_with Nat.modulo idx s)))).

Definition swap_at {A} (i j : nat) (d : A) (l : list A) : list A :=
  replace_at j (nth i l d) (replace_at i (nth j l d) l).

(** [t.transpose(dim0, dim1)] *)
Definition transpose {A} (dim0 dim1 : Z) (t : Tensor A) : result (Tensor A) :=
  (i <~ norm_dim (length (shape t)) 0 dim0 ;;
   j <~ norm_dim (length (shape t)) 0 dim1 ;;
   Ok (mkTensor (swap_at i j 0 (shape t)) (fun idx => get t (swap_at i j 0 idx))))%result.

Fixpoint index_of (k : nat) (l : list nat) : nat :=
  match l with
  | [] => 0
  | x :: l' => if x =? k then 0 else S (index_of k l')
  end.

Definition is_permutation (perm : list nat) : bool :=
  forallb (fun k => existsb (Nat.eqb k) perm) (seq 0 (length perm)).

(** [t.permute(perm)]: dimension [i] of the result is dimension [perm[i]]
    of [t]. *)
Definition permute {A} (perm : list nat) (t : Tensor A) : result (Tensor A) :=
  if (length perm =? length (shape t)) && is_permutation perm then
    Ok (mkTensor (map (fun k => nth k (shape t) 0) perm)
          (fun idx => get t (map (fun k => nth (index_of k perm) idx 0)
                                 (seq 0 (length perm)))))
  else Raise RuntimeError.

Definition contiguous {A} (t : Tensor A) : Tensor A := t.

(** [t.view(dims)], where one dimension may be [-1]. *)
Definition view {A} (t : Tensor A) (dims : list Z) : result (Tensor A) :=
  let n := numel (shape t) in
  let known :=
    fold_right (fun d acc => if (d =? -1)%Z then acc else Z.to_nat d * acc) 1 dims in
  let holes := length (filter (fun d => (d =? -1)%Z) dims) in
  if existsb (fun d => (d <? -1)%Z) dims || (1 <? holes) then Raise RuntimeError
  else if holes =? 1 then
    if (known =? 0) || negb (n mod known =? 0) then Raise RuntimeError
    else
      let s := map (fun d => if (d =? -1)%Z then n / known else Z.to_nat d) dims in
      Ok (mkTensor s (fun idx => get t (unravel (shape t) (ravel s idx))))
  else if known =? n then
    let s := map Z.to_nat dims in
    Ok (mkTensor s (fun idx => get t (unravel (shape t) (ravel s idx))))
  else Raise RuntimeError.

(** [torch.mean(t, dim=-1)] *)
Definition mean_last (t : Tensor R) : result (Tensor R) :=
  match shape t with
  | [] => Raise IndexError
  | _ :: _ =>
      let n := last (shape t) 0 in
      Ok (mkTensor (removelast (shape t))
            (fun idx => (big_sum n (fun j => get t (idx ++ [j])) / INR n)%R))
  end.

(** [torch.flatten(t, start_dim=1)] *)
Definition flatten_from1 (t : Tensor R) : result (Tensor R) :=
  match shape t with
  | s0 :: (_ :: _) as rest =>
      Ok (mkTensor [s0; numel rest]
            (fun idx => get t (hd 0 idx :: unravel rest (nth 1 idx 0))))
  | _ => Raise IndexError
  end.

(** [t.mean()], a scalar. *)
Definition mean_all (t : Tensor R) : R :=
  (sum_all t / INR (numel (shape t)))%R.

(** Addition of a Python scalar. *)
Definition sadd (c : R) (t : Tensor R) : Tensor R := tmap (fun v => (c + v)%R) t.

Definition texp : Tensor R -> Tensor R := tmap exp.
Definition tneg : Tensor R -> Tensor R := tmap Ropp.
Definition tsquare : Tensor R -> Tensor R := tmap (fun v => (v * v)%R).
Definition relu : Tensor R -> Tensor R := tmap (Rmax 0).

(** [nn.Softmax(dim)] *)
Definition softmax (dim : Z) (t : Tensor R) : result (Tensor R) :=
  (k <~ norm_dim (length (shape t)) 0 dim ;;
   let n := nth k (shape t) 0 in
   Ok (mkTensor (shape t)
         (fun idx =>
            (exp (get t idx)
             / big_sum n (fun j => exp (get t (replace_at k j idx))))%R)))%result.

(** ** Global state: random generators, tensors mutated in place, and the
    record of attention strategies that were run *)

(** A generator is a position on a tape of samples fixed by its seed. *)
Record Generator : Type := mkGenerator {
  cursor : nat;
  normal_at : nat -> R;      (* standard-normal samples *)
  uniform_at : nat -> R      (* uniform samples of [0, 1) *)
}.

(** The three process-wide generators: the framework's, the language's
    and the array library's. *)
Record RNGs : Type := mkRNGs {
  torch_rng : Generator;
  python_rng : Generator;
  numpy_rng : Generator
}.

(** An attention strategy object, with its constructor arguments. *)
Inductive AttnModule : Type :=
| ACAT (d_k h l_k : nat) (seed : Z)
| KittyCatConv (d_k h l_k : nat) (seed : Z)
| BasicAttn (d_k : nat) (seed : Z)
| LogTrans (d_k : nat) (seed : Z)
| ProbAttention (mask_flag : bool) (seed : Z)
| AutoCorrelation.

Inductive Strategy : Type :=
| SACAT | SKittyCatConv | SBasicAttn | SLogTrans | SProbAttention | SAutoCorrelation.

Definition strategy_of (m : AttnModule) : Strategy :=
  match m with
  | ACAT _ _ _ _ => SACAT
  | KittyCatConv _ _ _ _ => SKittyCatConv
  | BasicAttn _ _ => SBasicAttn
  | LogTrans _ _ => SLogTrans
  | ProbAttention _ _ => SProbAttention
  | AutoCorrelation => SAutoCorrelation
  end.

(** One execution of a strategy: the object and the mask it was given. *)
Definition AttnCall : Type := (AttnModule * option (Tensor Z))%type.

Definition loc : Type := nat.

Record State : Type := mkState {
  rngs : RNGs;
  heap : list (Tensor R);         (* tensors that are mutated in place *)
  attn_calls : list AttnCall      (* strategies run so far, oldest first *)
}.

(** Exceptions do not roll the state back. *)
Definition M (A : Type) : Type := State -> result A * State.

Definition ret {A} (a : A) : M A := fun st => (Ok a, st).

Definition bind {A B} (c : M A) (k : A -> M B) : M B :=
  fun st =>
    match c st with
    | (Ok a, st') => k a st'
    | (Raise e, st') => (Raise e, st')
    end.

Definition lift {A} (r : result A) : M A := fun st => (r, st).

Declare Scope m_scope.
Delimit Scope m_scope with M.
Notation "x <- c ;; k" := (bind c (fun x => k))
  (at level 100, c at next level, right associativity) : m_scope.
Notation "' p <- c ;; k" := (bind c (fun p => k))
  (at level 100, p pattern, c at next level, right associativity) : m_scope.
Notation "c ;;; k" := (bind c (fun _ => k))
  (at level 100, right associativity) : m_scope.

Definition set_torch_rng (g : Generator) (st : State) : State :=
  mkState (mkRNGs g (python_rng (rngs st)) (numpy_rng (rngs st)))
          (heap st) (attn_calls st).

Definition advance (n : nat) (g : Generator) : Generator :=
  mkGenerator (cursor g + n) (normal_at g) (uniform_at g).

(** The normal samples a generator yields next, arranged in a shape. *)
Definition draw (g : Generator) (s : list nat) : Tensor R :=
  mkTensor s (fun idx => normal_at g (cursor g + ravel s idx)).

(** [torch.randn(shape)] on the global generator. *)
Definition randn (s : list nat) : M (Tensor R) :=
  fun st =>
    let g := torch_rng (rngs st) in
    (Ok (draw g s), set_torch_rng (advance (numel s) g) st).

Definition randn_like (t : Tensor R) : M (Tensor R) := randn (shape t).

(** A fresh tensor filled by [uniform_(lo, hi)]. *)
Definition uniform (s : list nat) (lo hi : R) : M (Tensor R) :=
  fun st =>
    let g := torch_rng (rngs st) in
    (Ok (mkTensor s (fun idx =>
           (lo + (hi - lo) * uniform_at g (cursor g + ravel s idx))%R)),
     set_torch_rng (advance (numel s) g) st).

(** *** Tensors as objects *)

Definition alloc (t : Tensor R) : M loc :=
  fun st => (Ok (length (heap st)),
             mkState (rngs st) (heap st ++ [t]) (attn_calls st)).

Definition load (x : loc) : M (Tensor R) :=
  fun st =>
    match nth_error (heap st) x with
    | Some t => (Ok t, st)
    | None => (Raise RuntimeError, st)
    end.

Fixpoint update {A} (l : list A) (k : nat) (a : A) : list A :=
  match l, k with
  | [], _ => []
  | _ :: l', O => a :: l'
  | b :: l', S k' => b :: update l' k' a
  end.

Definition store (x : loc) (t : Tensor R) : M unit :=
  fun st => (Ok tt, mkState (rngs st) (update (heap st) x t) (attn_calls st)).

(** [x.add_(other)]: the sum is written into the object [x], whose shape
    cannot change, and [x] itself is returned. *)
Definition add_ (x : loc) (other : Tensor R) : M loc :=
  (xv <- load x ;;
   r <- lift (tadd xv other) ;;
   if list_eq_dec Nat.eq_dec (shape r) (shape xv)
   then store x r ;;; ret x
   else lift (Raise RuntimeError))%M.

(** ** Layers of the numeric backend *)

Module Linear.

Record t : Type := mk {
  in_features : nat;
  out_features : nat;
  weight : Tensor R;            (* out_features x in_features *)
  bias : option (Tensor R)      (* out_features *)
}.

Definition forward (self : t) (x : Tensor R) : result (Tensor R) :=
  match shape x with
  | [] => Raise RuntimeError
  | _ :: _ =>
      if last (shape x) 0 =? in_features self then
        Ok (mkTensor (removelast (shape x) ++ [out_features self])
              (fun idx =>
                 let o := last idx 0 in
                 let dot := big_sum (in_features self)
                              (fun j => (get x (removelast idx ++ [j])
                                         * get (weight self) [o; j])%R) in
                 match bias self with
                 | Some b => (dot + get b [o])%R
                 | None => dot
                 end))
      else Raise RuntimeError
  end.

(** Default initialisation: weight, then bias, uniform within
    [1 / sqrt in_features] of zero. *)
Definition init (in_features out_features : nat) (with_bias : bool) : M t :=
  (let bound := (1 / sqrt (INR in_features))%R in
   w <- uniform [out_features; in_features] (- bound) bound ;;
   b <- (if with_bias
         then b <- uniform [out_features] (- bound) bound ;; ret (Some b)
         else ret None) ;;
   ret (mk in_features out_features w b))%M.

End Linear.

Module Conv1d.

Record t : Type := mk {
  in_channels : nat;
  out_channels : nat;
  kernel_size : nat;
  padding : nat;
  weight : Tensor R;       (* out_channels x in_channels x kernel_size *)
  bias : Tensor R          (* out_channels *)
}.

(** Entry [pos] of a row of [len] values after [pad] zeros were put on
    both sides. *)
Definition padded (pad len : nat) (row : nat -> R) (pos : nat) : R :=
  if (pad <=? pos) && (pos <? pad + len) then row (pos - pad) else 0%R.

(** Stride one, zero padding on both sides; input (batch, channels,
    length), the only layout this file feeds it. *)
Definition forward (c : t) (x : Tensor R) : result (Tensor R) :=
  match shape x with
  | [n; ch; len] =>
      if negb (ch =? in_channels c) || (len + 2 * padding c <? kernel_size c)
      then Raise RuntimeError
      else
        Ok (mkTensor [n; out_channels c; len + 2 * padding c - kernel_size c + 1]
              (fun idx =>
                 let b := nth 0 idx 0 in
                 let co := nth 1 idx 0 in
                 let t := nth 2 idx 0 in
                 (get (bias c) [co]
                  + big_sum (in_channels c) (fun ci =>
                      big_sum (kernel_size c) (fun k =>
                        (get (weight c) [co; ci; k]
                         * padded (padding c) len (fun i => get x [b; ci; i])
                                  (Nat.add t k))%R)))%R))
  | _ => Raise RuntimeError
  end.

Definition init (in_channels out_channels kernel_size padding : nat) : M t :=
  (let bound := (1 / sqrt (INR (in_channels * kernel_size)))%R in
   w <- uniform [out_channels; in_channels; kernel_size] (- bound) bound ;;
   b <- uniform [out_channels] (- bound) bound ;;
   ret (mk in_channels out_channels kernel_size padding w b))%M.

End Conv1d.

Module BatchNorm1d.

Record t : Type := mk {
  num_features : nat;
  weight : Tensor R;
  bias : Tensor R;
  running_mean : Tensor R;
  running_var : Tensor R;
  eps : R;
  training : bool
}.

(** Mean over batch and length of channel [c] of [f]. *)
Definition channel_mean (n len : nat) (f : nat -> nat -> R) : R :=
  (big_sum n (fun b => big_sum len (fun t => f b t)) / INR (n * len))%R.

(** Input (batch, channels, length), the only layout this file feeds it.
    In training mode the statistics of the batch are used and a single value
    per channel is refused; in evaluation mode the stored running statistics
    are used.  The update of the running statistics that a call in training
    mode also performs is left out: no computation of this file reads them
    in that mode. *)
Definition forward (m : t) (x : Tensor R) : result (Tensor R) :=
  match shape x with
  | [n; ch; len] =>
      if negb (ch =? num_features m) then Raise RuntimeError
      else if training m && (n * len =? 1) then Raise ValueError
      else
        Ok (mkTensor [n; ch; len]
              (fun idx =>
                 let c := nth 1 idx 0 in
                 let mu :=
                   if training m
                   then channel_mean n len (fun b t => get x [b; c; t])
                   else get (running_mean m) [c] in
                 let var :=
                   if training m
                   then channel_mean n len
                          (fun b t => ((get x [b; c; t] - mu) * (get x [b; c; t] - mu))%R)
                   else get (running_var m) [c] in
                 ((get x idx - mu) / sqrt (var + eps m) * get (weight m) [c]
                  + get (bias m) [c])%R))
  | _ => Raise ValueError
  end.

(** A fresh module is in training mode. *)
Definition init (num_features : nat) : t :=
  mk num_features (ones [num_features]) (zeros [num_features])
     (zeros [num_features]) (ones [num_features]) (1 / 100000)%R true.

End BatchNorm1d.

Module LayerNorm.

Record t : Type := mk {
  normalized_shape : nat;
  affine : option (Tensor R * Tensor R);   (* weight and bias, if learned *)
  eps : R
}.

Definition forward (m : t) (x : Tensor R) : result (Tensor R) :=
  match shape x with
  | [] => Raise RuntimeError
  | _ :: _ =>
      if last (shape x) 0 =? normalized_shape m then
        let d := normalized_shape m in
        Ok (mkTensor (shape x)
              (fun idx =>
                 let row j := get x (removelast idx ++ [j]) in
                 let mu := (big_sum d row / INR d)%R in
                 let var := (big_sum d (fun j => (row j - mu) * (row j - mu)) / INR d)%R in
                 let v := ((get x idx - mu) / sqrt (var + eps m))%R in
                 let j := last idx 0 in
                 match affine m with
                 | Some (w, b) => (v * get w [j] + get b [j])%R
                 | None => v
                 end))
      else Raise RuntimeError
  end.

Definition init (normalized_shape : nat) (elementwise_affine : bool) : t :=
  mk normalized_shape
     (if elementwise_affine
      then Some (ones [normalized_shape], zeros [normalized_shape])
      else None)
     (1 / 100000)%R.

End LayerNorm.

(** [nn.Sequential] over the layers used in this file. *)
Inductive Layer : Type :=
| LConv1d (c : Conv1d.t)
| LBatchNorm1d (m : BatchNorm1d.t)
| LSoftmax (dim : Z).

Definition Layer_forward (l : Layer) (x : Tensor R) : result (Tensor R) :=
  match l with
  | LConv1d c => Conv1d.forward c x
  | LBatchNorm1d m => BatchNorm1d.forward m x
  | LSoftmax dim => softmax dim x
  end.

Definition Sequential : Type := list Layer.

Fixpoint Sequential_forward (m : Sequential) (x : Tensor R) : result (Tensor R) :=
  match m with
  | [] => Ok x
  | l :: m' => (y <~ Layer_forward l x ;; Sequential_forward m' y)%result
  end.

(** ** What this file imports from outside: seeding of the generators, the
    attention strategies of the sibling modules, and the Gaussian-process
    library *)

Record MultivariateNormal : Type := mkMultivariateNormal {
  dist_mean : Tensor R;
  dist_variance : Tensor R
}.

Class Externals : Type := {
  (** generator state right after seeding *)
  torch_manual_seed : Z -> Generator;
  random_seed : Z -> Generator;
  np_random_seed : Z -> Generator;
  (** a strategy object called on (Q, K, V, attn_mask); it returns the
      context and the attention weights and may use the generators *)
  attention_call :
    AttnModule -> Tensor R -> Tensor R -> Tensor R -> option (Tensor Z) ->
    RNGs -> result (Tensor R * Tensor R) * RNGs;
  (** [gpytorch.means.ConstantMean()] and
      [gpytorch.kernels.ScaleKernel(gpytorch.kernels.RBFKernel())] *)
  ConstantMean : Tensor R -> result (Tensor R);
  ScaleKernel_RBFKernel : Tensor R -> result (Tensor R);
  (** [gpytorch.distributions.MultivariateNormal(mean, covar)] *)
  new_MultivariateNormal : Tensor R -> Tensor R -> result MultivariateNormal
}.

(** Calling a strategy object: it is recorded, then run on the generators. *)
Definition call_attention {E : Externals} (m : AttnModule)
           (Q K V : Tensor R) (attn_mask : option (Tensor Z))
  : M (Tensor R * Tensor R) :=
  fun st =>
    let '(r, g) := attention_call m Q K V attn_mask (rngs st) in
    (r, mkState g (heap st) (attn_calls st ++ [(m, attn_mask)])).

(** ** The attention mask *)

Definition np_ones (s : list nat) : Tensor R := ones s.

(** [np.triu(t, k)]: in each matrix of the last two dimensions the entries
    below the [k]-th diagonal are zeroed. *)
Definition np_triu (t : Tensor R) (k : Z) : Tensor R :=
  mkTensor (shape t)
    (fun idx =>
       let r := length idx in
       let i := nth (r - 2) idx 0 in
       let j := nth (r - 1) idx 0 in
       if (Z.of_nat i + k <=? Z.of_nat j)%Z then get t idx else 0%R).

(** Conversion to integers truncates towards zero. *)
Definition trunc (v : R) : Z :=
  if Rle_dec 0 v then Int_part v else (- Int_part (- v))%Z.

Definition int (t : Tensor R) : Tensor Z := tmap trunc t.

Definition get_attn_subsequent_mask {A} (seq : Tensor A) : result (Tensor Z) :=
  (s0 <~ size seq 0 ;;
   s1 <~ size seq 1 ;;
   let attn_shape := [s0; s1; s1] in
   let subsequent_mask := np_triu (np_ones attn_shape) 1 in
   let subsequent_mask := int subsequent_mask in
   Ok subsequent_mask)%result.

(** [sub in s] on Python strings. *)
Definition contains (sub s : string) : bool :=
  match String.index 0 sub s with
  | Some _ => true
  | None => false
  end.

Module MultiHeadAttention.

Record t : Type := mk {
  WQ : Linear.t;
  WK : Linear.t;
  WV : Linear.t;
  fc : Linear.t;
  d_model : nat;
  d_k : nat;
  d_v : nat;
  n_heads : nat;
  attn_type : string;
  seed : Z
}.

Definition init (d_model d_k d_v n_heads : nat) (attn_type : string) (seed : Z)
  : M t :=
  (WQ <- Linear.init d_model (d_k * n_heads) false ;;
   WK <- Linear.init d_model (d_k * n_heads) false ;;
   WV <- Linear.init d_model (d_v * n_heads) false ;;
   fc <- Linear.init (n_heads * d_v) d_model false ;;
   ret (mk WQ WK WV fc d_model d_k d_v n_heads attn_type seed))%M.

(** [W(X).view(batch_size, -1, n_heads, d).transpose(1, 2)] *)
Definition split_heads (W : Linear.t) (X : Tensor R) (batch_size n_heads d : nat)
  : result (Tensor R) :=
  (p <~ Linear.forward W X ;;
   v <~ view p [Z.of_nat batch_size; (-1)%Z; Z.of_nat n_heads; Z.of_nat d] ;;
   transpose 1 2 v)%result.

Definition forward {E : Externals} (self : t) (Q K V : Tensor R)
           (attn_mask : option (Tensor Z)) : M (Tensor R * Tensor R) :=
  (batch_size <- lift (size Q 0) ;;
   q_s <- lift (split_heads (WQ self) Q batch_size (n_heads self) (d_k self)) ;;
   k_s <- lift (split_heads (WK self) K batch_size (n_heads self) (d_k self)) ;;
   v_s <- lift (split_heads (WV self) V batch_size (n_heads self) (d_v self)) ;;
   attn_mask <-
     match attn_mask with
     | Some m =>
         m1 <- lift (unsqueeze 1 m) ;;
         m2 <- lift (repeat_ m1 [1; n_heads self; 1; 1]) ;;
         ret (Some m2)
     | None => ret None
     end ;;
   ' (context, attn) <-
     (if String.eqb (attn_type self) "ACAT" then
        l_k <- lift (size k_s 2) ;;
        call_attention (ACAT (d_k self) (n_heads self) l_k (seed self))
                       q_s k_s v_s attn_mask
      else if contains "KittyCat" (attn_type self) then
        l_k <- lift (size k_s 2) ;;
        call_attention (KittyCatConv (d_k self) (n_heads self) l_k (seed self))
                       q_s k_s v_s attn_mask
      else if String.eqb (attn_type self) "basic_attn" then
        call_attention (BasicAttn (d_k self) (seed self)) q_s k_s v_s attn_mask
      else if String.eqb (attn_type self) "LogTrans" then
        call_attention (LogTrans (d_k self) (seed self)) q_s k_s v_s attn_mask
      else if String.eqb (attn_type self) "informer" then
        let mask_flag := match attn_mask with Some _ => true | None => false end in
        call_attention (ProbAttention mask_flag (seed self)) q_s k_s v_s attn_mask
      else
        q_t <- lift (transpose 1 2 q_s) ;;
        k_t <- lift (transpose 1 2 k_s) ;;
        v_t <- lift (transpose 1 2 v_s) ;;
        call_attention AutoCorrelation q_t k_t v_t attn_mask) ;;
   c <- lift (transpose 1 2 context) ;;
   context <- lift (view (contiguous c)
                         [Z.of_nat batch_size; (-1)%Z;
                          Z.of_nat (n_heads self * d_v self)]) ;;
   output <- lift (Linear.forward (fc self) context) ;;
   ret (output, attn))%M.

End MultiHeadAttention.

Module PoswiseFeedForwardNet.

Record t : Type := mk { w_1 : Linear.t; w_2 : Linear.t }.

Definition reinit (bound : R) (m : Linear.t) : M Linear.t :=
  (w <- uniform (shape (Linear.weight m)) (- bound) bound ;;
   ret (Linear.mk (Linear.in_features m) (Linear.out_features m) w
                  (Linear.bias m)))%M.

Definition init (d_model d_ff : nat) : M t :=
  (w_1 <- Linear.init d_model d_ff true ;;
   w_2 <- Linear.init d_ff d_model true ;;
   let bound := (1 / sqrt (INR d_model))%R in
   w_1 <- reinit bound w_1 ;;
   w_2 <- reinit bound w_2 ;;
   ret (mk w_1 w_2))%M.

Definition forward (self : t) (inputs : Tensor R) : result (Tensor R) :=
  (h <~ Linear.forward (w_1 self) inputs ;;
   Linear.forward (w_2 self) (relu h))%result.

End PoswiseFeedForwardNet.

Module EncoderLayer.

Record t : Type := mk {
  enc_self_attn : MultiHeadAttention.t;
  pos_ffn : PoswiseFeedForwardNet.t;
  layer_norm : LayerNorm.t
}.

Definition init (d_model d_ff d_k d_v n_heads : nat) (attn_type : string)
           (seed : Z) : M t :=
  (a <- MultiHeadAttention.init d_model d_k d_v n_heads attn_type seed ;;
   f <- PoswiseFeedForwardNet.init d_model d_ff ;;
   ret (mk a f (LayerNorm.init d_model false)))%M.

Definition forward {E : Externals} (self : t) (enc_inputs : Tensor R)
           (enc_self_attn_mask : option (Tensor Z)) : M (Tensor R * Tensor R) :=
  (' (out, attn) <- MultiHeadAttention.forward (enc_self_attn self)
                      enc_inputs enc_inputs enc_inputs enc_self_attn_mask ;;
   s <- lift (tadd out enc_inputs) ;;
   out <- lift (LayerNorm.forward (layer_norm self) s) ;;
   out_2 <- lift (PoswiseFeedForwardNet.forward (pos_ffn self) out) ;;
   s2 <- lift (tadd out_2 out) ;;
   out_2 <- lift (LayerNorm.forward (layer_norm self) s2) ;;
   ret (out_2, attn))%M.

End EncoderLayer.

(** [for _ in range(n): layers.append(make())] *)
Fixpoint replicate {A} (n : nat) (make : M A) : M (list A) :=
  match n with
  | O => ret []
  | S n' => (a <- make ;; l <- replicate n' make ;; ret (a :: l))%M
  end.

Module Encoder.

Record t : Type := mk {
  attn_type : string;
  pos_emb : PositionalEncoding.t;
  n_layers : nat;
  layers : list EncoderLayer.t
}.

Definition init (d_model d_ff d_k d_v n_heads n_layers : nat)
           (attn_type : string) (seed : Z) : M t :=
  (pos_emb <- lift (PositionalEncoding.init d_model 1000) ;;
   layers <- replicate n_layers
               (EncoderLayer.init d_model d_ff d_k d_v n_heads attn_type seed) ;;
   ret (mk attn_type pos_emb n_layers layers))%M.

Fixpoint run {E : Externals} (layers : list EncoderLayer.t)
         (enc_outputs : Tensor R) (enc_self_attn_mask : option (Tensor Z))
         (enc_self_attns : list (Tensor R)) : M (Tensor R * list (Tensor R)) :=
  match layers with
  | [] => ret (enc_outputs, enc_self_attns)
  | layer :: rest =>
      (' (enc_outputs, enc_self_attn) <-
         EncoderLayer.forward layer enc_outputs enc_self_attn_mask ;;
       run rest enc_outputs enc_self_attn_mask
           (enc_self_attns ++ [enc_self_attn]))%M
  end.

Definition forward {E : Externals} (self : t) (enc_input : Tensor R)
  : M (Tensor R * list (Tensor R)) :=
  (enc_outputs <- lift (PositionalEncoding.forward (pos_emb self) enc_input) ;;
   let enc_self_attn_mask := None in
   run (layers self) enc_outputs enc_self_attn_mask [])%M.

End Encoder.

Module DecoderLayer.

Record t : Type := mk {
  dec_self_attn : MultiHeadAttention.t;
  dec_enc_attn : MultiHeadAttention.t;
  pos_ffn : PoswiseFeedForwardNet.t;
  layer_norm : LayerNorm.t
}.

Definition init (d_model d_ff d_k d_v n_heads : nat) (attn_type : string)
           (seed : Z) : M t :=
  (a <- MultiHeadAttention.init d_model d_k d_v n_heads attn_type seed ;;
   c <- MultiHeadAttention.init d_model d_k d_v n_heads attn_type seed ;;
   f <- PoswiseFeedForwardNet.init d_model d_ff ;;
   ret (mk a c f (LayerNorm.init d_model false)))%M.

Definition forward {E : Externals} (self : t) (dec_inputs enc_outputs : Tensor R)
           (dec_self_attn_mask dec_enc_attn_mask : option (Tensor Z))
  : M (Tensor R * Tensor R * Tensor R) :=
  (' (out, dec_self_attn) <- MultiHeadAttention.forward (dec_self_attn self)
                               dec_inputs dec_inputs dec_inputs dec_self_attn_mask ;;
   s <- lift (tadd dec_inputs out) ;;
   out <- lift (LayerNorm.forward (layer_norm self) s) ;;
   ' (out2, dec_enc_attn) <- MultiHeadAttention.forward (dec_enc_attn self)
                               out enc_outputs enc_outputs dec_enc_attn_mask ;;
   s2 <- lift (tadd out out2) ;;
   out2 <- lift (LayerNorm.forward (layer_norm self) s2) ;;
   out3 <- lift (PoswiseFeedForwardNet.forward (pos_ffn self) out2) ;;
   s3 <- lift (tadd out2 out3) ;;
   out3 <- lift (LayerNorm.forward (layer_norm self) s3) ;;
   ret (out3, dec_self_attn, dec_enc_attn))%M.

End DecoderLayer.

Module Decoder.

Record t : Type := mk {
  attn_type : string;
  pos_emb : PositionalEncoding.t;
  layer_norm : LayerNorm.t;
  layers : list DecoderLayer.t;
  d_k : nat
}.

Definition init (d_model d_ff d_k d_v n_heads n_layers : nat)
           (attn_type : string) (seed : Z) : M t :=
  (pos_emb <- lift (PositionalEncoding.init d_model 1000) ;;
   let layer_norm := LayerNorm.init d_model true in
   layers <- replicate n_layers
               (DecoderLayer.init d_model d_ff d_k d_v n_heads attn_type seed) ;;
   ret (mk attn_type pos_emb layer_norm layers d_k))%M.

Fixpoint run {E : Externals} (layers : list DecoderLayer.t)
         (dec_outputs enc_outputs : Tensor R)
         (dec_self_attn_subsequent_mask : Tensor Z)
         (dec_self_attns dec_enc_attns : list (Tensor R))
  : M (Tensor R * list (Tensor R) * list (Tensor R)) :=
  match layers with
  | [] => ret (dec_outputs, dec_self_attns, dec_enc_attns)
  | layer :: rest =>
      (' (dec_outputs, dec_self_attn, dec_enc_attn) <-
         DecoderLayer.forward layer dec_outputs enc_outputs
           (Some dec_self_attn_subsequent_mask) None ;;
       run rest dec_outputs enc_outputs dec_self_attn_subsequent_mask
           (dec_self_attns ++ [dec_self_attn])
           (dec_enc_attns ++ [dec_enc_attn]))%M
  end.

Definition forward {E : Externals} (self : t) (dec_inputs enc_outputs : Tensor R)
  : M (Tensor R * list (Tensor R) * list (Tensor R)) :=
  (dec_outputs <- lift (PositionalEncoding.forward (pos_emb self) dec_inputs) ;;
   dec_self_attn_subsequent_mask <- lift (get_attn_subsequent_mask dec_inputs) ;;
   run (layers self) dec_outputs enc_outputs dec_self_attn_subsequent_mask [] [])%M.

End Decoder.

(** ** The process model *)

Definition normal_kl (mean1 logvar1 mean2 logvar2 : Tensor R) : result (Tensor R) :=
  (a <~ tsub (sadd (-1) logvar2) logvar1 ;;
   d12 <~ tsub logvar1 logvar2 ;;
   b <~ tadd a (texp d12) ;;
   dm <~ tsub mean1 mean2 ;;
   c <~ tmul (tsquare dm) (texp (tneg logvar2)) ;;
   s <~ tadd b c ;;
   let total_kl := tmap (Rmult (1 / 2)) s in
   Ok total_kl)%result.

(** The second component of what the process model returns: the Python
    integer of the branch without target, or a scalar tensor. *)
Inductive Loss : Type :=
| PyInt (z : Z)
| Scalar (v : R).

Module process_model.

Record t : Type := mk {
  encoder : Sequential;
  musig : Linear.t;
  decoder : Sequential;
  norm : LayerNorm.t;
  mean_module : Tensor R -> result (Tensor R);
  covar_module : Tensor R -> result (Tensor R);
  mean_module_t : Tensor R -> result (Tensor R);
  covar_module_t : Tensor R -> result (Tensor R);
  gp : bool;
  gp_proj_mean : option Linear.t;
  gp_proj_var : option Linear.t;
  d : nat
}.

Definition conv_stack (d : nat) : M Sequential :=
  (c1 <- Conv1d.init d d 3 ((3 - 1) / 2) ;;
   c2 <- Conv1d.init d d 3 ((3 - 1) / 2) ;;
   ret [LConv1d c1; LConv1d c2; LBatchNorm1d (BatchNorm1d.init d); LSoftmax (-1)])%M.

Definition init {E : Externals} (gp : bool) (d : nat) : M t :=
  (encoder <- conv_stack d ;;
   musig <- Linear.init d (2 * d) true ;;
   decoder <- conv_stack d ;;
   let norm := LayerNorm.init d true in
   ' (pm, pv) <-
     (if gp then
        pm <- Linear.init 1 d true ;;
        pv <- Linear.init 1 d true ;;
        ret (Some pm, Some pv)
      else ret (None, None)) ;;
   ret (mk encoder musig decoder norm
           ConstantMean ScaleKernel_RBFKernel ConstantMean ScaleKernel_RBFKernel
           gp pm pv d))%M.

(** An attribute that is set only when [gp] holds. *)
Definition attr {A} (o : option A) : result A :=
  match o with
  | Some a => Ok a
  | None => Raise AttributeError
  end.

(** Mean and variance of the Gaussian process over a sequence, each with
    a trailing dimension of size one. *)
Definition gp_stats {E : Externals}
           (mean_module covar_module : Tensor R -> result (Tensor R))
           (x : Tensor R) : result (Tensor R * Tensor R) :=
  (mean <~ mean_module x ;;
   co_var <~ covar_module x ;;
   dist <~ new_MultivariateNormal mean co_var ;;
   mean <~ unsqueeze (-1) (dist_mean dist) ;;
   co_var <~ unsqueeze (-1) (dist_variance dist) ;;
   Ok (mean, co_var))%result.

(** [m(t.permute(0, 2, 1)).permute(0, 2, 1)] *)
Definition channel_first (m : Sequential) (t : Tensor R) : result (Tensor R) :=
  (p <~ permute [0; 2; 1] t ;;
   h <~ Sequential_forward m p ;;
   permute [0; 2; 1] h)%result.

(** The loss of the branch with a target. *)
Definition kl_of (s_len : nat) (mean_t co_var_t mu sigma : Tensor R) : result Loss :=
  (m <~ mean_last mean_t ;;
   mean_t <~ flatten_from1 m ;;
   c <~ mean_last co_var_t ;;
   co_var_t <~ flatten_from1 c ;;
   mu_l <~ getitem mu [full_slice; from (- Z.of_nat s_len); full_slice] ;;
   mu_m <~ mean_last mu_l ;;
   mu <~ flatten_from1 mu_m ;;
   sigma_l <~ getitem sigma [full_slice; from (- Z.of_nat s_len); full_slice] ;;
   sigma_m <~ mean_last sigma_l ;;
   sigma <~ flatten_from1 sigma_m ;;
   kl <~ normal_kl mean_t co_var_t mu sigma ;;
   Ok (Scalar (mean_all kl)))%result.

(** Statistics of the target, computed only when one is given. *)
Definition target_stats {E : Externals} (self : t) (target : option (Tensor R))
  : result (option (nat * Tensor R * Tensor R)) :=
  match target with
  | Some target =>
      (s_len <~ size target 1 ;;
       ' (mean_t, co_var_t) <~
         gp_stats (mean_module_t self) (covar_module_t self) target ;;
       Ok (Some (s_len, mean_t, co_var_t)))%result
  | None => Ok None
  end.

(** What is added in place to [x], whose current value is [xv]. *)
Definition noise_term {E : Externals} (self : t) (xv eps : Tensor R)
  : result (Tensor R) :=
  if gp self then
    (_ <~ match shape xv with
          | [b; s; _] => Ok (b, s)
          | _ => Raise ValueError
          end ;;
     ' (mean, co_var) <~ gp_stats (mean_module self) (covar_module self) xv ;;
     pm <~ attr (gp_proj_mean self) ;;
     m <~ Linear.forward pm mean ;;
     pv <~ attr (gp_proj_var self) ;;
     v <~ Linear.forward pv co_var ;;
     ve <~ tmul v eps ;;
     tadd m (smul ve (1 / 10)))%result
  else Ok (smul eps (1 / 10)).

Definition forward {E : Externals} (self : t) (x : loc) (target : option (Tensor R))
  : M (Tensor R * Loss) :=
  (xv <- load x ;;
   eps <- randn_like xv ;;
   tstats <- lift (target_stats self target) ;;
   eps <- lift (noise_term self xv eps) ;;
   x_noisy <- add_ x eps ;;
   xn <- load x_noisy ;;
   h <- lift (channel_first (encoder self) xn) ;;
   musig <- lift (Linear.forward (musig self) h) ;;
   mu <- lift (getitem musig [full_slice; full_slice; upto (Z.of_nat (d self))]) ;;
   sigma <- lift (getitem musig
                    [full_slice; full_slice; from (- Z.of_nat (d self))]) ;;
   r <- randn_like sigma ;;
   sr <- lift (tmul (texp (smul sigma (1 / 2))) r) ;;
   z <- lift (tadd mu sr) ;;
   y <- lift (channel_first (decoder self) z) ;;
   xv <- load x ;;
   yx <- lift (tadd y xv) ;;
   output <- lift (LayerNorm.forward (norm self) yx) ;;
   kl_loss <-
     match tstats with
     | Some (s_len, mean_t, co_var_t) => lift (kl_of s_len mean_t co_var_t mu sigma)
     | None => ret (PyInt 0)
     end ;;
   ret (output, kl_loss))%M.

End process_model.

(** ** The transformer *)

(** What [Transformer.forward] returns. *)
Inductive Returned : Type :=
| Single (outputs : Tensor R)
| Pair (outputs : Tensor R) (kl_loss : Loss).

Module Transformer.

Record t : Type := mk {
  encoder : Encoder.t;
  decoder : Decoder.t;
  enc_embedding : Linear.t;
  dec_embedding : Linear.t;
  projection : Linear.t;
  p_model : bool;
  process : option process_model.t;
  attn_type : string;
  pred_len : Z
}.

(** The three seeding calls. *)
Definition seed_everything {E : Externals} (seed : Z) : M unit :=
  fun st =>
    (Ok tt,
     mkState (mkRNGs (torch_manual_seed seed) (random_seed seed) (np_random_seed seed))
             (heap st) (attn_calls st)).

Definition init {E : Externals}
           (src_input_size tgt_input_size : nat) (pred_len : Z)
           (d_model d_ff d_k d_v n_heads n_layers : nat)
           (attn_type : string) (seed : Z) (p_model gp : bool) : M t :=
  (seed_everything seed ;;;
   encoder <- Encoder.init d_model d_ff d_k d_v n_heads n_layers attn_type seed ;;
   decoder <- Decoder.init d_model d_ff d_k d_v n_heads 1 attn_type seed ;;
   enc_embedding <- Linear.init src_input_size d_model true ;;
   dec_embedding <- Linear.init tgt_input_size d_model true ;;
   projection <- Linear.init d_model 1 false ;;
   process <-
     (if p_model then pm <- process_model.init gp d_model ;; ret (Some pm)
      else ret None) ;;
   ret (mk encoder decoder enc_embedding dec_embedding projection
           p_model process attn_type pred_len))%M.

(** [projection(t[:, -pred_len:, :])] *)
Definition project (self : t) (t : Tensor R) : result (Tensor R) :=
  (last_steps <~ getitem t [full_slice; from (- pred_len self); full_slice] ;;
   Linear.forward (projection self) last_steps)%result.

Definition forward {E : Externals} (self : t) (enc_inputs dec_inputs : Tensor R)
           (target : option (Tensor R)) : M Returned :=
  (enc_outputs <- lift (Linear.forward (enc_embedding self) enc_inputs) ;;
   dec_outputs <- lift (Linear.forward (dec_embedding self) dec_inputs) ;;
   ' (enc_outputs, enc_self_attns) <- Encoder.forward (encoder self) enc_outputs ;;
   ' (dec_outputs, dec_self_attns, dec_enc_attn) <-
     Decoder.forward (decoder self) dec_outputs enc_outputs ;;
   if p_model self then
     process <- lift (process_model.attr (process self)) ;;
     x <- alloc dec_outputs ;;
     ' (outputs, kl_loss) <- process_model.forward process x target ;;
     outputs <- lift (project self outputs) ;;
     ret (Pair outputs kl_loss)
   else
     outputs <- lift (project self dec_outputs) ;;
     ret (Single outputs))%M.

End Transformer.

(** * Vocabulary of the statements *)

Unset Implicit Arguments.

(** The sinusoidal table: column [j] of row [p]. *)
Definition sinusoid (d_hid p j : nat) : R :=
  if Nat.even j
  then sin (INR p / Rpower 10000 (INR j / INR d_hid))
  else cos (INR p / Rpower 10000 (INR (j - 1) / INR d_hid)).

(** [post c Q st]: running [c] from [st] ends, with a value or with an
    exception, in a state related to the outcome by [Q]. *)
Definition post {A} (c : M A) (Q : result A -> State -> Prop) (st : State) : Prop :=
  Q (fst (c st)) (snd (c st)).

(** The strategy that the chain of tests in [MultiHeadAttention.forward]
    selects for a tag. *)
Definition selected_strategy (attn_type : string) : Strategy :=
  if String.eqb attn_type "ACAT" then SACAT
  else if contains "KittyCat" attn_type then SKittyCatConv
  else if String.eqb attn_type "basic_attn" then SBasicAttn
  else if String.eqb attn_type "LogTrans" then SLogTrans
  else if String.eqb attn_type "informer" then SProbAttention
  else SAutoCorrelation.

(** The mask as the strategy receives it: one copy per head. *)
Definition per_head (n_heads : nat) (attn_mask : option (Tensor Z))
  : result (option (Tensor Z)) :=
  match attn_mask with
  | Some m =>
      (m1 <~ unsqueeze 1 m ;;
       m2 <~ repeat_ m1 [1; n_heads; 1; 1] ;;
       Ok (Some m2))%result
  | None => Ok None
  end.

(** A mask of shape (B, heads, T, T) that hides exactly the later
    positions: entry (i, j) is one when [j > i] and zero otherwise. *)
Definition causal (B T : nat) (m : Tensor Z) : Prop :=
  exists h, shape m = [B; h; T; T]
    /\ forall b k i j, b < B -> k < h -> i < T -> j < T ->
         get m [b; k; i; j] = if i <? j then 1%Z else 0%Z.

(** A strategy run that received a causal mask. *)
Definition masked (B T : nat) (c : AttnCall) : Prop :=
  exists m, snd c = Some m /\ causal B T m.

(** The strategy runs of a decoder with [n] layers left: each layer runs
    its self-attention with the causal mask and then its cross-attention
    without mask; an exception may end the sequence at any point. *)
Inductive decoder_calls (B T : nat) : nat -> list AttnCall -> Prop :=
| dc_stop n : decoder_calls B T n []
| dc_self n a : masked B T a -> decoder_calls B T (S n) [a]
| dc_layer n a c rest :
    masked B T a -> snd c = None -> decoder_calls B T n rest ->
    decoder_calls B T (S n) (a :: c :: rest).

(** What one call of the attention layer adds to the record of strategy
    runs: nothing, when the call raises before the dispatch; otherwise one run,
    of the strategy selected by the tag, with the mask copied per head. *)
Definition one_strategy_run {A} (self : MultiHeadAttention.t)
           (attn_mask : option (Tensor Z)) (st : State)
           (r : result A) (s' : State) : Prop :=
  heap s' = heap st
  /\ ((attn_calls s' = attn_calls st /\ exists e, r = Raise e)
      \/ exists m mask',
           attn_calls s' = attn_calls st ++ [(m, mask')]
           /\ strategy_of m = selected_strategy (MultiHeadAttention.attn_type self)
           /\ per_head (MultiHeadAttention.n_heads self) attn_mask = Ok mask').

(** What a stack of [n] decoder layers adds to the record of strategy
    runs; when it returns, every layer ran both its strategies. *)
Definition stack_calls {A} (B T n : nat) (st : State) (r : result A) (s' : State) : Prop :=
  heap s' = heap st
  /\ exists new, attn_calls s' = attn_calls st ++ new
       /\ decoder_calls B T n new
       /\ (forall a, r = Ok a -> length new = 2 * n).

Definition zero_generator : Generator := mkGenerator 0 (fun _ => 0%R) (fun _ => 0%R).

Definition initial_state : State :=
  mkState (mkRNGs zero_generator zero_generator zero_generator) [] [].

(** ** Sample values for the imported parts and for a small model *)

(** Squared distance between rows [i] and [j] of batch [b]. *)
Definition sq_dist (x : Tensor R) (b i j : nat) : R :=
  big_sum (last (shape x) 0)
          (fun k => ((get x [b; i; k] - get x [b; j; k])
                     * (get x [b; i; k] - get x [b; j; k]))%R).

(** A zero constant mean, a scaled radial kernel with unit parameters, a
    distribution that keeps the mean and the diagonal of the covariance,
    strategies that return the queries as context, and generators whose
    tapes do not depend on the seed. *)
Definition sample_externals : Externals := {|
  torch_manual_seed := fun _ => zero_generator;
  random_seed := fun _ => zero_generator;
  np_random_seed := fun _ => zero_generator;
  attention_call := fun _ Q K V _ g => (Ok (Q, K), g);
  ConstantMean := fun x => Ok (zeros (removelast (shape x)));
  ScaleKernel_RBFKernel := fun x =>
    match shape x with
    | [b; s; _] =>
        Ok (mkTensor [b; s; s]
              (fun idx => exp (- sq_dist x (nth 0 idx 0) (nth 1 idx 0) (nth 2 idx 0) / 2)))
    | _ => Raise RuntimeError
    end;
  new_MultivariateNormal := fun mean covar =>
    Ok (mkMultivariateNormal mean
          (mkTensor (shape mean) (fun idx => get covar (idx ++ [last idx 0]))))
|}.

Definition sample_linear (i o : nat) (with_bias : bool) : Linear.t :=
  Linear.mk i o (ones [o; i]) (if with_bias then Some (zeros [o]) else None).

Definition sample_attention (attn_type : string) : MultiHeadAttention.t :=
  MultiHeadAttention.mk (sample_linear 2 2 false) (sample_linear 2 2 false)
    (sample_linear 2 2 false) (sample_linear 2 2 false) 2 1 1 2 attn_type 0.

Definition sample_ffn : PoswiseFeedForwardNet.t :=
  PoswiseFeedForwardNet.mk (sample_linear 2 4 true) (sample_linear 4 2 true).

Definition sample_decoder_layer : DecoderLayer.t :=
  DecoderLayer.mk (sample_attention "basic_attn") (sample_attention "basic_attn")
    sample_ffn (LayerNorm.init 2 false).

Definition sample_decoder : Decoder.t :=
  Decoder.mk "basic_attn" (PositionalEncoding.mk (zeros [1; 1000; 2]))
    (LayerNorm.init 2 true) [sample_decoder_layer] 1.

(** ** The process model as its constructor builds it *)

Definition conv_wf (d : nat) (c : Conv1d.t) : Prop :=
  Conv1d.in_channels c = d /\ Conv1d.out_channels c = d
  /\ Conv1d.kernel_size c = 3 /\ Conv1d.padding c = 1.

Definition stack_wf (d : nat) (m : Sequential) : Prop :=
  exists c1 c2 bn,
    m = [LConv1d c1; LConv1d c2; LBatchNorm1d bn; LSoftmax (-1)]
    /\ conv_wf d c1 /\ conv_wf d c2 /\ BatchNorm1d.num_features bn = d.

Definition proj_wf (d : nat) (o : option Linear.t) : Prop :=
  exists l, o = Some l /\ Linear.in_features l = 1 /\ Linear.out_features l = d.

Definition pm_wf (self : process_model.t) : Prop :=
  let d := process_model.d self in
  stack_wf d (process_model.encoder self)
  /\ stack_wf d (process_model.decoder self)
  /\ Linear.in_features (process_model.musig self) = d
  /\ Linear.out_features (process_model.musig self) = 2 * d
  /\ LayerNorm.normalized_shape (process_model.norm self) = d
  /\ (process_model.gp self = true ->
      proj_wf d (process_model.gp_proj_mean self)
      /\ proj_wf d (process_model.gp_proj_var self)).

(** The value of the stack on a (batch, time, feature) tensor: entry
    (i, t, j) is normalised by the sum over all times of batch [i] and
    feature [j]. *)
Definition over_time (u : Tensor R) (b s d : nat) : Tensor R :=
  mkTensor [b; s; d]
    (fun idx =>
       let i := nth 0 idx 0 in
       let t := nth 1 idx 0 in
       let j := nth 2 idx 0 in
       Rdiv (exp (get u [i; j; t])) (big_sum s (fun k => exp (get u [i; j; k])))).

(** The path of the data through one forward call: [xv] is the input as
    given, [nz] what is added to it in place, [xn] the input after that
    addition, [r] the second noise. *)
Definition data_flow (self : process_model.t)
           (xv nz r xn h ms mu sigma z y out : Tensor R) : Prop :=
  tadd xv nz = Ok xn
  /\ process_model.channel_first (process_model.encoder self) xn = Ok h
  /\ Linear.forward (process_model.musig self) h = Ok ms
  /\ getitem ms [full_slice; full_slice; upto (Z.of_nat (process_model.d self))] = Ok mu
  /\ getitem ms [full_slice; full_slice; from (- Z.of_nat (process_model.d self))]
     = Ok sigma
  /\ (exists sr, tmul (texp (smul sigma (1 / 2))) r = Ok sr /\ tadd mu sr = Ok z)
  /\ process_model.channel_first (process_model.decoder self) z = Ok y
  /\ (exists yx, tadd y xn = Ok yx
        /\ LayerNorm.forward (process_model.norm self) yx = Ok out).

(** The loss for given target statistics. *)
Definition loss_of (tstats : option (nat * Tensor R * Tensor R)) (mu sigma : Tensor R)
  : result Loss :=
  match tstats with
  | Some (s_len, mean_t, co_var_t) => process_model.kl_of s_len mean_t co_var_t mu sigma
  | None => Ok (PyInt 0)
  end.

Definition sample_conv : Conv1d.t := Conv1d.mk 2 2 3 1 (zeros [2; 2; 3]) (zeros [2]).

Definition sample_stack : Sequential :=
  [LConv1d sample_conv; LConv1d sample_conv; LBatchNorm1d (BatchNorm1d.init 2);
   LSoftmax (-1)].

Definition sample_process_model (gp : bool) : process_model.t :=
  process_model.mk sample_stack (sample_linear 2 4 true) sample_stack
    (LayerNorm.init 2 true)
    (@ConstantMean sample_externals) (@ScaleKernel_RBFKernel sample_externals)
    (@ConstantMean sample_externals) (@ScaleKernel_RBFKernel sample_externals)
    gp
    (if gp then Some (sample_linear 1 2 true) else None)
    (if gp then Some (sample_linear 1 2 true) else None)
    2.

(** A state whose only tensor object is [t], with generators at the
    start of the given tape of normal samples. *)
Definition state_with (t : Tensor R) (tape : nat -> R) : State :=
  let g := mkGenerator 0 tape (fun _ => 0%R) in
  mkState (mkRNGs g zero_generator zero_generator) [t] [].

(** Normal samples 1, -1, 0, 0, ... *)
Definition sample_tape (k : nat) : R :=
  match k with
  | 0 => 1%R
  | 1 => (-1)%R
  | _ => 0%R
  end.

(** [LayerNorm(y + x)] with the normalisation of the process model. *)
Definition residual_on (self : process_model.t) (y x : Tensor R) : result (Tensor R) :=
  (yx <~ tadd y x ;; LayerNorm.forward (process_model.norm self) yx)%result.


(** ** The loss as the specification words it *)

(** The closed form for two Gaussians given by mean and log-variance. *)
Definition gaussian_kl (mean1 logvar1 mean2 logvar2 : R) : R :=
  (1 / 2 * (-1 + logvar2 - logvar1 + exp (logvar1 - logvar2)
            + (mean1 - mean2) * (mean1 - mean2) * exp (- logvar2)))%R.

(** Average over the feature axis, of width [w], at batch [i] and time [l]. *)
Definition feature_mean (t : Tensor R) (w i l : nat) : R :=
  (big_sum w (fun j => get t [i; l; j]) / INR w)%R.

(** Mean, over the batch and the last [L] of [s] time steps, of the
    closed form between the target statistics and the predicted ones. *)
Definition kl_mean (b L s d : nat) (mean_t co_var_t mu sigma : Tensor R) : R :=
  (big_sum b (fun i =>
     big_sum L (fun l =>
       gaussian_kl (feature_mean mean_t 1 i l) (feature_mean co_var_t 1 i l)
                   (feature_mean mu d i (s - L + l))
                   (feature_mean sigma d i (s - L + l))))
   / INR (b * L))%R.

(** ** The transformer: what is projected *)

(** The tensor that [Transformer.forward] projects, with the loss when
    the process model is active: the output of the process model, or else
    the output of the decoder. *)
Definition features {E : Externals} (self : Transformer.t)
           (enc_inputs dec_inputs : Tensor R) (target : option (Tensor R))
  : M (Tensor R * option Loss) :=
  (enc_outputs <- lift (Linear.forward (Transformer.enc_embedding self) enc_inputs) ;;
   dec_outputs <- lift (Linear.forward (Transformer.dec_embedding self) dec_inputs) ;;
   ' (enc_outputs, enc_self_attns) <-
     Encoder.forward (Transformer.encoder self) enc_outputs ;;
   ' (dec_outputs, dec_self_attns, dec_enc_attn) <-
     Decoder.forward (Transformer.decoder self) dec_outputs enc_outputs ;;
   if Transformer.p_model self then
     process <- lift (process_model.attr (Transformer.process self)) ;;
     x <- alloc dec_outputs ;;
     ' (outputs, kl_loss) <- process_model.forward process x target ;;
     ret (outputs, Some kl_loss)
   else ret (dec_outputs, None))%M.

(** A single tensor, or a pair when there is a loss. *)
Definition returned (outputs : Tensor R) (kl_loss : option Loss) : Returned :=
  match kl_loss with
  | Some kl => Pair outputs kl
  | None => Single outputs
  end.

Definition sample_encoder_layer : EncoderLayer.t :=
  EncoderLayer.mk (sample_attention "basic_attn") sample_ffn (LayerNorm.init 2 false).

Definition sample_encoder : Encoder.t :=
  Encoder.mk "basic_attn" (PositionalEncoding.mk (zeros [1; 1000; 2])) 1
    [sample_encoder_layer].

Definition sample_transformer (p_model : bool) : Transformer.t :=
  Transformer.mk sample_encoder sample_decoder
    (sample_linear 1 2 true) (sample_linear 1 2 true) (sample_linear 2 1 false)
    p_model (if p_model then Some (sample_process_model false) else None)
    "basic_attn" 1.

(** ** Two runs side by side *)

(** Two outcomes agree: both return related values, or both raise the
    same exception, and the final states are related. *)
Definition agree {A} (Rr : A -> A -> Prop) (Post : State -> State -> Prop)
           (o1 o2 : result A * State) : Prop :=
  match o1, o2 with
  | (Ok a1, t1), (Ok a2, t2) => Rr a1 a2 /\ Post t1 t2
  | (Raise e1, t1), (Raise e2, t2) => e1 = e2 /\ Post t1 t2
  | _, _ => False
  end.

(** Run from states related by [Pre], the two computations agree and end
    in states related by [Post]. *)
Definition related {A} (Pre Post : State -> State -> Prop) (Rr : A -> A -> Prop)
           (c1 c2 : M A) : Prop :=
  forall s1 s2, Pre s1 s2 -> agree Rr Post (c1 s1) (c2 s2).

(** Same generators, given heaps. *)
Definition same_rngs (h1 h2 : list (Tensor R)) (s1 s2 : State) : Prop :=
  rngs s1 = rngs s2 /\ heap s1 = h1 /\ heap s2 = h2.

(** Same generators, and the same tensor at [x1] in one state and at
    [x2] in the other. *)
Definition same_at (x1 x2 : loc) (s1 s2 : State) : Prop :=
  rngs s1 = rngs s2 /\ nth_error (heap s1) x1 = nth_error (heap s2) x2.

Definition eq_rngs (s1 s2 : State) : Prop := rngs s1 = rngs s2.

(** Construction with a seed followed by one forward call. *)
Definition construct_and_run {E : Externals}
           (src_input_size tgt_input_size : nat) (pred_len : Z)
           (d_model d_ff d_k d_v n_heads n_layers : nat)
           (attn_type : string) (seed : Z) (p_model gp : bool)
           (enc_inputs dec_inputs : Tensor R) (target : option (Tensor R))
  : M Returned :=
  (model <- Transformer.init src_input_size tgt_input_size pred_len
              d_model d_ff d_k d_v n_heads n_layers attn_type seed p_model gp ;;
   Transformer.forward model enc_inputs dec_inputs target)%M.

(** ** Vocabulary of the further properties *)

(** The scalar product of the features of one position with one row of
    the weight of a linear layer, plus the bias if there is one. *)
Definition linear_at (l : Linear.t) (row : nat -> R) (o : nat) : R :=
  let dot := big_sum (Linear.in_features l)
               (fun j => Rmult (row j) (get (Linear.weight l) [o; j])) in
  match Linear.bias l with
  | Some b => Rplus dot (get b [o])
  | None => dot
  end.

(** [preserved Rel c]: whatever the outcome of [c], the final state is
    related to the initial one by [Rel]. *)
Definition preserved {A} (Rel : State -> State -> Prop) (c : M A) : Prop :=
  forall st, Rel st (snd (c st)).

(** No strategy was run between the two states. *)
Definition same_calls (st s' : State) : Prop := attn_calls s' = attn_calls st.

(** Only the generators may have changed. *)
Definition only_rngs (st s' : State) : Prop :=
  heap s' = heap st /\ attn_calls s' = attn_calls st.

(** A strategy run that received no mask. *)
Definition unmasked (c : AttnCall) : Prop := snd c = None.

(** What an encoder of [n] layers adds to the record of strategy runs:
    one run without mask per layer reached; when it returns, every layer ran
    its strategy and one attention tensor per layer is returned. *)
Definition encoder_calls (n : nat) (st : State)
           (r : result (Tensor R * list (Tensor R))) (s' : State) : Prop :=
  heap s' = heap st
  /\ exists new, attn_calls s' = attn_calls st ++ new
       /\ Forall unmasked new /\ length new <= n
       /\ forall out attns, r = Ok (out, attns) -> length new = n /\ length attns = n.

(** The strategy runs of one forward call of the transformer: those of
    the encoder, then those of the decoder. *)
Definition forward_calls {A} (n_enc n_dec B T : nat) (st : State)
           (r : result A) (s' : State) : Prop :=
  exists enc_new dec_new,
    attn_calls s' = attn_calls st ++ enc_new ++ dec_new
    /\ Forall unmasked enc_new /\ length enc_new <= n_enc
    /\ decoder_calls B T n_dec dec_new
    /\ (dec_new <> [] -> length enc_new = n_enc)
    /\ (forall a, r = Ok a -> length enc_new = n_enc /\ length dec_new = 2 * n_dec).

(** The three input maps of an attention layer, sized as its
    constructor sizes them. *)
Definition mha_wf (self : MultiHeadAttention.t) : Prop :=
  let d_model := MultiHeadAttention.d_model self in
  let d_k := MultiHeadAttention.d_k self in
  let d_v := MultiHeadAttention.d_v self in
  let n_heads := MultiHeadAttention.n_heads self in
  Linear.in_features (MultiHeadAttention.WQ self) = d_model
  /\ Linear.out_features (MultiHeadAttention.WQ self) = d_k * n_heads
  /\ Linear.in_features (MultiHeadAttention.WK self) = d_model
  /\ Linear.out_features (MultiHeadAttention.WK self) = d_k * n_heads
  /\ Linear.in_features (MultiHeadAttention.WV self) = d_model
  /\ Linear.out_features (MultiHeadAttention.WV self) = d_v * n_heads.

(** The strategy object of each branch of the dispatch, for keys of
    length [l_k]. *)
Definition strategy_object (self : MultiHeadAttention.t) (l_k : nat) (mask_given : bool)
  : AttnModule :=
  let d_k := MultiHeadAttention.d_k self in
  let h := MultiHeadAttention.n_heads self in
  let seed := MultiHeadAttention.seed self in
  let attn_type := MultiHeadAttention.attn_type self in
  if String.eqb attn_type "ACAT" then ACAT d_k h l_k seed
  else if contains "KittyCat" attn_type then KittyCatConv d_k h l_k seed
  else if String.eqb attn_type "basic_attn" then BasicAttn d_k seed
  else if String.eqb attn_type "LogTrans" then LogTrans d_k seed
  else if String.eqb attn_type "informer" then ProbAttention mask_given seed
  else AutoCorrelation.

Definition is_given {A} (o : option A) : bool :=
  match o with
  | Some _ => true
  | None => false
  end.

(** The loss when the input has a single time step and the target [L]
    steps: every target step is compared with that single step. *)
Definition kl_mean_single (b L d : nat) (mean_t co_var_t mu sigma : Tensor R) : R :=
  (big_sum b (fun i =>
     big_sum L (fun l =>
       gaussian_kl (feature_mean mean_t 1 i l) (feature_mean co_var_t 1 i l)
                   (feature_mean mu d i 0) (feature_mean sigma d i 0)))
   / INR (b * L))%R.

(** * Properties *)

(** ** Arithmetic of slices and broadcasting *)

Lemma slice_len_full (n : nat) : slice_len n full_slice = n.
Proof.
  unfold slice_len, slice_start, slice_stop, full_slice; cbn [sl_start sl_stop sl_step].
  rewrite Nat.sub_0_r, Nat.add_sub, Nat.div_1_r; reflexivity.
Qed.

Lemma norm_bound_nat (n k : nat) : norm_bound n (Z.of_nat k) = Nat.min k n.
Proof.
  unfold norm_bound.
  destruct (Z.ltb_spec (Z.of_nat k) 0); [lia|].
  rewrite Nat2Z.id; reflexivity.
Qed.

Lemma slice_len_upto (n k : nat) : slice_len n (upto (Z.of_nat k)) = Nat.min k n.
Proof.
  unfold slice_len, slice_start, slice_stop, upto; cbn [sl_start sl_stop sl_step].
  rewrite norm_bound_nat, Nat.sub_0_r, Nat.add_sub, Nat.div_1_r; reflexivity.
Qed.

Lemma slice_len_from_step (n a k : nat) :
  slice_len n (from_step (Z.of_nat a) k) = (n - Nat.min a n + k - 1) / k.
Proof.
  unfold slice_len, slice_start, slice_stop, from_step; cbn [sl_start sl_stop sl_step].
  rewrite norm_bound_nat; reflexivity.
Qed.

Lemma bcast_dim (d i : nat) : i < d -> (if d =? 1 then 0 else i) = i.
Proof.
  intros H; destruct (Nat.eqb_spec d 1); [lia | reflexivity].
Qed.

(** ** PositionalEncoding *)

Lemma div_table_shape (max_len d_hid : nat) :
  exists X,
    tdiv (reshape_m1_1 (arange max_len))
         (pow_base 10000 (sdiv (arange_step 0 d_hid 2) (INR d_hid))) = Ok X
    /\ shape X = [max_len; (d_hid + 1) / 2]
    /\ forall p i, p < max_len -> i < (d_hid + 1) / 2 ->
         get X [p; i] = (INR p / Rpower 10000 (INR (i * 2) / INR d_hid))%R.
Proof.
  unfold tdiv, map2, broadcast_shapes.
  cbn [shape reshape_m1_1 arange arange_step pow_base sdiv tmap numel fold_right rev app].
  rewrite !Nat.sub_0_r, !Nat.add_sub, Nat.div_1_r, Nat.mul_1_r.
  replace (d_hid + 2 - 1) with (d_hid + 1) by lia.
  set (c := (d_hid + 1) / 2).
  cbn [broadcast_rev].
  assert (E : (if 1 =? c then Ok [1; max_len]
               else if 1 =? 1 then Ok [c; max_len]
               else if c =? 1 then Ok [1; max_len] else Raise RuntimeError)
              = Ok [c; max_len]).
  { destruct (Nat.eqb_spec 1 c) as [<-|]; reflexivity. }
  rewrite E. cbn [rbind rev app].
  eexists; split; [reflexivity|]. split; [reflexivity|].
  intros p i Hp Hi.
  cbn [get bcast_index length Nat.sub skipn combine map hd unravel numel fold_right].
  rewrite (bcast_dim _ _ Hp), (bcast_dim _ _ Hi).
  cbn [get reshape_m1_1 arange arange_step pow_base sdiv tmap shape hd unravel
       numel fold_right Nat.eqb Nat.add].
  rewrite Nat.mul_1_r, Nat.div_1_r. reflexivity.
Qed.

Lemma slice_inv_full (n i : nat) : i < n -> slice_inv n full_slice i = Some i.
Proof.
  intros H. unfold slice_inv, slice_start, slice_stop, full_slice.
  cbn [sl_start sl_stop sl_step].
  rewrite Nat.sub_0_r, Nat.mod_1_r, Nat.div_1_r.
  destruct (Nat.ltb_spec i n); [reflexivity | lia].
Qed.

Lemma slice_inv_from_step (n a k i : nat) :
  slice_inv n (from_step (Z.of_nat a) k) i =
  if (Nat.min a n <=? i) && (i <? n) && ((i - Nat.min a n) mod k =? 0)
  then Some ((i - Nat.min a n) / k) else None.
Proof.
  unfold slice_inv, slice_start, slice_stop, from_step.
  cbn [sl_start sl_stop sl_step]. rewrite norm_bound_nat. reflexivity.
Qed.

(** Assignment of a matrix to every second column of a table. *)
Lemma setitem_columns (t v : Tensor R) (m d c a : nat) :
  shape t = [1; m; d] -> shape v = [m; c] ->
  let slots := (d - Nat.min a d + 2 - 1) / 2 in
  setitem t [full_slice; full_slice; from_step (Z.of_nat a) 2] v =
  if (c =? slots) || (c =? 1)
  then Ok (mkTensor [1; m; d] (fun idx =>
         match sliced_inv [1; m; d]
                 [full_slice; full_slice; from_step (Z.of_nat a) 2] idx with
         | Some j => get v (bcast_index [m; c] j)
         | None => get t idx
         end))
  else Raise RuntimeError.
Proof.
  intros Ht Hv slots. unfold setitem. rewrite Ht, Hv.
  cbn [length Nat.ltb Nat.leb sliced_shape].
  rewrite !slice_len_full, slice_len_from_step.
  unfold expandable. cbn [rev app expandable_rev].
  rewrite Nat.eqb_refl, orb_true_l, !andb_true_r. reflexivity.
Qed.

Lemma sliced_inv_columns (m d a p j : nat) :
  p < m ->
  sliced_inv [1; m; d] [full_slice; full_slice; from_step (Z.of_nat a) 2] [0; p; j] =
  if (Nat.min a d <=? j) && (j <? d) && ((j - Nat.min a d) mod 2 =? 0)
  then Some [0; p; (j - Nat.min a d) / 2] else None.
Proof.
  intros Hp. cbn [sliced_inv].
  rewrite slice_inv_full by lia. rewrite slice_inv_full by assumption.
  rewrite slice_inv_from_step.
  destruct ((Nat.min a d <=? j) && (j <? d) && ((j - Nat.min a d) mod 2 =? 0));
    reflexivity.
Qed.

Ltac Zify.zify_post_hook ::= Z.to_euclidean_division_equations.

Lemma even_half (j : nat) : Nat.even j = true -> j / 2 * 2 = j /\ j mod 2 = 0.
Proof. intros H; apply Nat.even_spec in H; destruct H as [k ->]; lia. Qed.

Lemma odd_half (j : nat) :
  Nat.even j = false -> (j - 1) / 2 * 2 = j - 1 /\ (j - 1) mod 2 = 0 /\ 1 <= j.
Proof.
  intros H. assert (O : Nat.odd j = true) by (unfold Nat.odd; rewrite H; reflexivity).
  apply Nat.odd_spec in O; destruct O as [k ->]; lia.
Qed.

(** Outcome of the construction: it depends only on whether the cosine
    columns fit the odd-indexed slice. *)
Lemma PositionalEncoding_init_cases (d_hid max_len : nat) :
  let c := (d_hid + 1) / 2 in
  let slots := (d_hid - Nat.min 1 d_hid + 2 - 1) / 2 in
  if (c =? slots) || (c =? 1)
  then exists pe, PositionalEncoding.init d_hid max_len = Ok pe
         /\ shape (PositionalEncoding.P pe) = [1; max_len; d_hid]
         /\ forall p j, p < max_len -> j < d_hid ->
              get (PositionalEncoding.P pe) [0; p; j] = sinusoid d_hid p j
  else PositionalEncoding.init d_hid max_len = Raise RuntimeError.
Proof.
  intros c slots. unfold PositionalEncoding.init.
  destruct (div_table_shape max_len d_hid) as (X & -> & HX & HXv).
  cbn [rbind].
  rewrite (setitem_columns _ (tmap sin X) max_len d_hid c 0) by (assumption || reflexivity).
  cbn [Nat.min]. rewrite Nat.sub_0_r.
  replace (d_hid + 2 - 1) with (d_hid + 1) by lia. fold c.
  rewrite Nat.eqb_refl, orb_true_l. cbn [rbind].
  rewrite (setitem_columns _ (tmap cos X) max_len d_hid c 1) by (assumption || reflexivity).
  change (Z.of_nat 1) with 1%Z. fold slots.
  destruct ((c =? slots) || (c =? 1)) eqn:Hfit; cbn [rbind]; [|reflexivity].
  eexists; split; [reflexivity|]. split; [reflexivity|].
  intros p j Hp Hj. cbn [PositionalEncoding.P get].
  change 1%Z with (Z.of_nat 1). rewrite sliced_inv_columns by assumption.
  unfold sinusoid.
  assert (Hmin : Nat.min 1 d_hid = 1) by lia. rewrite Hmin.
  destruct (Nat.even j) eqn:Ej.
  - destruct (even_half j Ej) as [Eh Em].
    assert (Hn : (1 <=? j) && (j <? d_hid) && ((j - 1) mod 2 =? 0) = false).
    { destruct (Nat.leb_spec 1 j); [|reflexivity].
      destruct (Nat.eqb_spec ((j - 1) mod 2) 0); [lia|].
      rewrite andb_false_r; reflexivity. }
    rewrite Hn. change 0%Z with (Z.of_nat 0).
    rewrite sliced_inv_columns by assumption.
    cbn [Nat.min]. rewrite Nat.sub_0_r, Em.
    destruct (Nat.ltb_spec j d_hid); [|lia].
    cbn [Nat.leb Nat.eqb andb tmap get shape].
    cbn [bcast_index length Nat.sub skipn combine map].
    assert (Hh : j / 2 < c) by (unfold c; lia).
    rewrite (bcast_dim _ _ Hp), (bcast_dim _ _ Hh), HXv, Eh by assumption. reflexivity.
  - destruct (odd_half j Ej) as (Eh & Em & H1).
    rewrite Em.
    destruct (Nat.leb_spec 1 j); [|lia].
    destruct (Nat.ltb_spec j d_hid); [|lia].
    cbn [Nat.eqb andb tmap get shape].
    cbn [bcast_index length Nat.sub skipn combine map].
    assert (Hh : (j - 1) / 2 < c) by (unfold c; lia).
    rewrite (bcast_dim _ _ Hp), (bcast_dim _ _ Hh), HXv, Eh by assumption. reflexivity.
Qed.

Lemma PositionalEncoding_init_shape (d_hid max_len : nat) (pe : PositionalEncoding.t) :
  PositionalEncoding.init d_hid max_len = Ok pe ->
  shape (PositionalEncoding.P pe) = [1; max_len; d_hid]
  /\ forall p j, p < max_len -> j < d_hid -> get (PositionalEncoding.P pe) [0; p; j] = sinusoid d_hid p j.
Proof.
  intros H. pose proof (PositionalEncoding_init_cases d_hid max_len) as C.
  cbv zeta in C.
  destruct (_ || _) in C.
  - destruct C as (pe' & E & Hs & Hv). rewrite E in H. injection H as <-. auto.
  - rewrite C in H; discriminate.
Qed.

(** The addition of the sliced table, by cases on the two time lengths. *)
Lemma PositionalEncoding_forward_cases (pe : PositionalEncoding.t) (X : Tensor R)
      (b T d max_len : nat) :
  shape (PositionalEncoding.P pe) = [1; max_len; d] -> shape X = [b; T; d] ->
  PositionalEncoding.forward pe X =
  if (T =? Nat.min T max_len) || (T =? 1) || (Nat.min T max_len =? 1)
  then Ok (mkTensor
             [b; if (T =? Nat.min T max_len) then T
                 else if T =? 1 then Nat.min T max_len else T; d]
             (fun idx =>
                Rplus (get X (bcast_index [b; T; d] idx))
                      (get (PositionalEncoding.P pe)
                         (sliced_index [1; max_len; d]
                            [full_slice; upto (Z.of_nat T); full_slice]
                            (bcast_index [1; Nat.min T max_len; d] idx)))))
  else Raise RuntimeError.
Proof.
  intros HP HX. unfold PositionalEncoding.forward, size, getitem, tadd, map2.
  rewrite HX, HP. cbn [nth_error rbind length Nat.ltb Nat.leb shape sliced_shape].
  rewrite !slice_len_full, slice_len_upto.
  unfold broadcast_shapes. cbn [rev app broadcast_rev].
  rewrite !Nat.eqb_refl.
  set (k := Nat.min T max_len).
  assert (Eb : (if b =? 1 then Ok [b] else if b =? 1 then Ok [1] else Ok [b])
               = Ok [b]).
  { destruct (Nat.eqb_spec b 1); reflexivity. }
  rewrite Eb.
  destruct (T =? k); cbn [orb rbind rev app get]; [reflexivity|].
  destruct (T =? 1); cbn [orb rbind rev app get]; [reflexivity|].
  destruct (k =? 1); cbn [orb rbind rev app get]; reflexivity.
Qed.

Lemma PositionalEncoding_init_even (d_hid max_len : nat) :
  Nat.even d_hid = true ->
  exists pe, PositionalEncoding.init d_hid max_len = Ok pe.
Proof.
  intros E. pose proof (PositionalEncoding_init_cases d_hid max_len) as C.
  cbv zeta in C.
  assert (F : ((d_hid + 1) / 2 =? (d_hid - Nat.min 1 d_hid + 2 - 1) / 2) = true).
  { apply Nat.even_spec in E. destruct E as [k ->]. apply Nat.eqb_eq. lia. }
  rewrite F in C. cbn [orb] in C. destruct C as (pe & H & _). eauto.
Qed.

Lemma PositionalEncoding_init_one (max_len : nat) :
  exists pe, PositionalEncoding.init 1 max_len = Ok pe.
Proof.
  pose proof (PositionalEncoding_init_cases 1 max_len) as C.
  cbn in C. destruct C as (pe & H & _). eauto.
Qed.

(** C8 (as amended). For a table built for width [d_hid] and [max_len]
    rows and an input of shape (batch, T, d_hid): when [T <= max_len] the
    call returns the input plus the sinusoidal table cut to [T] rows (sine in
    the even columns, cosine in the odd ones); when [T > max_len >= 2] the
    slice is clamped to [max_len] rows and the addition raises the backend's
    size-mismatch error. *)
Theorem PositionalEncoding_forward_spec
        (d_hid max_len : nat) (pe : PositionalEncoding.t) (X : Tensor R) (b T : nat) :
  PositionalEncoding.init d_hid max_len = Ok pe ->
  shape X = [b; T; d_hid] ->
  (T <= max_len ->
   exists out, PositionalEncoding.forward pe X = Ok out
     /\ shape out = [b; T; d_hid]
     /\ forall i t j, i < b -> t < T -> j < d_hid ->
          get out [i; t; j] = (get X [i; t; j] + sinusoid d_hid t j)%R)
  /\ (2 <= max_len -> max_len < T ->
      PositionalEncoding.forward pe X = Raise RuntimeError).
Proof.
  intros Hinit HX.
  destruct (PositionalEncoding_init_shape _ _ _ Hinit) as [HP HPv].
  rewrite (PositionalEncoding_forward_cases pe X _ _ _ _ HP HX).
  split.
  - intros Hle. assert (Hk : Nat.min T max_len = T) by lia. rewrite Hk.
    rewrite Nat.eqb_refl. cbn [orb].
    eexists; split; [reflexivity|]. split; [reflexivity|].
    intros i t j Hi Ht Hj.
    cbn [get bcast_index length Nat.sub skipn combine map sliced_index].
    rewrite (bcast_dim _ _ Hi), (bcast_dim _ _ Ht), (bcast_dim _ _ Hj).
    cbn [Nat.eqb].
    unfold slice_pos, slice_start, full_slice, upto. cbn [sl_start sl_step Nat.add].
    rewrite !Nat.mul_1_r. cbn [Nat.mul]. rewrite HPv by lia. reflexivity.
  - intros H2 Hlt. assert (Hk : Nat.min T max_len = max_len) by lia. rewrite Hk.
    destruct (Nat.eqb_spec T max_len); [lia|].
    destruct (Nat.eqb_spec T 1); [lia|].
    destruct (Nat.eqb_spec max_len 1); [lia|]. reflexivity.
Qed.

Lemma PositionalEncoding_forward_spec_witness :
  exists pe, PositionalEncoding.init 2 3 = Ok pe
    /\ (exists out, PositionalEncoding.forward pe (zeros [1; 2; 2]) = Ok out
          /\ shape out = [1; 2; 2]
          /\ forall i t j, i < 1 -> t < 2 -> j < 2 ->
               get out [i; t; j]
               = Rplus (get (zeros [1; 2; 2]) [i; t; j]) (sinusoid 2 t j))
    /\ PositionalEncoding.forward pe (zeros [1; 4; 2]) = Raise RuntimeError.
Proof.
  eexists. split; [reflexivity|]. split.
  - apply (proj1 (PositionalEncoding_forward_spec 2 3 _ (zeros [1; 2; 2]) 1 2
                    eq_refl eq_refl)). lia.
  - apply (proj2 (PositionalEncoding_forward_spec 2 3 _ (zeros [1; 4; 2]) 1 4
                    eq_refl eq_refl)); lia.
Defined.

(** C8, counterexample. A table of the default 1000 rows and an input of
    1001 time steps: the call raises the size-mismatch error, which is not an
    index error; and with a table of a single row an input of two time
    steps is accepted, the row being broadcast over time. *)
Lemma PositionalEncoding_forward_no_index_error :
  (exists pe, PositionalEncoding.init 2 1000 = Ok pe
     /\ PositionalEncoding.forward pe (zeros [1; 1001; 2]) = Raise RuntimeError
     /\ PositionalEncoding.forward pe (zeros [1; 1001; 2]) <> Raise IndexError)
  /\ (exists pe out, PositionalEncoding.init 2 1 = Ok pe
        /\ PositionalEncoding.forward pe (zeros [1; 2; 2]) = Ok out).
Proof.
  split.
  - destruct (PositionalEncoding_init_even 2 1000 eq_refl) as [pe Hpe].
    exists pe. split; [assumption|].
    destruct (PositionalEncoding_init_shape _ _ _ Hpe) as [HP _].
    rewrite (PositionalEncoding_forward_cases pe (zeros [1; 1001; 2]) 1 1001 2 1000 HP eq_refl).
    split; [reflexivity | discriminate].
  - destruct (PositionalEncoding_init_even 2 1 eq_refl) as [pe Hpe].
    exists pe. destruct (PositionalEncoding_init_shape _ _ _ Hpe) as [HP _].
    rewrite (PositionalEncoding_forward_cases pe (zeros [1; 2; 2]) 1 2 2 1 HP eq_refl).
    eexists. split; [assumption | reflexivity].
Qed.

(** C10 (as amended). For every odd feature width of at least three the
    construction raises the size-mismatch error: the table of cosines has
    [(d_hid + 1) / 2] columns, one more than the [d_hid / 2] odd-indexed
    columns it is assigned to. *)
Theorem PositionalEncoding_init_odd_fails (d_hid max_len : nat) :
  Nat.odd d_hid = true -> 3 <= d_hid ->
  PositionalEncoding.init d_hid max_len = Raise RuntimeError
  /\ sliced_shape [1; max_len; d_hid] [full_slice; full_slice; from_step 1 2]
     = [1; max_len; d_hid / 2]
  /\ (d_hid + 1) / 2 = d_hid / 2 + 1.
Proof.
  intros Ho H3. apply Nat.odd_spec in Ho. destruct Ho as [k Hk].
  split; [|split].
  - pose proof (PositionalEncoding_init_cases d_hid max_len) as C. cbv zeta in C.
    assert (F : ((d_hid + 1) / 2 =? (d_hid - Nat.min 1 d_hid + 2 - 1) / 2)
                || ((d_hid + 1) / 2 =? 1) = false).
    { apply orb_false_iff; split; apply Nat.eqb_neq; lia. }
    rewrite F in C. exact C.
  - cbn [sliced_shape]. rewrite !slice_len_full.
    change 1%Z with (Z.of_nat 1). rewrite slice_len_from_step.
    repeat f_equal. lia.
  - lia.
Qed.

Lemma PositionalEncoding_init_odd_fails_witness :
  PositionalEncoding.init 3 1000 = Raise RuntimeError
  /\ sliced_shape [1; 1000; 3] [full_slice; full_slice; from_step 1 2]
     = [1; 1000; 3 / 2]
  /\ (3 + 1) / 2 = 3 / 2 + 1.
Proof.
  apply (PositionalEncoding_init_odd_fails 3 1000); [reflexivity | lia].
Defined.

(** C10, counterexample. Width one is odd, yet the construction succeeds:
    the single column of cosines is broadcast into the empty odd-indexed
    slice. *)
Lemma PositionalEncoding_init_width_one_succeeds :
  Nat.odd 1 = true /\ exists pe, PositionalEncoding.init 1 1000 = Ok pe.
Proof.
  split; [reflexivity | apply PositionalEncoding_init_one].
Qed.

(** ** Rules for running monadic code *)

Lemma post_ret {A} (a : A) (Q : result A -> State -> Prop) st :
  Q (Ok a) st -> post (ret a) Q st.
Proof. exact (fun H => H). Qed.

Lemma post_lift {A} (r : result A) (Q : result A -> State -> Prop) st :
  Q r st -> post (lift r) Q st.
Proof. exact (fun H => H). Qed.

Lemma post_bind {A B} (c : M A) (k : A -> M B) (Q : result B -> State -> Prop) st :
  post c (fun r s => match r with
                     | Ok a => post (k a) Q s
                     | Raise e => Q (Raise e) s
                     end) st ->
  post (bind c k) Q st.
Proof.
  unfold post, bind. destruct (c st) as [[a|e] s]; cbn; auto.
Qed.

Lemma post_weaken {A} (c : M A) (Q Q' : result A -> State -> Prop) st :
  post c Q st -> (forall r s, Q r s -> Q' r s) -> post c Q' st.
Proof. unfold post; auto. Qed.

(** A pure step: continue with its value, or stop with its exception. *)
Lemma post_bind_lift {A B} (r : result A) (k : A -> M B)
      (Q : result B -> State -> Prop) st :
  match r with
  | Ok a => post (k a) Q st
  | Raise e => Q (Raise e) st
  end ->
  post (bind (lift r) k) Q st.
Proof. intros H. apply post_bind, post_lift. exact H. Qed.

Lemma trunc_0 : trunc 0 = 0%Z.
Proof.
  unfold trunc. destruct (Rle_dec 0 0) as [_|n]; [|exfalso; apply n; lra].
  exact (Int_part_INR 0).
Qed.

Lemma trunc_1 : trunc 1 = 1%Z.
Proof.
  unfold trunc. destruct (Rle_dec 0 1) as [_|n]; [|exfalso; apply n; lra].
  exact (Int_part_INR 1).
Qed.

(** ** The mask *)

Lemma get_attn_subsequent_mask_spec {A} (seq : Tensor A) (B T : nat) (rest : list nat) :
  shape seq = B :: T :: rest ->
  exists m, get_attn_subsequent_mask seq = Ok m
    /\ shape m = [B; T; T]
    /\ forall b i j, get m [b; i; j] = if i <? j then 1%Z else 0%Z.
Proof.
  intros Hs. unfold get_attn_subsequent_mask, size. rewrite Hs. cbn [nth_error rbind].
  eexists. split; [reflexivity|]. split; [reflexivity|].
  intros b i j. cbn [int tmap get np_triu np_ones ones length Nat.sub nth shape].
  destruct (Z.leb_spec (Z.of_nat i + 1) (Z.of_nat j));
    destruct (Nat.ltb_spec i j); try lia.
  - apply trunc_1.
  - apply trunc_0.
Qed.

Lemma norm_dim_nat (r extra k : nat) :
  k < r + extra -> norm_dim r extra (Z.of_nat k) = Ok k.
Proof.
  intros H. unfold norm_dim.
  destruct (Z.ltb_spec (Z.of_nat k) (- Z.of_nat (r + extra))); [lia|].
  destruct (Z.leb_spec (Z.of_nat (r + extra)) (Z.of_nat k)); [lia|].
  destruct (Z.ltb_spec (Z.of_nat k) 0); [lia|].
  cbn [orb]. rewrite Nat2Z.id. reflexivity.
Qed.

Lemma per_head_causal (n_heads B T : nat) (m : Tensor Z) :
  shape m = [B; T; T] ->
  (forall b i j, get m [b; i; j] = if i <? j then 1%Z else 0%Z) ->
  exists m', per_head n_heads (Some m) = Ok (Some m') /\ causal B T m'.
Proof.
  intros Hs Hv. unfold per_head, unsqueeze, repeat_. rewrite Hs.
  change 1%Z with (Z.of_nat 1). rewrite norm_dim_nat by (cbn; lia).
  cbn [rbind shape insert_at firstn skipn app length].
  cbn [Nat.ltb Nat.leb Nat.sub List.repeat app zip_with].
  eexists. split; [reflexivity|]. exists n_heads. split.
  - cbn [shape]. rewrite !Nat.mul_1_r, Nat.mul_1_l. reflexivity.
  - intros b k i j Hb Hk Hi Hj.
    cbn [get zip_with skipn remove_at firstn app].
    rewrite Hv, !Nat.mod_small by assumption. reflexivity.
Qed.

Lemma post_call {E : Externals} (m : AttnModule) (Qt K V : Tensor R)
      (mask : option (Tensor Z)) (Q : result (Tensor R * Tensor R) -> State -> Prop) st :
  (forall r g, attention_call m Qt K V mask (rngs st) = (r, g) ->
     Q r (mkState g (heap st) (attn_calls st ++ [(m, mask)]))) ->
  post (call_attention m Qt K V mask) Q st.
Proof.
  intros H. unfold post, call_attention.
  destruct (attention_call m Qt K V mask (rngs st)) as [r g] eqn:Ec.
  cbn. apply H. reflexivity.
Qed.

Ltac post_step :=
  lazymatch goal with
  | |- post (bind (lift ?r) _) _ _ => apply post_bind_lift; destruct r eqn:?
  | |- post (ret _) _ _ => apply post_ret
  | |- post (lift _) _ _ => apply post_lift
  | |- post (match ?p with (_, _) => _ end) _ _ => destruct p
  end.

Lemma MultiHeadAttention_forward_calls {E : Externals}
      (self : MultiHeadAttention.t) (Q K V : Tensor R)
      (attn_mask : option (Tensor Z)) (st : State) :
  post (MultiHeadAttention.forward self Q K V attn_mask)
       (one_strategy_run self attn_mask st) st.
Proof.
  assert (Stop : forall e, one_strategy_run self attn_mask st
                             (@Raise (Tensor R * Tensor R) e) st).
  { intros e. split; [reflexivity|]. left. eauto. }
  unfold MultiHeadAttention.forward.
  do 4 (post_step; [|apply Stop]).
  apply post_bind.
  apply (@post_weaken _ _
           (fun r s => s = st /\ r = match per_head (MultiHeadAttention.n_heads self)
                                            attn_mask with
                                     | Ok o => Ok o | Raise e => Raise e end)).
  { destruct attn_mask as [m|]; [|split; reflexivity].
    unfold per_head. post_step; [|split; reflexivity].
    cbn [rbind]. post_step; [|split; reflexivity].
    cbn [rbind]. post_step. split; reflexivity. }
  intros r s [-> ->].
  destruct (per_head (MultiHeadAttention.n_heads self) attn_mask) as [mask'|e] eqn:Em;
    [|apply Stop].
  assert (Ran : forall m g (r : result (Tensor R * Tensor R)),
             strategy_of m = selected_strategy (MultiHeadAttention.attn_type self) ->
             one_strategy_run self attn_mask st r
               (mkState g (heap st) (attn_calls st ++ [(m, mask')]))).
  { intros m g r Hm. split; [reflexivity|]. right. exists m, mask'. auto. }
  assert (Rest : forall m g (p : Tensor R * Tensor R),
             strategy_of m = selected_strategy (MultiHeadAttention.attn_type self) ->
             post (let '(context, attn) := p in
                   (c <- lift (transpose 1 2 context) ;;
                    context0 <- lift (view (contiguous c)
                       [Z.of_nat a; (-1)%Z;
                        Z.of_nat (MultiHeadAttention.n_heads self
                                  * MultiHeadAttention.d_v self)]) ;;
                    output <- lift (Linear.forward (MultiHeadAttention.fc self) context0) ;;
                    ret (output, attn))%M)
                  (one_strategy_run self attn_mask st)
                  (mkState g (heap st) (attn_calls st ++ [(m, mask')]))).
  { intros m g [context attn] Hm.
    do 3 (post_step; [|apply Ran; assumption]).
    post_step. apply Ran; assumption. }
  apply post_bind. unfold selected_strategy in Ran, Rest.
  destruct (String.eqb (MultiHeadAttention.attn_type self) "ACAT").
  { post_step; [|apply Stop].
    apply post_call; intros [p|e] g Hc; [apply Rest | apply Ran]; reflexivity. }
  destruct (contains "KittyCat" (MultiHeadAttention.attn_type self)).
  { post_step; [|apply Stop].
    apply post_call; intros [p|e] g Hc; [apply Rest | apply Ran]; reflexivity. }
  destruct (String.eqb (MultiHeadAttention.attn_type self) "basic_attn").
  { apply post_call; intros [p|e] g Hc; [apply Rest | apply Ran]; reflexivity. }
  destruct (String.eqb (MultiHeadAttention.attn_type self) "LogTrans").
  { apply post_call; intros [p|e] g Hc; [apply Rest | apply Ran]; reflexivity. }
  destruct (String.eqb (MultiHeadAttention.attn_type self) "informer").
  { apply post_call; intros [p|e] g Hc; [apply Rest | apply Ran]; reflexivity. }
  do 3 (post_step; [|apply Stop]).
  apply post_call; intros [p|e] g Hc; [apply Rest | apply Ran]; reflexivity.
Qed.

(** ** The decoder *)

Section DecoderCalls.

Context {E : Externals}.
Variables (B T : nat) (mask : Tensor Z).
Hypothesis mask_shape : shape mask = [B; T; T].
Hypothesis mask_triu : forall b i j, get mask [b; i; j] = if i <? j then 1%Z else 0%Z.

Lemma DecoderLayer_forward_calls (self : DecoderLayer.t)
      (dec_inputs enc_outputs : Tensor R) (st : State) :
  post (DecoderLayer.forward self dec_inputs enc_outputs (Some mask) None)
       (stack_calls B T 1 st) st.
Proof.
  unfold DecoderLayer.forward. apply post_bind.
  eapply post_weaken; [apply MultiHeadAttention_forward_calls|].
  intros r s [Hh [[Hc [e ->]] | (m & mask' & Hc & _ & Hm)]].
  { split; [assumption|]. exists []. rewrite app_nil_r.
    repeat split; [assumption | constructor | discriminate]. }
  destruct (per_head_causal
              (MultiHeadAttention.n_heads (DecoderLayer.dec_self_attn self))
              B T mask mask_shape mask_triu) as (m' & Hm' & Hcausal).
  rewrite Hm' in Hm. injection Hm as <-.
  assert (Hmasked : masked B T (m, Some m')) by (exists m'; split; [reflexivity|assumption]).
  assert (One : forall e, stack_calls B T 1 st (@Raise (Tensor R * Tensor R * Tensor R) e) s).
  { intros e. split; [assumption|]. exists [(m, Some m')].
    repeat split; [assumption | constructor; assumption | discriminate]. }
  destruct r as [[out dec_self_attn]|e]; [|apply One].
  do 2 (post_step; [|apply One]).
  apply post_bind.
  eapply post_weaken; [apply MultiHeadAttention_forward_calls|].
  intros r s2 [Hh2 [[Hc2 [e ->]] | (c & mask2 & Hc2 & _ & Hm2)]].
  { split; [congruence|]. exists [(m, Some m')].
    repeat split; [congruence | constructor; assumption | discriminate]. }
  cbn [per_head] in Hm2. injection Hm2 as <-.
  assert (Two : forall r : result (Tensor R * Tensor R * Tensor R), stack_calls B T 1 st r s2).
  { intros r'. split; [congruence|]. exists [(m, Some m'); (c, None)].
    repeat split.
    - rewrite Hc2, Hc, <- app_assoc. reflexivity.
    - constructor; [assumption | reflexivity | constructor]. }
  destruct r as [[out2 dec_enc_attn]|e]; [|apply Two].
  do 5 (post_step; [|apply Two]).
  post_step. apply Two.
Qed.

Lemma decoder_calls_app (n : nat) (first rest : list AttnCall) :
  decoder_calls B T 1 first -> length first = 2 -> decoder_calls B T n rest ->
  decoder_calls B T (S n) (first ++ rest).
Proof.
  intros Hf Hl Hr. inversion Hf as [|? a Ha|? a c tl Ha Hc Htl]; subst;
    try discriminate.
  inversion Htl; subst. cbn. constructor; assumption.
Qed.

Lemma decoder_calls_weaken (n : nat) (new : list AttnCall) :
  decoder_calls B T 1 new -> decoder_calls B T (S n) new.
Proof.
  intros H. inversion H as [|? a Ha|? a c tl Ha Hc Htl]; subst.
  - constructor.
  - constructor; assumption.
  - inversion Htl; subst. constructor; [assumption..|constructor].
Qed.

Lemma Decoder_run_calls (layers : list DecoderLayer.t) :
  forall (dec_outputs enc_outputs : Tensor R) (dec_self_attns dec_enc_attns : list (Tensor R))
         (st : State),
    post (Decoder.run layers dec_outputs enc_outputs mask dec_self_attns dec_enc_attns)
         (stack_calls B T (length layers) st) st.
Proof.
  induction layers as [|layer rest IH]; intros; cbn [Decoder.run length].
  - apply post_ret. split; [reflexivity|]. exists []. rewrite app_nil_r.
    repeat split; constructor.
  - apply post_bind.
    eapply post_weaken; [apply DecoderLayer_forward_calls|].
    intros r s (Hh & new & Hc & Hd & Hl).
    destruct r as [[[out a1] a2]|e].
    + eapply post_weaken; [apply IH|].
      intros r' s' (Hh' & new' & Hc' & Hd' & Hl').
      split; [congruence|]. exists (new ++ new'). repeat split.
      * rewrite Hc', Hc, <- app_assoc. reflexivity.
      * apply decoder_calls_app; eauto.
      * intros a Ha. rewrite length_app, (Hl _ eq_refl), (Hl' _ Ha). lia.
    + split; [assumption|]. exists new. repeat split;
        [assumption | apply decoder_calls_weaken; assumption | discriminate].
Qed.

End DecoderCalls.

(** C3. For a decoder input of shape (B, T, ...), the mask computed from it
    has shape (B, T, T) and entry (i, j) is one exactly when [j > i]; during
    the forward call every layer's self-attention strategy receives this
    mask (one copy per head) and every cross-attention strategy receives
    none. *)
Theorem Decoder_forward_causal_mask {E : Externals}
        (self : Decoder.t) (dec_inputs enc_outputs : Tensor R)
        (B T : nat) (rest : list nat) (st : State) :
  shape dec_inputs = B :: T :: rest ->
  (exists m, get_attn_subsequent_mask dec_inputs = Ok m
     /\ shape m = [B; T; T]
     /\ forall b i j, get m [b; i; j] = if i <? j then 1%Z else 0%Z)
  /\ post (Decoder.forward self dec_inputs enc_outputs)
          (stack_calls B T (length (Decoder.layers self)) st) st.
Proof.
  intros Hs.
  destruct (get_attn_subsequent_mask_spec dec_inputs _ _ _ Hs) as (m & Hm & Hms & Hmv).
  split; [eauto|].
  assert (Stop : forall e, stack_calls B T (length (Decoder.layers self)) st
                   (@Raise (Tensor R * list (Tensor R) * list (Tensor R)) e) st).
  { intros e. split; [reflexivity|]. exists []. rewrite app_nil_r.
    repeat split; [constructor | discriminate]. }
  unfold Decoder.forward.
  post_step; [|apply Stop].
  rewrite Hm. apply post_bind_lift.
  apply Decoder_run_calls; assumption.
Qed.

Lemma Decoder_forward_causal_mask_witness :
  (exists m, get_attn_subsequent_mask (zeros [2; 3; 2]) = Ok m
     /\ shape m = [2; 3; 3]
     /\ forall b i j, get m [b; i; j] = if i <? j then 1%Z else 0%Z)
  /\ post (@Decoder.forward sample_externals sample_decoder
             (zeros [2; 3; 2]) (zeros [2; 4; 2]))
          (stack_calls 2 3 (length (Decoder.layers sample_decoder)) initial_state)
          initial_state.
Proof.
  apply (@Decoder_forward_causal_mask sample_externals sample_decoder
           (zeros [2; 3; 2]) (zeros [2; 4; 2]) 2 3 [2] initial_state).
  reflexivity.
Defined.

(** ** The attention layer *)

(** C2 (as amended). Every tag is accepted by the constructor, which
    stores it unchecked.  A forward call runs no strategy when it raises
    before the dispatch and exactly one otherwise: the one selected by the
    chain of tests on the tag, whose last branch takes every remaining tag to
    the auto-correlation strategy. *)
Theorem MultiHeadAttention_dispatch {E : Externals}
        (d_model d_k d_v n_heads : nat) (attn_type : string) (seed : Z) :
  (forall st, exists self st',
      MultiHeadAttention.init d_model d_k d_v n_heads attn_type seed st = (Ok self, st')
      /\ MultiHeadAttention.attn_type self = attn_type)
  /\ (forall self Q K V attn_mask st,
        post (MultiHeadAttention.forward self Q K V attn_mask)
             (one_strategy_run self attn_mask st) st)
  /\ (selected_strategy attn_type = SAutoCorrelation
      \/ String.eqb attn_type "ACAT" || contains "KittyCat" attn_type
         || String.eqb attn_type "basic_attn" || String.eqb attn_type "LogTrans"
         || String.eqb attn_type "informer" = true).
Proof.
  split; [|split].
  - intros st. eexists. eexists. split; reflexivity.
  - intros. apply MultiHeadAttention_forward_calls.
  - unfold selected_strategy.
    destruct (String.eqb attn_type "ACAT"); [right; reflexivity|].
    destruct (contains "KittyCat" attn_type); [right; reflexivity|].
    destruct (String.eqb attn_type "basic_attn"); [right; reflexivity|].
    destruct (String.eqb attn_type "LogTrans"); [right; reflexivity|].
    destruct (String.eqb attn_type "informer"); [right; reflexivity|].
    left; reflexivity.
Qed.

Example contains_examples :
  contains "KittyCat" "KittyCatConv" = true
  /\ contains "KittyCat" "my_KittyCat" = true
  /\ contains "KittyCat" "Kitty" = false
  /\ selected_strategy "my_KittyCat" = SKittyCatConv
  /\ selected_strategy "informer" = SProbAttention
  /\ selected_strategy "autoformer" = SAutoCorrelation.
Proof. repeat split. Qed.

(** C2, counterexample. The tag "nonsense" names no strategy, yet the
    constructor returns a layer that carries it, and a forward call of a
    layer with this tag returns after running the auto-correlation
    strategy. *)
Lemma MultiHeadAttention_accepts_unknown_tag :
  (exists self st',
      MultiHeadAttention.init 4 2 2 2 "nonsense" 0 initial_state = (Ok self, st')
      /\ MultiHeadAttention.attn_type self = "nonsense"%string)
  /\ selected_strategy "nonsense" = SAutoCorrelation
  /\ (let out := @MultiHeadAttention.forward sample_externals
                    (sample_attention "nonsense")
                    (zeros [2; 3; 2]) (zeros [2; 3; 2]) (zeros [2; 3; 2]) None
                    initial_state in
      (exists r, fst out = Ok r)
      /\ map (fun c => strategy_of (fst c)) (attn_calls (snd out)) = [SAutoCorrelation]).
Proof.
  split; [|split; [reflexivity|]].
  - eexists. eexists. split; reflexivity.
  - cbv zeta. split.
    + destruct (fst _) as [r|e] eqn:Hr.
      * exists r. reflexivity.
      * exfalso.
        assert (Hok : match fst (@MultiHeadAttention.forward sample_externals
                                   (sample_attention "nonsense")
                                   (zeros [2; 3; 2]) (zeros [2; 3; 2]) (zeros [2; 3; 2])
                                   None initial_state) with
                      | Ok _ => true
                      | Raise _ => false
                      end = true) by (vm_compute; reflexivity).
        rewrite Hr in Hok. discriminate.
    + vm_compute. reflexivity.
Qed.

(** A run of the sample decoder returns and leaves two strategy runs: the
    self-attention of its single layer, then the cross-attention. *)
Example sample_decoder_runs :
  let out := @Decoder.forward sample_externals sample_decoder
               (zeros [2; 3; 2]) (zeros [2; 4; 2]) initial_state in
  match fst out with Ok _ => true | Raise _ => false end = true
  /\ map (fun c => (strategy_of (fst c),
                    match snd c with Some m => Some (shape m) | None => None end))
         (attn_calls (snd out))
     = [(SBasicAttn, Some [2; 2; 3; 3]); (SBasicAttn, None)].
Proof. cbv zeta. split; vm_compute; reflexivity. Qed.

(** ** Shapes through the layers *)

Lemma broadcast_rev_same (s : list nat) : broadcast_rev s s = Ok s.
Proof.
  induction s as [|x s IH]; [reflexivity|].
  cbn [broadcast_rev]. rewrite IH, Nat.eqb_refl. reflexivity.
Qed.

Lemma broadcast_shapes_same (s : list nat) : broadcast_shapes s s = Ok s.
Proof.
  unfold broadcast_shapes. rewrite broadcast_rev_same, rev_involutive. reflexivity.
Qed.

Lemma map2_same (f : R -> R -> R) (a b : Tensor R) :
  shape b = shape a ->
  map2 f a b = Ok (mkTensor (shape a) (fun idx =>
                     f (get a (bcast_index (shape a) idx))
                       (get b (bcast_index (shape a) idx)))).
Proof.
  intros H. unfold map2. rewrite H, broadcast_shapes_same. reflexivity.
Qed.

Lemma map2_shape (f : R -> R -> R) (a b : Tensor R) (S : list nat) :
  shape a = S -> shape b = S ->
  exists c, map2 f a b = Ok c /\ shape c = S
    /\ forall idx, get c idx
                   = f (get a (bcast_index S idx)) (get b (bcast_index S idx)).
Proof.
  intros Ha Hb. rewrite map2_same by congruence. rewrite Ha.
  eexists. split; [reflexivity|]. split; reflexivity.
Qed.

Lemma bcast_index3 (b s d i t j : nat) :
  i < b -> t < s -> j < d -> bcast_index [b; s; d] [i; t; j] = [i; t; j].
Proof.
  intros Hi Ht Hj. cbn [bcast_index length Nat.sub skipn combine map].
  rewrite (bcast_dim _ _ Hi), (bcast_dim _ _ Ht), (bcast_dim _ _ Hj). reflexivity.
Qed.

Lemma permute_021 {A} (t : Tensor A) (a b c : nat) :
  shape t = [a; b; c] ->
  permute [0; 2; 1] t
  = Ok (mkTensor [a; c; b]
          (fun idx => get t [nth 0 idx 0; nth 2 idx 0; nth 1 idx 0])).
Proof. intros H. unfold permute. rewrite H. reflexivity. Qed.

Lemma softmax_last3 (t : Tensor R) (a b c : nat) :
  shape t = [a; b; c] ->
  softmax (-1) t
  = Ok (mkTensor [a; b; c]
          (fun idx => Rdiv (exp (get t idx))
                           (big_sum c (fun j => exp (get t (replace_at 2 j idx)))))).
Proof. intros H. unfold softmax. rewrite H. reflexivity. Qed.

Lemma Linear_forward_shape (l : Linear.t) (x : Tensor R) (pre : list nat) :
  shape x = pre ++ [Linear.in_features l] ->
  exists y, Linear.forward l x = Ok y
    /\ shape y = pre ++ [Linear.out_features l]
    /\ forall idx, get y idx =
         let o := last idx 0 in
         let dot := big_sum (Linear.in_features l)
                      (fun j => Rmult (get x (removelast idx ++ [j]))
                                      (get (Linear.weight l) [o; j])) in
         match Linear.bias l with
         | Some b => Rplus dot (get b [o])
         | None => dot
         end.
Proof.
  intros H. unfold Linear.forward. rewrite H.
  destruct (pre ++ [Linear.in_features l]) eqn:E0.
  { destruct pre; discriminate. }
  rewrite <- E0. rewrite last_last, Nat.eqb_refl, removelast_last.
  eexists. split; [reflexivity|]. split; reflexivity.
Qed.

Lemma LayerNorm_forward_shape (m : LayerNorm.t) (x : Tensor R) (pre : list nat) :
  shape x = pre ++ [LayerNorm.normalized_shape m] ->
  exists y, LayerNorm.forward m x = Ok y /\ shape y = shape x.
Proof.
  intros H. unfold LayerNorm.forward. rewrite H.
  destruct (pre ++ [LayerNorm.normalized_shape m]) eqn:E0.
  { destruct pre; discriminate. }
  rewrite <- E0. rewrite last_last, Nat.eqb_refl.
  eexists. split; reflexivity.
Qed.

Lemma Conv1d_forward_shape (c : Conv1d.t) (x : Tensor R) (b d s : nat) :
  conv_wf d c -> shape x = [b; d; s] -> 1 <= s ->
  exists y, Conv1d.forward c x = Ok y /\ shape y = [b; d; s].
Proof.
  intros (Hi & Ho & Hk & Hp) Hx Hs. unfold Conv1d.forward.
  rewrite Hx, Hi, Ho, Hk, Hp, Nat.eqb_refl.
  destruct (Nat.ltb_spec (s + 2 * 1) 3); [lia|]. cbn [negb orb].
  eexists. split; [reflexivity|]. cbn [shape]. repeat f_equal. lia.
Qed.

Lemma BatchNorm1d_forward_shape (m : BatchNorm1d.t) (x : Tensor R) (b d s : nat) :
  BatchNorm1d.num_features m = d -> shape x = [b; d; s] -> 2 <= b * s ->
  exists y, BatchNorm1d.forward m x = Ok y /\ shape y = [b; d; s].
Proof.
  intros Hn Hx Hs. unfold BatchNorm1d.forward.
  rewrite Hx, Hn, Nat.eqb_refl. cbn [negb].
  destruct (Nat.eqb_spec (b * s) 1); [lia|]. rewrite andb_false_r.
  eexists. split; reflexivity.
Qed.

(** The stack ends with a softmax over the last axis of the channel-first
    layout, which is the time axis. *)
Lemma stack_forward (m : Sequential) (x : Tensor R) (b d s : nat) :
  stack_wf d m -> shape x = [b; d; s] -> 1 <= s -> 2 <= b * s ->
  exists u, shape u = [b; d; s] /\ Sequential_forward m x = softmax (-1) u.
Proof.
  intros (c1 & c2 & bn & -> & H1 & H2 & H3) Hx Hs Hb.
  cbn [Sequential_forward Layer_forward].
  destruct (Conv1d_forward_shape c1 x b d s H1 Hx Hs) as (y1 & -> & Hy1). cbn [rbind].
  destruct (Conv1d_forward_shape c2 y1 b d s H2 Hy1 Hs) as (y2 & -> & Hy2). cbn [rbind].
  destruct (BatchNorm1d_forward_shape bn y2 b d s H3 Hy2 Hb) as (y3 & -> & Hy3). cbn [rbind].
  exists y3. split; [assumption|].
  destruct (softmax (-1) y3); reflexivity.
Qed.

Lemma channel_first_stack (m : Sequential) (x : Tensor R) (b s d : nat) :
  stack_wf d m -> shape x = [b; s; d] -> 1 <= s -> 2 <= b * s ->
  exists u, shape u = [b; d; s]
    /\ process_model.channel_first m x = Ok (over_time u b s d).
Proof.
  intros Hm Hx Hs Hb. unfold process_model.channel_first.
  rewrite (permute_021 x _ _ _ Hx). cbn [rbind].
  match goal with
  | |- context [Sequential_forward m ?p] =>
      destruct (stack_forward m p b d s Hm eq_refl Hs Hb) as (u & Hu & ->)
  end.
  rewrite (softmax_last3 u _ _ _ Hu). cbn [rbind].
  exists u. split; [assumption|].
  reflexivity.
Qed.

Lemma slice_start_from_neg (n k : nat) :
  slice_start n (from (- Z.of_nat k)) = if k =? 0 then 0 else n - k.
Proof.
  unfold slice_start, from, norm_bound. cbn [sl_start].
  destruct (Nat.eqb_spec k 0) as [->|Hk].
  - reflexivity.
  - destruct (Z.ltb_spec (- Z.of_nat k) 0); lia.
Qed.

Lemma slice_len_from_neg (n k : nat) :
  slice_len n (from (- Z.of_nat k)) = if k =? 0 then n else Nat.min k n.
Proof.
  unfold slice_len. rewrite slice_start_from_neg.
  unfold slice_stop, from. cbn [sl_stop sl_step].
  rewrite Nat.add_sub, Nat.div_1_r.
  destruct (Nat.eqb_spec k 0); lia.
Qed.

Lemma getitem3 {A} (t : Tensor A) (a b c : nat) (s0 s1 s2 : Slice) :
  shape t = [a; b; c] ->
  getitem t [s0; s1; s2]
  = Ok (mkTensor [slice_len a s0; slice_len b s1; slice_len c s2]
          (fun idx => get t (sliced_index [a; b; c] [s0; s1; s2] idx))).
Proof. intros H. unfold getitem. rewrite H. reflexivity. Qed.

(** ** Running the process model *)

Lemma bind_lift_ok {A B} (r : result A) (a : A) (k : A -> M B) (st : State) :
  r = Ok a -> bind (lift r) k st = k a st.
Proof. intros ->. reflexivity. Qed.

Lemma bind_lift_raise {A B} (r : result A) (e : exn) (k : A -> M B) (st : State) :
  r = Raise e -> bind (lift r) k st = (Raise e, st).
Proof. intros ->. reflexivity. Qed.

Lemma bind_load {B} (x : loc) (t : Tensor R) (k : Tensor R -> M B) (st : State) :
  nth_error (heap st) x = Some t -> bind (load x) k st = k t st.
Proof. intros H. unfold bind, load. rewrite H. reflexivity. Qed.

Lemma nth_error_update {A} (l : list A) (k : nat) (a b : A) :
  nth_error l k = Some a -> nth_error (update l k b) k = Some b.
Proof.
  revert k. induction l as [|c l IH]; intros [|k] H; try discriminate; cbn in *; auto.
Qed.

(** The in-place addition, when the sum keeps the shape of [x]. *)
Lemma bind_add_ {B} (x : loc) (xv other r : Tensor R) (k : loc -> M B) (st : State) :
  nth_error (heap st) x = Some xv ->
  tadd xv other = Ok r -> shape r = shape xv ->
  bind (add_ x other) k st
  = k x (mkState (rngs st) (update (heap st) x r) (attn_calls st)).
Proof.
  intros Hx Hr Hs. unfold add_.
  unfold bind at 1. rewrite (bind_load _ _ _ _ Hx).
  rewrite (bind_lift_ok _ _ _ _ Hr).
  destruct (list_eq_dec Nat.eq_dec (shape r) (shape xv)); [|contradiction].
  reflexivity.
Qed.

Lemma bind_randn_like {B} (t : Tensor R) (k : Tensor R -> M B) (st : State) :
  bind (randn_like t) k st
  = k (draw (torch_rng (rngs st)) (shape t))
      (set_torch_rng (advance (numel (shape t)) (torch_rng (rngs st))) st).
Proof. reflexivity. Qed.

Lemma musig_halves (ms : Tensor R) (b s d : nat) :
  shape ms = [b; s; 2 * d] ->
  exists mu sigma,
    getitem ms [full_slice; full_slice; upto (Z.of_nat d)] = Ok mu
    /\ getitem ms [full_slice; full_slice; from (- Z.of_nat d)] = Ok sigma
    /\ shape mu = [b; s; d] /\ shape sigma = [b; s; d]
    /\ (forall i t j, get mu [i; t; j] = get ms [i; t; j])
    /\ (forall i t j, get sigma [i; t; j] = get ms [i; t; d + j]).
Proof.
  intros H. rewrite !(getitem3 ms _ _ _ _ _ _ H).
  eexists. eexists. split; [reflexivity|]. split; [reflexivity|].
  cbn [shape get]. rewrite !slice_len_full, slice_len_upto, slice_len_from_neg.
  repeat split.
  - repeat f_equal. lia.
  - repeat f_equal. destruct (Nat.eqb_spec d 0); lia.
  - intros i t j. cbn [sliced_index]. unfold slice_pos, slice_start, full_slice, upto.
    cbn [sl_start sl_step]. rewrite !Nat.mul_1_r. reflexivity.
  - intros i t j. cbn [sliced_index]. unfold slice_pos.
    rewrite slice_start_from_neg. unfold slice_start, full_slice, from.
    cbn [sl_start sl_step]. rewrite !Nat.mul_1_r.
    destruct (Nat.eqb_spec d 0) as [->|Hd]; cbn [Nat.add]; [reflexivity|].
    repeat f_equal. lia.
Qed.

Lemma process_model_forward_run {E : Externals}
      (self : process_model.t) (x : loc) (target : option (Tensor R)) (st : State)
      (xv : Tensor R) (b s : nat) (ts : option (nat * Tensor R * Tensor R))
      (nz : Tensor R) :
  let d := process_model.d self in
  let g := torch_rng (rngs st) in
  pm_wf self ->
  nth_error (heap st) x = Some xv -> shape xv = [b; s; d] ->
  1 <= s -> 2 <= b * s ->
  process_model.target_stats self target = Ok ts ->
  process_model.noise_term self xv (draw g (shape xv)) = Ok nz ->
  shape nz = [b; s; d] ->
  exists xn h ms mu sigma z y out st',
    data_flow self xv nz (draw (advance (numel (shape xv)) g) [b; s; d])
              xn h ms mu sigma z y out
    /\ shape xn = [b; s; d] /\ shape mu = [b; s; d] /\ shape sigma = [b; s; d]
    /\ shape z = [b; s; d] /\ shape y = [b; s; d] /\ shape out = [b; s; d]
    /\ nth_error (heap st') x = Some xn
    /\ process_model.forward self x target st
       = (match loss_of ts mu sigma with
          | Ok kl => Ok (out, kl)
          | Raise e => Raise e
          end, st').
Proof.
  intros d g (Henc & Hdec & Hmi & Hmo & Hln & _) Hx Hxs Hs Hb Hts Hnz Hnzs.
  unfold process_model.forward.
  rewrite (bind_load _ _ _ _ Hx), bind_randn_like.
  rewrite (bind_lift_ok _ _ _ _ Hts). fold g.
  rewrite (bind_lift_ok _ _ _ _ Hnz).
  destruct (map2_shape Rplus xv nz [b; s; d] Hxs Hnzs) as (xn & Hadd & Hxn & _).
  set (st1 := set_torch_rng _ st).
  assert (Hx1 : nth_error (heap st1) x = Some xv) by exact Hx.
  rewrite (bind_add_ x xv nz xn _ st1 Hx1 Hadd) by congruence.
  set (st2 := mkState _ _ _).
  assert (Hx2 : nth_error (heap st2) x = Some xn)
    by (apply (nth_error_update _ _ xv); exact Hx).
  rewrite (bind_load _ _ _ _ Hx2).
  destruct (channel_first_stack _ xn b s d Henc Hxn Hs Hb) as (u & Hu & Hh).
  rewrite (bind_lift_ok _ _ _ _ Hh).
  destruct (Linear_forward_shape (process_model.musig self) (over_time u b s d) [b; s])
    as (ms & Hms & Hmss & _).
  { cbn [over_time shape app]. rewrite Hmi. reflexivity. }
  rewrite (bind_lift_ok _ _ _ _ Hms).
  rewrite Hmo in Hmss. cbn [app] in Hmss.
  destruct (musig_halves ms b s d Hmss) as (mu & sigma & Hmu & Hsg & Hmus & Hsgs & _).
  rewrite (bind_lift_ok _ _ _ _ Hmu), (bind_lift_ok _ _ _ _ Hsg).
  rewrite bind_randn_like. rewrite Hsgs.
  set (r := draw _ [b; s; d]).
  destruct (map2_shape Rmult (texp (smul sigma (1 / 2))) r [b; s; d] Hsgs eq_refl)
    as (sr & Hsr & Hsrs & _).
  rewrite (bind_lift_ok _ _ _ _ Hsr).
  destruct (map2_shape Rplus mu sr [b; s; d] Hmus Hsrs) as (z & Hz & Hzs & _).
  rewrite (bind_lift_ok _ _ _ _ Hz).
  destruct (channel_first_stack _ z b s d Hdec Hzs Hs Hb) as (u' & Hu' & Hy).
  rewrite (bind_lift_ok _ _ _ _ Hy).
  set (st3 := set_torch_rng _ st2).
  assert (Hx3 : nth_error (heap st3) x = Some xn) by exact Hx2.
  rewrite (bind_load _ _ _ _ Hx3).
  destruct (map2_shape Rplus (over_time u' b s d) xn [b; s; d] eq_refl Hxn)
    as (yx & Hyx & Hyxs & _).
  rewrite (bind_lift_ok _ _ _ _ Hyx).
  destruct (LayerNorm_forward_shape (process_model.norm self) yx [b; s])
    as (out & Hout & Houts).
  { rewrite Hln. exact Hyxs. }
  rewrite (bind_lift_ok _ _ _ _ Hout).
  exists xn, (over_time u b s d), ms, mu, sigma, z, (over_time u' b s d), out, st3.
  split.
  { unfold data_flow. repeat split; try assumption.
    - exists sr. split; assumption.
    - exists yx. split; assumption. }
  repeat split; try assumption; try congruence.
  unfold loss_of. destruct ts as [[[s_len mean_t] co_var_t]|].
  - unfold bind at 1, lift.
    destruct (process_model.kl_of s_len mean_t co_var_t mu sigma); reflexivity.
  - reflexivity.
Qed.

Lemma process_model_init_wf {E : Externals} (gp : bool) (d : nat) (st st' : State)
      (self : process_model.t) :
  process_model.init gp d st = (Ok self, st') -> pm_wf self.
Proof.
  unfold process_model.init, process_model.conv_stack, Conv1d.init, Linear.init.
  intros H. destruct gp; cbn in H; injection H as <- _;
    (repeat split; cbn;
     try (eexists; eexists; eexists; split; [reflexivity|]; repeat split);
     try discriminate;
     try (eexists; split; [reflexivity|]; split; reflexivity)).
Qed.

Lemma sample_process_model_wf (gp : bool) : pm_wf (sample_process_model gp).
Proof.
  destruct gp;
    (repeat split; cbn;
     try (eexists; eexists; eexists; split; [reflexivity|]; repeat split);
     try discriminate;
     try (eexists; split; [reflexivity|]; split; reflexivity)).
Qed.

Lemma unsqueeze_last_shape (t : Tensor R) (S : list nat) :
  shape t = S ->
  exists u, unsqueeze (-1) t = Ok u /\ shape u = S ++ [1].
Proof.
  intros <-. unfold unsqueeze, norm_dim.
  set (n := length (shape t)).
  destruct (Z.ltb_spec (-1) (- Z.of_nat (n + 1))); [lia|].
  destruct (Z.leb_spec (Z.of_nat (n + 1)) (-1)); [lia|].
  cbn [orb rbind]. eexists. split; [reflexivity|].
  cbn [shape]. unfold insert_at.
  replace (Z.to_nat (if (-1 <? 0)%Z then (-1 + Z.of_nat (n + 1))%Z else (-1)%Z))
    with n by (destruct (Z.ltb_spec (-1) 0); lia).
  unfold n. rewrite firstn_all, skipn_all. reflexivity.
Qed.

(** In the mode with a Gaussian process the added term has the shape of
    the input whenever the process yields one mean and one variance per
    time step. *)
Lemma noise_term_shape {E : Externals} (self : process_model.t)
      (xv eps : Tensor R) (b s : nat) :
  let d := process_model.d self in
  pm_wf self -> shape xv = [b; s; d] -> shape eps = [b; s; d] ->
  (process_model.gp self = true ->
   exists mean co_var,
     process_model.gp_stats (process_model.mean_module self)
                            (process_model.covar_module self) xv = Ok (mean, co_var)
     /\ shape mean = [b; s; 1] /\ shape co_var = [b; s; 1]) ->
  exists nz, process_model.noise_term self xv eps = Ok nz /\ shape nz = [b; s; d].
Proof.
  intros d (_ & _ & _ & _ & _ & Hgp) Hx He Hstats.
  unfold process_model.noise_term.
  destruct (process_model.gp self).
  - destruct (Hstats eq_refl) as (mean & co_var & -> & Hm & Hc).
    destruct (Hgp eq_refl) as ((pm & -> & Hpi & Hpo) & (pv & -> & Hvi & Hvo)).
    rewrite Hx. cbn [rbind process_model.attr].
    destruct (Linear_forward_shape pm mean [b; s]) as (m & -> & Hms & _).
    { rewrite Hpi. exact Hm. }
    destruct (Linear_forward_shape pv co_var [b; s]) as (v & -> & Hvs & _).
    { rewrite Hvi. exact Hc. }
    cbn [rbind]. rewrite Hpo in Hms. rewrite Hvo in Hvs. cbn [app] in Hms, Hvs.
    destruct (map2_shape Rmult v eps [b; s; d] Hvs He) as (ve & Hve & Hves & _).
    unfold tmul. rewrite Hve. cbn [rbind].
    destruct (map2_shape Rplus m (smul ve (1 / 10)) [b; s; d] Hms Hves)
      as (nz & Hnz & Hnzs & _).
    exists nz. split; assumption.
  - eexists. split; [reflexivity | exact He].
Qed.

(** C7. Called without target on an input of shape (b, s, d) that the
    layers accept (at least one time step and two values per channel), the
    process model returns, and the loss it returns is the integer zero,
    whether or not the Gaussian-process mode is on. *)
Theorem process_model_forward_without_target {E : Externals}
        (self : process_model.t) (x : loc) (st : State) (xv : Tensor R) (b s : nat) :
  pm_wf self ->
  nth_error (heap st) x = Some xv -> shape xv = [b; s; process_model.d self] ->
  1 <= s -> 2 <= b * s ->
  (process_model.gp self = true ->
   exists mean co_var,
     process_model.gp_stats (process_model.mean_module self)
                            (process_model.covar_module self) xv = Ok (mean, co_var)
     /\ shape mean = [b; s; 1] /\ shape co_var = [b; s; 1]) ->
  exists out st',
    process_model.forward self x None st = (Ok (out, PyInt 0), st').
Proof.
  intros Hwf Hx Hxs Hs Hb Hgp.
  destruct (noise_term_shape self xv (draw (torch_rng (rngs st)) (shape xv)) b s
              Hwf Hxs Hxs Hgp) as (nz & Hnz & Hnzs).
  destruct (process_model_forward_run self x None st xv b s None nz
              Hwf Hx Hxs Hs Hb eq_refl Hnz Hnzs)
    as (xn & h & ms & mu & sigma & z & y & out & st' & _ & _ & _ & _ & _ & _ & _ & _ & Hrun).
  exists out, st'. exact Hrun.
Qed.

Lemma process_model_forward_without_target_witness :
  (exists out st',
      @process_model.forward sample_externals (sample_process_model true) 0 None
        (state_with (zeros [2; 1; 2]) (fun _ => 0%R))
      = (Ok (out, PyInt 0), st'))
  /\ (exists out st',
        @process_model.forward sample_externals (sample_process_model false) 0 None
          (state_with (zeros [2; 1; 2]) (fun _ => 0%R))
        = (Ok (out, PyInt 0), st')).
Proof.
  split.
  - apply (@process_model_forward_without_target sample_externals
             (sample_process_model true) 0 _ (zeros [2; 1; 2]) 2 1).
    + apply sample_process_model_wf.
    + reflexivity.
    + reflexivity.
    + lia.
    + lia.
    + intros _. eexists. eexists. split; [reflexivity|]. split; reflexivity.
  - apply (@process_model_forward_without_target sample_externals
             (sample_process_model false) 0 _ (zeros [2; 1; 2]) 2 1).
    + apply sample_process_model_wf.
    + reflexivity.
    + reflexivity.
    + lia.
    + lia.
    + discriminate.
Defined.

Lemma post_bind_any {A B} (c : M A) (k : A -> M B) (Q : result B -> State -> Prop) st :
  (forall a s, post (k a) Q s) -> (forall e s, Q (Raise e) s) ->
  post (bind c k) Q st.
Proof.
  intros Hk He. apply post_bind. unfold post at 1.
  destruct (fst (c st)); auto.
Qed.

(** Whatever the input and the mode, a call without target that returns
    returns the integer zero as loss. *)
Lemma process_model_forward_loss_without_target {E : Externals}
      (self : process_model.t) (x : loc) (st : State) :
  post (process_model.forward self x None)
       (fun r _ => forall out kl, r = Ok (out, kl) -> kl = PyInt 0) st.
Proof.
  assert (Stop : forall (e : exn) (s : State) (out : Tensor R) (kl : Loss),
             @Raise (Tensor R * Loss) e = Ok (out, kl) -> kl = PyInt 0)
    by discriminate.
  unfold process_model.forward.
  do 2 (apply post_bind_any; [intros ? ?|exact Stop]).
  cbn [process_model.target_stats]. apply post_bind_lift.
  do 14 (apply post_bind_any; [intros ? ?|exact Stop]).
  apply post_bind. apply post_ret. apply post_ret.
  intros out kl [= _ <-]. reflexivity.
Qed.

(** ** Values through the layers *)

Lemma map2_get (f : R -> R -> R) (a b c : Tensor R) (S : list nat) :
  map2 f a b = Ok c -> shape a = S -> shape b = S ->
  shape c = S
  /\ forall idx, get c idx = f (get a (bcast_index S idx)) (get b (bcast_index S idx)).
Proof.
  intros H Ha Hb.
  destruct (map2_shape f a b S Ha Hb) as (c' & Hc' & Hs & Hv).
  rewrite H in Hc'. injection Hc' as <-. split; assumption.
Qed.

Lemma LayerNorm_forward_get (m : LayerNorm.t) (x out : Tensor R) :
  LayerNorm.forward m x = Ok out ->
  forall idx,
    get out idx =
    let d := LayerNorm.normalized_shape m in
    let row j := get x (removelast idx ++ [j]) in
    let mu := Rdiv (big_sum d row) (INR d) in
    let var := Rdiv (big_sum d (fun j => Rmult (row j - mu) (row j - mu))) (INR d) in
    let v := Rdiv (get x idx - mu) (sqrt (var + LayerNorm.eps m)) in
    let j := last idx 0 in
    match LayerNorm.affine m with
    | Some (w, b) => Rplus (Rmult v (get w [j])) (get b [j])
    | None => v
    end.
Proof.
  unfold LayerNorm.forward. intros H idx.
  destruct (shape x); [discriminate|].
  destruct (_ =? _); [|discriminate].
  injection H as <-. reflexivity.
Qed.

Lemma big_sum_1 (f : nat -> R) : big_sum 1 f = f 0.
Proof. cbn [big_sum]. lra. Qed.

Lemma big_sum_2 (f : nat -> R) : big_sum 2 f = Rplus (f 0) (f 1).
Proof. cbn [big_sum]. lra. Qed.

(** With a single time step the softmax over time yields ones. *)
Lemma over_time_single (u : Tensor R) (b d : nat) (i j : nat) :
  get (over_time u b 1 d) [i; 0; j] = 1%R.
Proof.
  cbn [over_time get nth]. rewrite big_sum_1.
  apply Rdiv_diag. apply Rgt_not_eq, exp_pos.
Qed.

Lemma channel_first_single (m : Sequential) (x y : Tensor R) (b d : nat) :
  stack_wf d m -> shape x = [b; 1; d] -> 2 <= b ->
  process_model.channel_first m x = Ok y ->
  shape y = [b; 1; d] /\ forall i j, get y [i; 0; j] = 1%R.
Proof.
  intros Hm Hx Hb Hy.
  destruct (channel_first_stack m x b 1 d Hm Hx) as (u & _ & Hu); [lia..|].
  rewrite Hy in Hu. injection Hu as ->.
  split; [reflexivity|]. intros i j. apply over_time_single.
Qed.

Lemma residual_on_get (self : process_model.t) (y x out : Tensor R) (b s d : nat) :
  shape y = [b; s; d] -> shape x = [b; s; d] ->
  residual_on self y x = Ok out ->
  exists yx, tadd y x = Ok yx
    /\ LayerNorm.forward (process_model.norm self) yx = Ok out
    /\ forall i t j, i < b -> t < s -> j < d ->
         get yx [i; t; j] = Rplus (get y [i; t; j]) (get x [i; t; j]).
Proof.
  intros Hy Hx H. unfold residual_on in H.
  destruct (map2_shape Rplus y x [b; s; d] Hy Hx) as (yx & Hyx & _ & Hv).
  unfold tadd in *. rewrite Hyx in H. cbn [rbind] in H.
  exists yx. split; [assumption|]. split; [assumption|].
  intros i t j Hi Ht Hj. rewrite Hv, bcast_index3 by assumption. reflexivity.
Qed.

(** The normalisation of a row of two values, with unit scale and zero
    shift. *)
Lemma layer_norm_pair (x out : Tensor R) (i t : nat) :
  LayerNorm.forward (LayerNorm.init 2 true) x = Ok out ->
  let p := get x [i; t; 0] in
  let q := get x [i; t; 1] in
  let m := Rdiv (p + q) 2 in
  get out [i; t; 0]
  = Rplus (Rmult (Rdiv (p - m)
                       (sqrt (Rdiv ((p - m) * (p - m) + (q - m) * (q - m)) 2
                              + 1 / 100000)))
                 1) 0.
Proof.
  intros H p q m. rewrite (LayerNorm_forward_get _ _ _ H).
  cbn [LayerNorm.init LayerNorm.normalized_shape LayerNorm.affine LayerNorm.eps
       removelast app last ones zeros get].
  rewrite !big_sum_2. cbn [INR].
  fold p q. replace (Rdiv (p + q) (1 + 1)) with m by (unfold m; f_equal; lra).
  replace (1 + 1)%R with 2%R by lra. reflexivity.
Qed.

Lemma scaled_zero (a V : R) :
  a = 0%R -> Rplus (Rmult (Rdiv a (sqrt V)) 1) 0 = 0%R.
Proof. intros ->. unfold Rdiv. rewrite Rmult_0_l. lra. Qed.

Lemma scaled_positive (a V : R) :
  Rlt 0 a -> Rlt 0 V -> Rlt 0 (Rplus (Rmult (Rdiv a (sqrt V)) 1) 0).
Proof.
  intros Ha HV. rewrite Rmult_1_r, Rplus_0_r.
  apply Rdiv_lt_0_compat; [assumption | apply sqrt_lt_R0; assumption].
Qed.

(** C1, the code at a failing input.  The claim is that the output is
    LayerNorm(y + x) for the input x as it was before the noise.  On two
    sequences of one time step and two zero features, with the normal
    samples 1, -1, 0, ... and the mode without Gaussian process, the call
    returns; the object x holds the noised input afterwards; the output is
    LayerNorm(y + noised x), whose entry (0, 0, 0) is positive, while
    LayerNorm(y + x as given) is zero there. *)
Theorem process_model_forward_residual_is_noised :
  exists nz r xn h ms mu sigma z y out st' ref,
    @process_model.forward sample_externals (sample_process_model false) 0 None
      (state_with (zeros [2; 1; 2]) sample_tape)
    = (Ok (out, PyInt 0), st')
    /\ data_flow (sample_process_model false) (zeros [2; 1; 2]) nz r
                 xn h ms mu sigma z y out
    /\ nth_error (heap st') 0 = Some xn
    /\ residual_on (sample_process_model false) y xn = Ok out
    /\ residual_on (sample_process_model false) y (zeros [2; 1; 2]) = Ok ref
    /\ get ref [0; 0; 0] = 0%R
    /\ Rlt 0 (get out [0; 0; 0]).
Proof.
  pose (self := sample_process_model false).
  pose (x0 := zeros [2; 1; 2]).
  pose (st := state_with x0 sample_tape).
  pose (nz := smul (draw (torch_rng (rngs st)) (shape x0)) (1 / 10)).
  destruct (@process_model_forward_run sample_externals self 0 None st x0 2 1 None nz)
    as (xn & h & ms & mu & sigma & z & y & out & st' & Hflow & Hxn & _ & _ & Hzs & Hys
        & _ & Hheap & Hrun);
    [apply sample_process_model_wf | reflexivity | reflexivity | lia | lia
    | reflexivity | reflexivity | reflexivity |].
  pose proof Hflow as (Hadd & _ & _ & _ & _ & _ & Hy & yx & Hyx & Hout).
  destruct (channel_first_single _ z y 2 2
              (proj1 (proj2 (sample_process_model_wf false))) Hzs (le_n 2) Hy)
    as [_ Hones].
  destruct (map2_get Rplus x0 nz xn [2; 1; 2] Hadd eq_refl eq_refl) as [_ Hxnv].
  destruct (map2_get Rplus y xn yx [2; 1; 2] Hyx Hys Hxn) as [Hyxs Hyxv].
  destruct (map2_shape Rplus y x0 [2; 1; 2] Hys eq_refl) as (yx0 & Hyx0 & Hyx0s & Hyx0v).
  destruct (LayerNorm_forward_shape (process_model.norm self) yx0 [2; 1] Hyx0s)
    as (ref & Href & _).
  exists nz, (draw (advance (numel (shape x0)) (torch_rng (rngs st))) [2; 1; 2]),
    xn, h, ms, mu, sigma, z, y, out, st', ref.
  split; [exact Hrun|]. split; [exact Hflow|]. split; [exact Hheap|].
  split. { unfold residual_on. fold self. unfold tadd in *. rewrite Hyx. exact Hout. }
  split. { unfold residual_on. fold self x0. unfold tadd in *. rewrite Hyx0. exact Href. }
  split.
  - rewrite (layer_norm_pair yx0 ref 0 0 Href). rewrite !Hyx0v.
    cbn [bcast_index length Nat.sub skipn combine map Nat.eqb]. rewrite !Hones.
    cbn [x0 zeros get]. apply scaled_zero. lra.
  - rewrite (layer_norm_pair yx out 0 0 Hout). rewrite !Hyxv.
    cbn [bcast_index length Nat.sub skipn combine map Nat.eqb]. rewrite !Hones, !Hxnv.
    cbn [bcast_index length Nat.sub skipn combine map Nat.eqb].
    assert (N0 : get nz [0; 0; 0] = Rmult 1 (1 / 10)) by reflexivity.
    assert (N1 : get nz [0; 0; 1] = Rmult (-1) (1 / 10)) by reflexivity.
    rewrite N0, N1. cbn [x0 zeros get].
    apply scaled_positive; lra.
Qed.









(** ** The loss *)

Lemma big_sum_ext (n : nat) (f g : nat -> R) :
  (forall k, k < n -> f k = g k) -> big_sum n f = big_sum n g.
Proof.
  induction n as [|n IH]; intros H; cbn [big_sum]; [reflexivity|].
  rewrite IH by (intros; apply H; lia). rewrite H by lia. reflexivity.
Qed.

Lemma big_sum_add (m n : nat) (f : nat -> R) :
  big_sum (m + n) f = Rplus (big_sum m f) (big_sum n (fun l => f (m + l))).
Proof.
  induction n as [|n IH].
  - rewrite Nat.add_0_r. cbn [big_sum]. lra.
  - rewrite Nat.add_succ_r. cbn [big_sum]. rewrite IH. lra.
Qed.

(** A sum over all entries in row-major order is the sum of the rows. *)
Lemma big_sum_rows (b n : nat) (F : nat -> nat -> R) :
  big_sum (b * n) (fun k => F (k / n) (k mod n))
  = big_sum b (fun i => big_sum n (F i)).
Proof.
  induction b as [|b IH]; [reflexivity|].
  replace (S b * n) with (b * n + n) by lia.
  rewrite big_sum_add, IH. cbn [big_sum]. f_equal.
  apply big_sum_ext. intros l Hl.
  assert (Hn : n <> 0) by lia.
  replace ((b * n + l) / n) with b.
  2:{ symmetry. rewrite Nat.add_comm, Nat.div_add by exact Hn.
      rewrite Nat.div_small by exact Hl. reflexivity. }
  replace ((b * n + l) mod n) with l.
  2:{ symmetry. rewrite Nat.add_comm, Nat.Div0.mod_add.
      apply Nat.mod_small. exact Hl. }
  reflexivity.
Qed.

Lemma mean_last3 (t : Tensor R) (a b c : nat) :
  shape t = [a; b; c] ->
  mean_last t
  = Ok (mkTensor [a; b]
          (fun idx => Rdiv (big_sum c (fun j => get t (idx ++ [j]))) (INR c))).
Proof. intros H. unfold mean_last. rewrite H. reflexivity. Qed.

(** Averaging over the feature axis, then flattening from axis one. *)
Lemma feature_mean_flat (t : Tensor R) (a n c : nat) :
  shape t = [a; n; c] ->
  exists m u, mean_last t = Ok m /\ flatten_from1 m = Ok u
    /\ shape u = [a; n]
    /\ forall i l, get u [i; l] = feature_mean t c i l.
Proof.
  intros H. rewrite (mean_last3 t a n c H). unfold flatten_from1.
  cbn [shape]. eexists. eexists. split; [reflexivity|]. split; [reflexivity|]. split.
  - cbn [shape numel fold_right]. rewrite Nat.mul_1_r. reflexivity.
  - intros i l. cbn [get hd nth unravel numel fold_right app].
    rewrite Nat.div_1_r. reflexivity.
Qed.

Lemma bcast_index2 (b n i l : nat) :
  i < b -> l < n -> bcast_index [b; n] [i; l] = [i; l].
Proof.
  intros Hi Hl. cbn [bcast_index length Nat.sub skipn combine map].
  rewrite (bcast_dim _ _ Hi), (bcast_dim _ _ Hl). reflexivity.
Qed.

Lemma normal_kl_value (mean1 logvar1 mean2 logvar2 : Tensor R) (b n : nat) :
  shape mean1 = [b; n] -> shape logvar1 = [b; n] ->
  shape mean2 = [b; n] -> shape logvar2 = [b; n] ->
  exists kl, normal_kl mean1 logvar1 mean2 logvar2 = Ok kl
    /\ shape kl = [b; n]
    /\ forall i l, i < b -> l < n ->
         get kl [i; l]
         = gaussian_kl (get mean1 [i; l]) (get logvar1 [i; l])
                       (get mean2 [i; l]) (get logvar2 [i; l]).
Proof.
  intros H1 H2 H3 H4. unfold normal_kl, tsub, tadd, tmul.
  destruct (map2_shape Rminus (sadd (-1) logvar2) logvar1 [b; n] H4 H2)
    as (a & -> & Ha & Hav). cbn [rbind].
  destruct (map2_shape Rminus logvar1 logvar2 [b; n] H2 H4)
    as (d12 & -> & Hd & Hdv). cbn [rbind].
  destruct (map2_shape Rplus a (texp d12) [b; n] Ha Hd) as (s1 & -> & Hs1 & Hs1v).
  cbn [rbind].
  destruct (map2_shape Rminus mean1 mean2 [b; n] H1 H3) as (dm & -> & Hdm & Hdmv).
  cbn [rbind].
  destruct (map2_shape Rmult (tsquare dm) (texp (tneg logvar2)) [b; n] Hdm H4)
    as (c & -> & Hc & Hcv). cbn [rbind].
  destruct (map2_shape Rplus s1 c [b; n] Hs1 Hc) as (s2 & -> & Hs2 & Hs2v).
  cbn [rbind].
  eexists. split; [reflexivity|]. split; [exact Hs2|].
  intros i l Hi Hl. cbn [tmap get].
  rewrite Hs2v, (bcast_index2 b n i l Hi Hl).
  rewrite Hs1v, Hcv, (bcast_index2 b n i l Hi Hl).
  rewrite Hav, (bcast_index2 b n i l Hi Hl).
  cbn [texp tneg tsquare sadd tmap get].
  rewrite Hdv, Hdmv, (bcast_index2 b n i l Hi Hl).
  unfold gaussian_kl. reflexivity.
Qed.

Lemma mean_all_rows (t : Tensor R) (b n : nat) :
  shape t = [b; n] ->
  mean_all t
  = Rdiv (big_sum b (fun i => big_sum n (fun l => get t [i; l]))) (INR (b * n)).
Proof.
  intros H. unfold mean_all, sum_all. rewrite H.
  cbn [numel fold_right unravel]. rewrite !Nat.mul_1_r.
  f_equal. rewrite <- (big_sum_rows b n (fun i l => get t [i; l])).
  apply big_sum_ext. intros k _. rewrite Nat.div_1_r. reflexivity.
Qed.

(** The loss computed by the code is the mean of the closed form. *)
Lemma kl_of_value (L b s d : nat) (mean_t co_var_t mu sigma : Tensor R) :
  shape mean_t = [b; L; 1] -> shape co_var_t = [b; L; 1] ->
  shape mu = [b; s; d] -> shape sigma = [b; s; d] ->
  0 < L -> L <= s ->
  process_model.kl_of L mean_t co_var_t mu sigma
  = Ok (Scalar (kl_mean b L s d mean_t co_var_t mu sigma)).
Proof.
  intros Hm Hc Hmu Hsg HL HLs. unfold process_model.kl_of.
  destruct (feature_mean_flat mean_t b L 1 Hm) as (m1 & u1 & -> & Hu1 & Hu1s & Hu1v).
  cbn [rbind]. rewrite Hu1. cbn [rbind].
  destruct (feature_mean_flat co_var_t b L 1 Hc) as (m2 & u2 & -> & Hu2 & Hu2s & Hu2v).
  cbn [rbind]. rewrite Hu2. cbn [rbind].
  assert (Hlen : slice_len s (from (- Z.of_nat L)) = L).
  { rewrite slice_len_from_neg. destruct (Nat.eqb_spec L 0); lia. }
  assert (Hpos : forall l, slice_pos s (from (- Z.of_nat L)) l = s - L + l).
  { intros l. unfold slice_pos. rewrite slice_start_from_neg.
    destruct (Nat.eqb_spec L 0); [lia|]. cbn [from sl_step]. lia. }
  rewrite (getitem3 mu b s d _ _ _ Hmu). cbn [rbind].
  match goal with
  | |- context [mean_last ?t] =>
      destruct (feature_mean_flat t b L d) as (m3 & u3 & -> & Hu3 & Hu3s & Hu3v)
  end.
  { cbn [shape]. rewrite !slice_len_full, Hlen. reflexivity. }
  cbn [rbind]. rewrite Hu3. cbn [rbind].
  rewrite (getitem3 sigma b s d _ _ _ Hsg). cbn [rbind].
  match goal with
  | |- context [mean_last ?t] =>
      destruct (feature_mean_flat t b L d) as (m4 & u4 & -> & Hu4 & Hu4s & Hu4v)
  end.
  { cbn [shape]. rewrite !slice_len_full, Hlen. reflexivity. }
  cbn [rbind]. rewrite Hu4. cbn [rbind].
  destruct (normal_kl_value u1 u2 u3 u4 b L Hu1s Hu2s Hu3s Hu4s) as (kl & -> & Hkls & Hklv).
  cbn [rbind]. f_equal. f_equal.
  rewrite (mean_all_rows kl b L Hkls). unfold kl_mean. f_equal.
  apply big_sum_ext. intros i Hi. apply big_sum_ext. intros l Hl.
  rewrite (Hklv i l Hi Hl), Hu1v, Hu2v, Hu3v, Hu4v.
  unfold feature_mean. cbn [get sliced_index].
  rewrite Hpos. unfold slice_pos, slice_start, full_slice.
  cbn [sl_start sl_step Nat.add]. rewrite ?Nat.mul_1_r.
  assert (E3 : forall t : Tensor R,
             big_sum d (fun j => get t [i; s - L + l; j * 1])
             = big_sum d (fun j => get t [i; s - L + l; j])).
  { intros t. apply big_sum_ext. intros j _. rewrite Nat.mul_1_r. reflexivity. }
  rewrite !E3. reflexivity.
Qed.

(** C4. When a target of length [L] is supplied (with [0 < L <= s], and the
    target process yielding one mean and one variance per batch entry and
    time step), the loss returned is the mean, over the batch and the last
    [L] time steps, of the closed form
    1/2 (-1 + lv2 - lv1 + exp (lv1 - lv2) + (m1 - m2)^2 exp (- lv2)),
    where m1, lv1 are the target statistics and m2, lv2 the predicted mean
    and log-variance, each averaged over the feature axis. *)
Theorem process_model_forward_kl {E : Externals}
        (self : process_model.t) (x : loc) (target : Tensor R) (st : State)
        (xv : Tensor R) (b s L : nat) (mean_t co_var_t nz : Tensor R) :
  pm_wf self ->
  nth_error (heap st) x = Some xv -> shape xv = [b; s; process_model.d self] ->
  1 <= s -> 2 <= b * s ->
  size target 1 = Ok L ->
  process_model.gp_stats (process_model.mean_module_t self)
                         (process_model.covar_module_t self) target
  = Ok (mean_t, co_var_t) ->
  shape mean_t = [b; L; 1] -> shape co_var_t = [b; L; 1] ->
  0 < L -> L <= s ->
  process_model.noise_term self xv (draw (torch_rng (rngs st)) (shape xv)) = Ok nz ->
  shape nz = [b; s; process_model.d self] ->
  exists r xn h ms mu sigma z y out st',
    process_model.forward self x (Some target) st
    = (Ok (out, Scalar (kl_mean b L s (process_model.d self)
                                mean_t co_var_t mu sigma)), st')
    /\ data_flow self xv nz r xn h ms mu sigma z y out.
Proof.
  intros Hwf Hx Hxs Hs Hb HL Hgp Hms Hcs HL0 HLs Hnz Hnzs.
  assert (Hts : process_model.target_stats self (Some target)
                = Ok (Some (L, mean_t, co_var_t))).
  { unfold process_model.target_stats. rewrite HL. cbn [rbind]. rewrite Hgp. reflexivity. }
  destruct (process_model_forward_run self x (Some target) st xv b s _ nz
              Hwf Hx Hxs Hs Hb Hts Hnz Hnzs)
    as (xn & h & ms & mu & sigma & z & y & out & st' & Hflow & _ & Hmus & Hsgs & _
        & _ & _ & _ & Hrun).
  eexists. exists xn, h, ms, mu, sigma, z, y, out, st'.
  split; [|exact Hflow].
  rewrite Hrun. unfold loss_of.
  rewrite (kl_of_value L b s (process_model.d self) mean_t co_var_t mu sigma
             Hms Hcs Hmus Hsgs HL0 HLs).
  reflexivity.
Qed.

Lemma process_model_forward_kl_witness :
  exists mean_t co_var_t r xn h ms mu sigma z y out st',
    @process_model.forward sample_externals (sample_process_model false) 0
      (Some (zeros [2; 1; 1])) (state_with (zeros [2; 1; 2]) sample_tape)
    = (Ok (out, Scalar (kl_mean 2 1 1 2 mean_t co_var_t mu sigma)), st')
    /\ data_flow (sample_process_model false) (zeros [2; 1; 2])
                 (smul (draw (mkGenerator 0 sample_tape (fun _ => 0%R)) [2; 1; 2]) (1 / 10))
                 r xn h ms mu sigma z y out.
Proof.
  eexists. eexists.
  apply (@process_model_forward_kl sample_externals (sample_process_model false) 0
           (zeros [2; 1; 1]) (state_with (zeros [2; 1; 2]) sample_tape)
           (zeros [2; 1; 2]) 2 1 1).
  - apply sample_process_model_wf.
  - reflexivity.
  - reflexivity.
  - lia.
  - lia.
  - reflexivity.
  - reflexivity.
  - reflexivity.
  - reflexivity.
  - lia.
  - lia.
  - reflexivity.
  - reflexivity.
Defined.

(** ** The transformer *)

Lemma bind_assoc {A B C} (c : M A) (k : A -> M B) (h : B -> M C) (st : State) :
  bind (bind c k) h st = bind c (fun a => bind (k a) h) st.
Proof. unfold bind. destruct (c st) as [[a|e] s]; reflexivity. Qed.

Lemma bind_ext {A B} (c : M A) (k k' : A -> M B) (st : State) :
  (forall a s, k a s = k' a s) -> bind c k st = bind c k' st.
Proof. intros H. unfold bind. destruct (c st) as [[a|e] s]; auto. Qed.

(** The forward call is the computation of the features followed by the
    projection; it returns a pair exactly when there is a loss. *)
Lemma Transformer_forward_features {E : Externals} (self : Transformer.t)
      (enc_inputs dec_inputs : Tensor R) (target : option (Tensor R)) (st : State) :
  Transformer.forward self enc_inputs dec_inputs target st
  = match features self enc_inputs dec_inputs target st with
    | (Ok (f, kl), s) =>
        (match Transformer.project self f with
         | Ok o => Ok (returned o kl)
         | Raise e => Raise e
         end, s)
    | (Raise e, s) => (Raise e, s)
    end.
Proof.
  transitivity
    (bind (features self enc_inputs dec_inputs target)
          (fun p => bind (lift (Transformer.project self (fst p)))
                         (fun o => ret (returned o (snd p)))) st).
  - unfold Transformer.forward, features.
    rewrite bind_assoc. apply bind_ext; intros eo s.
    rewrite bind_assoc. apply bind_ext; intros do s'.
    rewrite bind_assoc. apply bind_ext; intros [eo2 ea] s1.
    rewrite bind_assoc. apply bind_ext; intros [[do2 da] dc] s2.
    destruct (Transformer.p_model self); [|reflexivity].
    rewrite bind_assoc. apply bind_ext; intros pm s3.
    rewrite bind_assoc. apply bind_ext; intros x s4.
    rewrite bind_assoc. apply bind_ext; intros [o kl] s5.
    reflexivity.
  - unfold bind at 1.
    destruct (features self enc_inputs dec_inputs target st) as [[[f kl]|e] s];
      [|reflexivity].
    unfold bind, lift, ret. cbn [fst snd].
    destruct (Transformer.project self f); reflexivity.
Qed.

Lemma features_loss_flag {E : Externals} (self : Transformer.t)
      (enc_inputs dec_inputs : Tensor R) (target : option (Tensor R)) (st : State) :
  post (features self enc_inputs dec_inputs target)
       (fun r _ => forall f okl, r = Ok (f, okl) ->
                   if Transformer.p_model self then exists kl, okl = Some kl
                   else okl = None) st.
Proof.
  unfold features.
  do 2 (apply post_bind_any; [intros ? ?|discriminate]).
  apply post_bind_any; [intros [eo ea] ?|discriminate].
  apply post_bind_any; [intros [[do da] dc] ?|discriminate].
  destruct (Transformer.p_model self) eqn:Hp.
  - do 2 (apply post_bind_any; [intros ? ?|discriminate]).
    apply post_bind_any; [intros [o kl] ?|discriminate].
    apply post_ret. intros f okl [= _ <-]. eauto.
  - apply post_ret. intros f okl [= _ <-]. reflexivity.
Qed.

(** The projection of the last [pred_len] time steps by a linear map
    without bias onto one scalar. *)
Lemma project_value (self : Transformer.t) (f : Tensor R) (b T : nat) :
  let proj := Transformer.projection self in
  let P := Z.to_nat (Transformer.pred_len self) in
  shape f = [b; T; Linear.in_features proj] ->
  Linear.out_features proj = 1 -> Linear.bias proj = None ->
  (0 < Transformer.pred_len self)%Z ->
  exists o, Transformer.project self f = Ok o
    /\ shape o = [b; Nat.min P T; 1]
    /\ forall i t,
         get o [i; t; 0]
         = big_sum (Linear.in_features proj)
             (fun j => Rmult (get f [i; T - P + t; j]) (get (Linear.weight proj) [0; j])).
Proof.
  intros proj P Hf Ho Hb Hp. unfold Transformer.project.
  assert (HP : (- Transformer.pred_len self)%Z = (- Z.of_nat P)%Z) by (unfold P; lia).
  assert (HP0 : P <> 0) by (unfold P; lia).
  rewrite HP, (getitem3 f _ _ _ _ _ _ Hf). cbn [rbind].
  match goal with
  | |- context [Linear.forward _ ?t] =>
      destruct (Linear_forward_shape proj t [b; Nat.min P T]) as (o & Hfo & Hos & Hov)
  end.
  { cbn [shape app]. rewrite !slice_len_full, slice_len_from_neg.
    destruct (Nat.eqb_spec P 0); [contradiction|]. reflexivity. }
  fold proj. rewrite Hfo. exists o. split; [reflexivity|]. split.
  - rewrite Hos, Ho. reflexivity.
  - intros i t. rewrite Hov. cbn zeta. rewrite Hb.
    cbn [last removelast app get sliced_index].
    apply big_sum_ext. intros j _.
    unfold slice_pos. rewrite slice_start_from_neg.
    destruct (Nat.eqb_spec P 0); [contradiction|].
    unfold slice_start, full_slice, from. cbn [sl_start sl_step Nat.add].
    rewrite !Nat.mul_1_r. reflexivity.
Qed.

(** C5. Once the features are computed (the output of the process model
    when the flag is set, else the output of the decoder), the call returns
    a pair of output and loss when the flag is set and a single tensor
    otherwise; in both cases the output holds, for each of the last
    [pred_len] time steps, one scalar: the product of the features of
    that step with the weight row of the projection, without bias. *)
Theorem Transformer_forward_returns {E : Externals} (self : Transformer.t)
        (enc_inputs dec_inputs : Tensor R) (target : option (Tensor R))
        (st s' : State) (f : Tensor R) (okl : option Loss) (b T : nat) :
  features self enc_inputs dec_inputs target st = (Ok (f, okl), s') ->
  shape f = [b; T; Linear.in_features (Transformer.projection self)] ->
  Linear.out_features (Transformer.projection self) = 1 ->
  Linear.bias (Transformer.projection self) = None ->
  (0 < Transformer.pred_len self)%Z ->
  exists o,
    (if Transformer.p_model self
     then exists kl, okl = Some kl
            /\ Transformer.forward self enc_inputs dec_inputs target st
               = (Ok (Pair o kl), s')
     else okl = None
          /\ Transformer.forward self enc_inputs dec_inputs target st
             = (Ok (Single o), s'))
    /\ shape o = [b; Nat.min (Z.to_nat (Transformer.pred_len self)) T; 1]
    /\ forall i t,
         get o [i; t; 0]
         = big_sum (Linear.in_features (Transformer.projection self))
             (fun j => Rmult (get f [i; T - Z.to_nat (Transformer.pred_len self) + t; j])
                             (get (Linear.weight (Transformer.projection self)) [0; j])).
Proof.
  intros Hfeat Hf Ho Hb Hp.
  destruct (project_value self f b T Hf Ho Hb Hp) as (o & Hproj & Hos & Hov).
  exists o. split; [|split; assumption].
  pose proof (features_loss_flag self enc_inputs dec_inputs target st) as Hflag.
  unfold post in Hflag. rewrite Hfeat in Hflag. cbn [fst snd] in Hflag.
  specialize (Hflag f okl eq_refl).
  pose proof (Transformer_forward_features self enc_inputs dec_inputs target st) as Hfw.
  rewrite Hfeat, Hproj in Hfw.
  destruct (Transformer.p_model self).
  - destruct Hflag as [kl ->]. exists kl. split; [reflexivity | exact Hfw].
  - subst okl. split; [reflexivity | exact Hfw].
Qed.


Lemma Transformer_forward_returns_witness :
  (exists f s' o kl,
      @features sample_externals (sample_transformer true)
        (zeros [2; 3; 1]) (zeros [2; 2; 1]) None initial_state = (Ok (f, Some kl), s')
      /\ @Transformer.forward sample_externals (sample_transformer true)
           (zeros [2; 3; 1]) (zeros [2; 2; 1]) None initial_state
         = (Ok (Pair o kl), s')
      /\ shape o = [2; 1; 1]
      /\ forall i t,
           get o [i; t; 0]
           = big_sum 2 (fun j => Rmult (get f [i; 2 - 1 + t; j]) (get (ones [1; 2]) [0; j])))
  /\ (exists f s' o,
        @features sample_externals (sample_transformer false)
          (zeros [2; 3; 1]) (zeros [2; 2; 1]) None initial_state = (Ok (f, None), s')
        /\ @Transformer.forward sample_externals (sample_transformer false)
             (zeros [2; 3; 1]) (zeros [2; 2; 1]) None initial_state
           = (Ok (Single o), s')
        /\ shape o = [2; 1; 1]).
Proof.
  split.
  - assert (Hs : match fst (@features sample_externals (sample_transformer true)
                              (zeros [2; 3; 1]) (zeros [2; 2; 1]) None initial_state) with
                 | Ok (f, _) => shape f
                 | Raise _ => []
                 end = [2; 2; 2]) by (vm_compute; reflexivity).
    destruct (@features sample_externals (sample_transformer true)
                (zeros [2; 3; 1]) (zeros [2; 2; 1]) None initial_state)
      as [[[f okl]|e] s'] eqn:Hf; [|discriminate Hs].
    cbn [fst] in Hs.
    destruct (@Transformer_forward_returns sample_externals (sample_transformer true)
                (zeros [2; 3; 1]) (zeros [2; 2; 1]) None initial_state s' f okl 2 2
                Hf Hs eq_refl eq_refl eq_refl) as (o & (kl & Hk & Hfw) & Hos & Hov).
    subst okl. exists f, s', o, kl. repeat split; assumption.
  - assert (Hs : match fst (@features sample_externals (sample_transformer false)
                              (zeros [2; 3; 1]) (zeros [2; 2; 1]) None initial_state) with
                 | Ok (f, _) => shape f
                 | Raise _ => []
                 end = [2; 2; 2]) by (vm_compute; reflexivity).
    destruct (@features sample_externals (sample_transformer false)
                (zeros [2; 3; 1]) (zeros [2; 2; 1]) None initial_state)
      as [[[f okl]|e] s'] eqn:Hf; [|discriminate Hs].
    cbn [fst] in Hs.
    destruct (@Transformer_forward_returns sample_externals (sample_transformer false)
                (zeros [2; 3; 1]) (zeros [2; 2; 1]) None initial_state s' f okl 2 2
                Hf Hs eq_refl eq_refl eq_refl) as (o & (Hk & Hfw) & Hos & _).
    subst okl. exists f, s', o. repeat split; assumption.
Defined.

(** ** Two runs from different generator states *)

Lemma related_bind {A B} (Pre Mid Post : State -> State -> Prop)
      (Ra : A -> A -> Prop) (Rb : B -> B -> Prop)
      (c1 c2 : M A) (k1 k2 : A -> M B) :
  related Pre Mid Ra c1 c2 ->
  (forall s1 s2, Mid s1 s2 -> Post s1 s2) ->
  (forall a1 a2, Ra a1 a2 -> related Mid Post Rb (k1 a1) (k2 a2)) ->
  related Pre Post Rb (bind c1 k1) (bind c2 k2).
Proof.
  intros Hc Hw Hk s1 s2 H. specialize (Hc s1 s2 H). unfold bind.
  destruct (c1 s1) as [[a1|e1] t1], (c2 s2) as [[a2|e2] t2]; cbn in Hc;
    try contradiction.
  - destruct Hc as [Ha Ht]. exact (Hk a1 a2 Ha t1 t2 Ht).
  - destruct Hc as [-> Ht]. cbn. auto.
Qed.

Lemma related_weaken {A} (Pre Post Post' : State -> State -> Prop)
      (Rr : A -> A -> Prop) (c1 c2 : M A) :
  related Pre Post Rr c1 c2 ->
  (forall s1 s2, Post s1 s2 -> Post' s1 s2) ->
  related Pre Post' Rr c1 c2.
Proof.
  intros Hc Hw s1 s2 H. specialize (Hc s1 s2 H). unfold agree in *.
  destruct (c1 s1) as [[a1|e1] t1], (c2 s2) as [[a2|e2] t2];
    try contradiction; destruct Hc; auto.
Qed.

Create HintDb rel.

Section Related.

Context {E : Externals}.

(** An invariant that implies equal generators and survives any change of
    the generators and of the record of strategy runs. *)
Variable Inv : State -> State -> Prop.
Hypothesis Inv_rngs : forall s1 s2, Inv s1 s2 -> rngs s1 = rngs s2.
Hypothesis Inv_update :
  forall s1 s2 g l1 l2, Inv s1 s2 ->
    Inv (mkState g (heap s1) l1) (mkState g (heap s2) l2).

Lemma related_ret {A} (a : A) : related Inv Inv eq (ret a) (ret a).
Proof. intros s1 s2 H. cbn. auto. Qed.

Lemma related_lift {A} (r : result A) : related Inv Inv eq (lift r) (lift r).
Proof. intros s1 s2 H. cbn. destruct r; auto. Qed.

Lemma related_bind_inv {A B} (Ra : A -> A -> Prop) (Rb : B -> B -> Prop)
      (c1 c2 : M A) (k1 k2 : A -> M B) :
  related Inv Inv Ra c1 c2 ->
  (forall a1 a2, Ra a1 a2 -> related Inv Inv Rb (k1 a1) (k2 a2)) ->
  related Inv Inv Rb (bind c1 k1) (bind c2 k2).
Proof.
  intros Hc Hk s1 s2 H. specialize (Hc s1 s2 H). unfold bind.
  destruct (c1 s1) as [[a1|e1] t1], (c2 s2) as [[a2|e2] t2]; cbn in Hc;
    try contradiction.
  - destruct Hc as [Ha Ht]. exact (Hk a1 a2 Ha t1 t2 Ht).
  - exact Hc.
Qed.

Lemma related_bind_eq {A B} (c : M A) (k : A -> M B) :
  related Inv Inv eq c c -> (forall a, related Inv Inv eq (k a) (k a)) ->
  related Inv Inv eq (bind c k) (bind c k).
Proof.
  intros Hc Hk. apply (related_bind_inv eq eq); [assumption|].
  intros a1 a2 <-. apply Hk.
Qed.

Lemma related_randn (s : list nat) : related Inv Inv eq (randn s) (randn s).
Proof.
  intros s1 s2 H. unfold randn, set_torch_rng. rewrite (Inv_rngs s1 s2 H).
  cbn. split; [reflexivity|]. apply Inv_update. exact H.
Qed.

Lemma related_uniform (s : list nat) (lo hi : R) :
  related Inv Inv eq (uniform s lo hi) (uniform s lo hi).
Proof.
  intros s1 s2 H. unfold uniform, set_torch_rng. rewrite (Inv_rngs s1 s2 H).
  cbn. split; [reflexivity|]. apply Inv_update. exact H.
Qed.

Lemma related_call (m : AttnModule) (Q K V : Tensor R) (mask : option (Tensor Z)) :
  related Inv Inv eq (call_attention m Q K V mask) (call_attention m Q K V mask).
Proof.
  intros s1 s2 H. unfold call_attention. rewrite (Inv_rngs s1 s2 H).
  destruct (attention_call m Q K V mask (rngs s2)) as [[a|e] g]; cbn;
    (split; [reflexivity|]; apply Inv_update; exact H).
Qed.

#[local] Hint Resolve related_ret related_lift related_randn related_uniform
  related_call : rel.

Ltac rel :=
  repeat first
    [ solve [eauto with rel]
    | apply related_bind_eq; [|intro]
    | match goal with
      | |- related _ _ _ (match ?p with (_, _) => _ end) _ => destruct p
      | |- related _ _ _ (if ?b then _ else _) _ => destruct b
      | |- related _ _ _ (match ?o with Some _ => _ | None => _ end) _ => destruct o
      end ].

Lemma related_Linear_init (i o : nat) (with_bias : bool) :
  related Inv Inv eq (Linear.init i o with_bias) (Linear.init i o with_bias).
Proof. unfold Linear.init. rel. Qed.

Lemma related_Conv1d_init (i o k p : nat) :
  related Inv Inv eq (Conv1d.init i o k p) (Conv1d.init i o k p).
Proof. unfold Conv1d.init. rel. Qed.

#[local] Hint Resolve related_Linear_init related_Conv1d_init : rel.

Lemma related_replicate {A} (n : nat) (make : M A) :
  related Inv Inv eq make make ->
  related Inv Inv eq (replicate n make) (replicate n make).
Proof. intros H. induction n as [|n IH]; cbn [replicate]; rel. Qed.

Lemma related_MultiHeadAttention_init (d_model d_k d_v n_heads : nat)
      (attn_type : string) (seed : Z) :
  related Inv Inv eq
    (MultiHeadAttention.init d_model d_k d_v n_heads attn_type seed)
    (MultiHeadAttention.init d_model d_k d_v n_heads attn_type seed).
Proof. unfold MultiHeadAttention.init. rel. Qed.

Lemma related_PoswiseFeedForwardNet_init (d_model d_ff : nat) :
  related Inv Inv eq (PoswiseFeedForwardNet.init d_model d_ff)
                     (PoswiseFeedForwardNet.init d_model d_ff).
Proof. unfold PoswiseFeedForwardNet.init, PoswiseFeedForwardNet.reinit. rel. Qed.

#[local] Hint Resolve related_MultiHeadAttention_init
  related_PoswiseFeedForwardNet_init : rel.

Lemma related_EncoderLayer_init (d_model d_ff d_k d_v n_heads : nat)
      (attn_type : string) (seed : Z) :
  related Inv Inv eq
    (EncoderLayer.init d_model d_ff d_k d_v n_heads attn_type seed)
    (EncoderLayer.init d_model d_ff d_k d_v n_heads attn_type seed).
Proof. unfold EncoderLayer.init. rel. Qed.

Lemma related_DecoderLayer_init (d_model d_ff d_k d_v n_heads : nat)
      (attn_type : string) (seed : Z) :
  related Inv Inv eq
    (DecoderLayer.init d_model d_ff d_k d_v n_heads attn_type seed)
    (DecoderLayer.init d_model d_ff d_k d_v n_heads attn_type seed).
Proof. unfold DecoderLayer.init. rel. Qed.

#[local] Hint Resolve related_EncoderLayer_init related_DecoderLayer_init
  related_replicate : rel.

Lemma related_Encoder_init (d_model d_ff d_k d_v n_heads n_layers : nat)
      (attn_type : string) (seed : Z) :
  related Inv Inv eq
    (Encoder.init d_model d_ff d_k d_v n_heads n_layers attn_type seed)
    (Encoder.init d_model d_ff d_k d_v n_heads n_layers attn_type seed).
Proof. unfold Encoder.init. rel. Qed.

Lemma related_Decoder_init (d_model d_ff d_k d_v n_heads n_layers : nat)
      (attn_type : string) (seed : Z) :
  related Inv Inv eq
    (Decoder.init d_model d_ff d_k d_v n_heads n_layers attn_type seed)
    (Decoder.init d_model d_ff d_k d_v n_heads n_layers attn_type seed).
Proof. unfold Decoder.init. rel. Qed.

Lemma related_process_model_init (gp : bool) (d : nat) :
  related Inv Inv eq (process_model.init gp d) (process_model.init gp d).
Proof. unfold process_model.init, process_model.conv_stack. rel. Qed.

#[local] Hint Resolve related_Encoder_init related_Decoder_init
  related_process_model_init : rel.

Lemma related_MultiHeadAttention_forward (self : MultiHeadAttention.t)
      (Q K V : Tensor R) (attn_mask : option (Tensor Z)) :
  related Inv Inv eq (MultiHeadAttention.forward self Q K V attn_mask)
                     (MultiHeadAttention.forward self Q K V attn_mask).
Proof. unfold MultiHeadAttention.forward. rel. Qed.

#[local] Hint Resolve related_MultiHeadAttention_forward : rel.

Lemma related_EncoderLayer_forward (self : EncoderLayer.t) (x : Tensor R)
      (mask : option (Tensor Z)) :
  related Inv Inv eq (EncoderLayer.forward self x mask)
                     (EncoderLayer.forward self x mask).
Proof. unfold EncoderLayer.forward. rel. Qed.

Lemma related_DecoderLayer_forward (self : DecoderLayer.t) (x y : Tensor R)
      (m1 m2 : option (Tensor Z)) :
  related Inv Inv eq (DecoderLayer.forward self x y m1 m2)
                     (DecoderLayer.forward self x y m1 m2).
Proof. unfold DecoderLayer.forward. rel. Qed.

#[local] Hint Resolve related_EncoderLayer_forward related_DecoderLayer_forward : rel.

Lemma related_Encoder_run (layers : list EncoderLayer.t) :
  forall (x : Tensor R) (mask : option (Tensor Z)) (acc : list (Tensor R)),
    related Inv Inv eq (Encoder.run layers x mask acc) (Encoder.run layers x mask acc).
Proof. induction layers as [|l rest IH]; intros; cbn [Encoder.run]; rel. Qed.

Lemma related_Decoder_run (layers : list DecoderLayer.t) :
  forall (x y : Tensor R) (mask : Tensor Z) (a1 a2 : list (Tensor R)),
    related Inv Inv eq (Decoder.run layers x y mask a1 a2)
                       (Decoder.run layers x y mask a1 a2).
Proof. induction layers as [|l rest IH]; intros; cbn [Decoder.run]; rel. Qed.

#[local] Hint Resolve related_Encoder_run related_Decoder_run : rel.

Lemma related_Encoder_forward (self : Encoder.t) (x : Tensor R) :
  related Inv Inv eq (Encoder.forward self x) (Encoder.forward self x).
Proof. unfold Encoder.forward. rel. Qed.

Lemma related_Decoder_forward (self : Decoder.t) (x y : Tensor R) :
  related Inv Inv eq (Decoder.forward self x y) (Decoder.forward self x y).
Proof. unfold Decoder.forward. rel. Qed.

End Related.

Lemma same_rngs_rngs (h1 h2 : list (Tensor R)) (s1 s2 : State) :
  same_rngs h1 h2 s1 s2 -> rngs s1 = rngs s2.
Proof. intros [H _]. exact H. Qed.

Lemma same_rngs_update (h1 h2 : list (Tensor R)) (s1 s2 : State) (g : RNGs)
      (l1 l2 : list AttnCall) :
  same_rngs h1 h2 s1 s2 ->
  same_rngs h1 h2 (mkState g (heap s1) l1) (mkState g (heap s2) l2).
Proof. intros (_ & H1 & H2). repeat split; assumption. Qed.

Lemma same_at_rngs (x1 x2 : loc) (s1 s2 : State) :
  same_at x1 x2 s1 s2 -> rngs s1 = rngs s2.
Proof. intros [H _]. exact H. Qed.

Lemma same_at_update (x1 x2 : loc) (s1 s2 : State) (g : RNGs) (l1 l2 : list AttnCall) :
  same_at x1 x2 s1 s2 ->
  same_at x1 x2 (mkState g (heap s1) l1) (mkState g (heap s2) l2).
Proof. intros [_ H]. split; [reflexivity | exact H]. Qed.

Section RelatedObjects.

Context {E : Externals}.
Variables x1 x2 : loc.

Lemma related_load : related (same_at x1 x2) (same_at x1 x2) eq (load x1) (load x2).
Proof.
  intros s1 s2 H. pose proof H as [_ Hx]. unfold load. rewrite Hx.
  destruct (nth_error (heap s2) x2); cbn; auto.
Qed.

Lemma nth_error_update_same {A} (l1 l2 : list A) (k1 k2 : nat) (a : A) :
  nth_error l1 k1 = nth_error l2 k2 ->
  nth_error (update l1 k1 a) k1 = nth_error (update l2 k2 a) k2.
Proof.
  intros H. destruct (nth_error l1 k1) as [b|] eqn:E1.
  - rewrite (nth_error_update l1 k1 b a E1).
    symmetry in H. rewrite (nth_error_update l2 k2 b a H). reflexivity.
  - assert (N : forall (l : list A) k, nth_error l k = None ->
                                       nth_error (update l k a) k = None).
    { induction l as [|c l IH]; intros [|k] Hn; cbn in *; try discriminate; auto. }
    rewrite (N l1 k1 E1), (N l2 k2 (eq_sym H)). reflexivity.
Qed.

Lemma related_add_ (other : Tensor R) :
  related (same_at x1 x2) (same_at x1 x2) (fun l1 l2 => l1 = x1 /\ l2 = x2) (add_ x1 other) (add_ x2 other).
Proof.
  intros s1 s2 H. pose proof H as [Hr Hx]. unfold add_, bind, load.
  rewrite Hx. destruct (nth_error (heap s2) x2) as [xv|] eqn:E2; [|cbn; auto].
  unfold lift. destruct (tadd xv other) as [r|e]; [|cbn; auto].
  destruct (list_eq_dec Nat.eq_dec (shape r) (shape xv)); cbn; [|auto].
  split; [auto|]. split; [exact Hr|]. cbn. apply nth_error_update_same.
  rewrite Hx, E2. reflexivity.
Qed.

Lemma related_process_model_forward (self : process_model.t)
      (target : option (Tensor R)) :
  related (same_at x1 x2) (same_at x1 x2) eq (process_model.forward self x1 target)
                     (process_model.forward self x2 target).
Proof.
  pose proof (same_at_rngs x1 x2) as Hr.
  pose proof (same_at_update x1 x2) as Hu.
  unfold process_model.forward.
  assert (Lift : forall A (r : result A), related (same_at x1 x2) (same_at x1 x2) eq (lift r) (lift r))
    by (intros; apply related_lift).
  assert (Randn : forall t, related (same_at x1 x2) (same_at x1 x2) eq (randn_like t) (randn_like t))
    by (intros; apply related_randn; assumption).
  apply (related_bind_inv (same_at x1 x2) eq eq); [apply related_load|]. intros xv ? <-.
  apply (related_bind_inv (same_at x1 x2) eq eq); [apply Randn|]. intros eps ? <-.
  apply (related_bind_inv (same_at x1 x2) eq eq); [apply Lift|]. intros tstats ? <-.
  apply (related_bind_inv (same_at x1 x2) eq eq); [apply Lift|]. intros nz ? <-.
  apply (related_bind_inv (same_at x1 x2) (fun l1 l2 => l1 = x1 /\ l2 = x2) eq);
    [apply related_add_|]. intros l1 l2 [-> ->].
  apply (related_bind_inv (same_at x1 x2) eq eq); [apply related_load|]. intros xn ? <-.
  do 4 (apply (related_bind_inv (same_at x1 x2) eq eq); [apply Lift|]; intros ? ? <-).
  apply (related_bind_inv (same_at x1 x2) eq eq); [apply Randn|]. intros r ? <-.
  do 3 (apply (related_bind_inv (same_at x1 x2) eq eq); [apply Lift|]; intros ? ? <-).
  apply (related_bind_inv (same_at x1 x2) eq eq); [apply related_load|]. intros xv' ? <-.
  do 2 (apply (related_bind_inv (same_at x1 x2) eq eq); [apply Lift|]; intros ? ? <-).
  apply (related_bind_inv (same_at x1 x2) eq eq); [|intros ? ? <-; apply related_ret].
  destruct tstats as [[[s_len mean_t] co_var_t]|];
    [apply Lift | apply related_ret].
Qed.

End RelatedObjects.

Lemma related_Transformer_forward {E : Externals} (self : Transformer.t)
      (enc_inputs dec_inputs : Tensor R) (target : option (Tensor R))
      (h1 h2 : list (Tensor R)) :
  related (same_rngs h1 h2) eq_rngs eq
          (Transformer.forward self enc_inputs dec_inputs target)
          (Transformer.forward self enc_inputs dec_inputs target).
Proof.
  pose proof (same_rngs_rngs h1 h2) as Hr.
  pose proof (same_rngs_update h1 h2) as Hu.
  set (I := same_rngs h1 h2) in *.
  assert (Lift : forall A (r : result A), related I I eq (lift r) (lift r))
    by (intros; apply related_lift).
  unfold Transformer.forward.
  apply (related_bind I I eq_rngs eq eq); [apply Lift | exact Hr |]. intros eo ? <-.
  apply (related_bind I I eq_rngs eq eq); [apply Lift | exact Hr |]. intros do ? <-.
  apply (related_bind I I eq_rngs eq eq);
    [apply related_Encoder_forward; assumption | exact Hr |]. intros [eo2 ea] ? <-.
  apply (related_bind I I eq_rngs eq eq);
    [apply related_Decoder_forward; assumption | exact Hr |].
  intros [[do2 da] dc] ? <-.
  destruct (Transformer.p_model self).
  - apply (related_bind I I eq_rngs eq eq); [apply Lift | exact Hr |]. intros pm ? <-.
    intros s1 s2 H. unfold bind at 1 3, alloc. cbn [fst snd].
    set (x1 := length (heap s1)). set (x2 := length (heap s2)).
    pose proof (same_at_rngs x1 x2) as Hr'.
    pose proof (same_at_update x1 x2) as Hu'.
    apply (related_bind (same_at x1 x2) (same_at x1 x2) eq_rngs eq eq
             (process_model.forward pm x1 target) (process_model.forward pm x2 target)).
    + apply related_process_model_forward.
    + exact Hr'.
    + intros [o kl] ? <-.
      apply (related_weaken (same_at x1 x2) (same_at x1 x2) eq_rngs); [|exact Hr'].
      apply related_bind_eq; [apply related_lift|]. intros outputs. apply related_ret.
    + split; cbn [rngs heap].
      * destruct H as [H _]. exact H.
      * unfold x1, x2. rewrite !nth_error_app2, !Nat.sub_diag by lia. reflexivity.
  - apply (related_weaken I I eq_rngs); [|exact Hr].
    apply related_bind_eq; [apply Lift|]. intros outputs. apply related_ret.
Qed.

(** Seeding makes the generators of the two runs equal, whatever they
    were before. *)
Lemma related_seed_everything {E : Externals} (seed : Z) (h1 h2 : list (Tensor R)) :
  related (fun s1 s2 => heap s1 = h1 /\ heap s2 = h2) (same_rngs h1 h2) eq
          (Transformer.seed_everything seed) (Transformer.seed_everything seed).
Proof.
  intros s1 s2 [H1 H2]. unfold Transformer.seed_everything. cbn.
  repeat split; assumption.
Qed.

Lemma related_Transformer_init {E : Externals}
      (src_input_size tgt_input_size : nat) (pred_len : Z)
      (d_model d_ff d_k d_v n_heads n_layers : nat)
      (attn_type : string) (seed : Z) (p_model gp : bool)
      (h1 h2 : list (Tensor R)) :
  related (fun s1 s2 => heap s1 = h1 /\ heap s2 = h2) (same_rngs h1 h2) eq
        (Transformer.init src_input_size tgt_input_size pred_len
           d_model d_ff d_k d_v n_heads n_layers attn_type seed p_model gp)
        (Transformer.init src_input_size tgt_input_size pred_len
           d_model d_ff d_k d_v n_heads n_layers attn_type seed p_model gp).
Proof.
  pose proof (same_rngs_rngs h1 h2) as Hr.
  pose proof (same_rngs_update h1 h2) as Hu.
  set (I := same_rngs h1 h2) in *.
  unfold Transformer.init.
  apply (related_bind _ I I eq eq); [apply related_seed_everything | auto |].
  intros [] ? <-.
  apply related_bind_eq; [apply related_Encoder_init; assumption|]. intros enc.
  apply related_bind_eq; [apply related_Decoder_init; assumption|]. intros dec.
  do 3 (apply related_bind_eq; [apply related_Linear_init; assumption|]; intro).
  apply related_bind_eq; [|intro; apply related_ret].
  destruct p_model; [|apply related_ret].
  apply related_bind_eq; [apply related_process_model_init; assumption|].
  intro. apply related_ret.
Qed.

(** C9. Two runs, each constructing a model from the same arguments and
    seed and then calling it on the same inputs, give the same outcome (the
    same returned tensors, or the same exception) and end with the same
    generators, whatever the states of the three generators and the other
    contents of the two initial states were: the construction overwrites all
    three generators from the seed before anything reads them. *)
Theorem seeded_runs_agree {E : Externals}
        (src_input_size tgt_input_size : nat) (pred_len : Z)
        (d_model d_ff d_k d_v n_heads n_layers : nat)
        (attn_type : string) (seed : Z) (p_model gp : bool)
        (enc_inputs dec_inputs : Tensor R) (target : option (Tensor R))
        (st1 st2 : State) :
  let run := construct_and_run src_input_size tgt_input_size pred_len
               d_model d_ff d_k d_v n_heads n_layers attn_type seed p_model gp
               enc_inputs dec_inputs target in
  fst (run st1) = fst (run st2)
  /\ rngs (snd (run st1)) = rngs (snd (run st2))
  /\ (forall st, rngs (snd (Transformer.seed_everything seed st))
                 = mkRNGs (torch_manual_seed seed) (random_seed seed)
                          (np_random_seed seed)).
Proof.
  intros run.
  assert (H : agree eq eq_rngs (run st1) (run st2)).
  { unfold run, construct_and_run.
    apply (related_bind (fun s1 s2 => heap s1 = heap st1 /\ heap s2 = heap st2)
             (same_rngs (heap st1) (heap st2)) eq_rngs eq eq).
    - apply related_Transformer_init.
    - apply same_rngs_rngs.
    - intros model ? <-. apply related_Transformer_forward.
    - split; reflexivity. }
  unfold agree in H.
  destruct (run st1) as [[r1|e1] t1], (run st2) as [[r2|e2] t2];
    try contradiction; destruct H as [-> H]; cbn [fst snd];
    (split; [reflexivity|]; split; [exact H|]; reflexivity).
Qed.

(** * Further properties of the code *)

(** ** The loss of the process model *)

(** With a target longer than the sequence, the statistics of the target
    have more columns than the predicted ones and the first subtraction of
    [normal_kl] cannot broadcast them. *)
Lemma kl_of_too_long (L b s d : nat) (mean_t co_var_t mu sigma : Tensor R) :
  shape mean_t = [b; L; 1] -> shape co_var_t = [b; L; 1] ->
  shape mu = [b; s; d] -> shape sigma = [b; s; d] ->
  2 <= s -> s < L ->
  process_model.kl_of L mean_t co_var_t mu sigma = Raise RuntimeError.
Proof.
  intros Hm Hc Hmu Hsg Hs HL. unfold process_model.kl_of.
  destruct (feature_mean_flat mean_t b L 1 Hm) as (m1 & u1 & -> & Hu1 & Hu1s & _).
  cbn [rbind]. rewrite Hu1. cbn [rbind].
  destruct (feature_mean_flat co_var_t b L 1 Hc) as (m2 & u2 & -> & Hu2 & Hu2s & _).
  cbn [rbind]. rewrite Hu2. cbn [rbind].
  assert (Hlen : slice_len s (from (- Z.of_nat L)) = s).
  { rewrite slice_len_from_neg. destruct (Nat.eqb_spec L 0); lia. }
  rewrite (getitem3 mu b s d _ _ _ Hmu). cbn [rbind].
  match goal with
  | |- context [mean_last ?t] =>
      destruct (feature_mean_flat t b s d) as (m3 & u3 & -> & Hu3 & Hu3s & _)
  end.
  { cbn [shape]. rewrite !slice_len_full, Hlen. reflexivity. }
  cbn [rbind]. rewrite Hu3. cbn [rbind].
  rewrite (getitem3 sigma b s d _ _ _ Hsg). cbn [rbind].
  match goal with
  | |- context [mean_last ?t] =>
      destruct (feature_mean_flat t b s d) as (m4 & u4 & -> & Hu4 & Hu4s & _)
  end.
  { cbn [shape]. rewrite !slice_len_full, Hlen. reflexivity. }
  cbn [rbind]. rewrite Hu4. cbn [rbind].
  unfold normal_kl, tsub, map2. cbn [sadd tmap shape]. rewrite Hu4s, Hu2s.
  unfold broadcast_shapes. cbn [rev app broadcast_rev]. rewrite Nat.eqb_refl.
  destruct (Nat.eqb_spec s L); [lia|].
  destruct (Nat.eqb_spec s 1); [lia|].
  destruct (Nat.eqb_spec L 1); [lia|]. reflexivity.
Qed.

(** X3. When the target has more time steps than the input, and the
    input has at least two, the call raises the size-mismatch error from
    the loss computation; by then the tensor object [x] has already been
    overwritten with the noised input. *)
Theorem process_model_forward_target_too_long {E : Externals}
        (self : process_model.t) (x : loc) (target : Tensor R) (st : State)
        (xv : Tensor R) (b s L : nat) (mean_t co_var_t nz : Tensor R) :
  pm_wf self ->
  nth_error (heap st) x = Some xv -> shape xv = [b; s; process_model.d self] ->
  1 <= b -> 2 <= s ->
  size target 1 = Ok L ->
  process_model.gp_stats (process_model.mean_module_t self)
                         (process_model.covar_module_t self) target
  = Ok (mean_t, co_var_t) ->
  shape mean_t = [b; L; 1] -> shape co_var_t = [b; L; 1] ->
  s < L ->
  process_model.noise_term self xv (draw (torch_rng (rngs st)) (shape xv)) = Ok nz ->
  shape nz = [b; s; process_model.d self] ->
  exists xn st',
    process_model.forward self x (Some target) st = (Raise RuntimeError, st')
    /\ tadd xv nz = Ok xn
    /\ nth_error (heap st') x = Some xn.
Proof.
  intros Hwf Hx Hxs Hb Hs HL Hgp Hms Hcs HLs Hnz Hnzs.
  assert (Hts : process_model.target_stats self (Some target)
                = Ok (Some (L, mean_t, co_var_t))).
  { unfold process_model.target_stats. rewrite HL. cbn [rbind]. rewrite Hgp. reflexivity. }
  assert (Hs1 : 1 <= s) by lia.
  assert (Hbs : 2 <= b * s) by nia.
  destruct (process_model_forward_run self x (Some target) st xv b s _ nz
              Hwf Hx Hxs Hs1 Hbs Hts Hnz Hnzs)
    as (xn & h & ms & mu & sigma & z & y & out & st' & Hflow & _ & Hmus & Hsgs & _
        & _ & _ & Hheap & Hrun).
  exists xn, st'. split; [|split; [exact (proj1 Hflow) | exact Hheap]].
  rewrite Hrun. unfold loss_of.
  rewrite (kl_of_too_long L b s (process_model.d self) mean_t co_var_t mu sigma
             Hms Hcs Hmus Hsgs Hs HLs).
  reflexivity.
Qed.

Lemma process_model_forward_target_too_long_witness :
  exists xn st',
    @process_model.forward sample_externals (sample_process_model false) 0
      (Some (zeros [1; 3; 1])) (state_with (zeros [1; 2; 2]) sample_tape)
    = (Raise RuntimeError, st')
    /\ tadd (zeros [1; 2; 2])
            (smul (draw (mkGenerator 0 sample_tape (fun _ => 0%R)) [1; 2; 2]) (1 / 10))
       = Ok xn
    /\ nth_error (heap st') 0 = Some xn.
Proof.
  apply (@process_model_forward_target_too_long sample_externals
           (sample_process_model false) 0
           (zeros [1; 3; 1]) (state_with (zeros [1; 2; 2]) sample_tape)
           (zeros [1; 2; 2]) 1 2 3 (zeros [1; 3; 1])
           (mkTensor [1; 3; 1] (fun idx => get (mkTensor [1; 3]
              (fun idx => get (mkTensor [1; 3; 3]
                 (fun idx => exp (- sq_dist (zeros [1; 3; 1]) (nth 0 idx 0) (nth 1 idx 0)
                                             (nth 2 idx 0) / 2)))
                              (idx ++ [last idx 0]))) (remove_at 2 idx)))).
  - apply sample_process_model_wf.
  - reflexivity.
  - reflexivity.
  - lia.
  - lia.
  - reflexivity.
  - reflexivity.
  - reflexivity.
  - reflexivity.
  - lia.
  - reflexivity.
  - reflexivity.
Defined.

(** ** The projection of the last steps *)

Lemma slice_from_nat (n k : nat) :
  slice_start n (from (Z.of_nat k)) = Nat.min k n
  /\ slice_len n (from (Z.of_nat k)) = n - k.
Proof.
  unfold slice_len, slice_start, slice_stop, from. cbn [sl_start sl_stop sl_step].
  rewrite norm_bound_nat, Nat.add_sub, Nat.div_1_r. lia.
Qed.

(** X4. With [pred_len <= 0] the slice [-pred_len:] does not select the
    last steps: for [pred_len = 0] it is the whole sequence, so all [T] steps
    are projected, and for [pred_len = -k] the first [k] steps are dropped and
    the remaining [T - k] are projected. *)
Theorem Transformer_project_nonpositive_pred_len
        (self : Transformer.t) (f : Tensor R) (b T : nat) :
  let proj := Transformer.projection self in
  let k := Z.to_nat (- Transformer.pred_len self) in
  shape f = [b; T; Linear.in_features proj] ->
  (Transformer.pred_len self <= 0)%Z ->
  exists o, Transformer.project self f = Ok o
    /\ shape o = [b; T - k; Linear.out_features proj]
    /\ forall i t c, t < T - k ->
         get o [i; t; c] = linear_at proj (fun j => get f [i; k + t; j]) c.
Proof.
  intros proj k Hf Hp. unfold Transformer.project.
  assert (Hk : (- Transformer.pred_len self)%Z = Z.of_nat k) by (unfold k; lia).
  destruct (slice_from_nat T k) as [Hstart Hlen].
  rewrite Hk, (getitem3 f _ _ _ _ _ _ Hf). cbn [rbind].
  match goal with
  | |- context [Linear.forward _ ?t] =>
      destruct (Linear_forward_shape proj t [b; T - k]) as (o & Hfo & Hos & Hov)
  end.
  { cbn [shape app]. rewrite !slice_len_full, Hlen. reflexivity. }
  fold proj. rewrite Hfo. exists o. split; [reflexivity|]. split; [exact Hos|].
  intros i t c Ht. rewrite Hov. cbn zeta. unfold linear_at.
  cbn [last removelast app get sliced_index].
  unfold slice_pos. rewrite Hstart.
  unfold slice_start, full_slice, from. cbn [sl_start sl_step Nat.add].
  rewrite !Nat.mul_1_r.
  replace (Nat.min k T) with k by lia.
  assert (Es : big_sum (Linear.in_features proj)
                 (fun j => Rmult (get f [i; k + t; j * 1]) (get (Linear.weight proj) [c; j]))
               = big_sum (Linear.in_features proj)
                   (fun j => Rmult (get f [i; k + t; j]) (get (Linear.weight proj) [c; j]))).
  { apply big_sum_ext. intros j _. rewrite Nat.mul_1_r. reflexivity. }
  rewrite Es. reflexivity.
Qed.

Lemma Transformer_project_nonpositive_pred_len_witness :
  exists o,
    Transformer.project
      (Transformer.mk sample_encoder sample_decoder
         (sample_linear 1 2 true) (sample_linear 1 2 true) (sample_linear 2 1 false)
         false None "basic_attn" 0)
      (zeros [2; 3; 2]) = Ok o
    /\ shape o = [2; 3 - 0; 1]
    /\ forall i t c, t < 3 - 0 ->
         get o [i; t; c]
         = linear_at (sample_linear 2 1 false) (fun j => get (zeros [2; 3; 2]) [i; 0 + t; j]) c.
Proof.
  apply (Transformer_project_nonpositive_pred_len
           (Transformer.mk sample_encoder sample_decoder
              (sample_linear 1 2 true) (sample_linear 1 2 true) (sample_linear 2 1 false)
              false None "basic_attn" 0)
           (zeros [2; 3; 2]) 2 3).
  - reflexivity.
  - cbn. lia.
Defined.

(** ** Positional encoding on inputs of another width *)

(** The addition of the sliced table to an input of any width. *)
Lemma PositionalEncoding_forward_widths (pe : PositionalEncoding.t) (X : Tensor R)
      (b T dx d max_len : nat) :
  shape (PositionalEncoding.P pe) = [1; max_len; d] -> shape X = [b; T; dx] ->
  T <= max_len ->
  PositionalEncoding.forward pe X =
  if (dx =? d) || (dx =? 1) || (d =? 1)
  then Ok (mkTensor
             [b; T; if dx =? d then dx else if dx =? 1 then d else dx]
             (fun idx =>
                Rplus (get X (bcast_index [b; T; dx] idx))
                      (get (PositionalEncoding.P pe)
                         (sliced_index [1; max_len; d]
                            [full_slice; upto (Z.of_nat T); full_slice]
                            (bcast_index [1; T; d] idx)))))
  else Raise RuntimeError.
Proof.
  intros HP HX HT. unfold PositionalEncoding.forward, size, getitem, tadd, map2.
  rewrite HX, HP. cbn [nth_error rbind length Nat.ltb Nat.leb shape sliced_shape].
  rewrite !slice_len_full, slice_len_upto.
  replace (Nat.min T max_len) with T by lia.
  unfold broadcast_shapes. cbn [rev app broadcast_rev].
  rewrite !Nat.eqb_refl.
  assert (Eb : (if b =? 1 then Ok [b] else if b =? 1 then Ok [1] else Ok [b])
               = Ok [b]).
  { destruct (Nat.eqb_spec b 1); reflexivity. }
  rewrite Eb.
  destruct (dx =? d); cbn [orb rbind rev app get]; [reflexivity|].
  destruct (dx =? 1); cbn [orb rbind rev app get]; [reflexivity|].
  destruct (d =? 1); cbn [orb rbind rev app get]; reflexivity.
Qed.

(** X6. An input whose last dimension has size one is accepted whatever
    the width of the table: it is broadcast to that width, every feature
    of a position being the single input value plus the encoding.  An input
    of any other width than the table's is refused with the size-mismatch
    error (unless the table itself has width one). *)
Theorem PositionalEncoding_forward_other_width
        (d_hid max_len : nat) (pe : PositionalEncoding.t) (X : Tensor R) (b T dx : nat) :
  PositionalEncoding.init d_hid max_len = Ok pe ->
  shape X = [b; T; dx] -> T <= max_len ->
  (dx = 1 ->
   exists out, PositionalEncoding.forward pe X = Ok out
     /\ shape out = [b; T; d_hid]
     /\ forall i t j, i < b -> t < T -> j < d_hid ->
          get out [i; t; j] = Rplus (get X [i; t; 0]) (sinusoid d_hid t j))
  /\ (dx <> d_hid -> dx <> 1 -> d_hid <> 1 ->
      PositionalEncoding.forward pe X = Raise RuntimeError).
Proof.
  intros Hinit HX HT.
  destruct (PositionalEncoding_init_shape _ _ _ Hinit) as [HP HPv].
  rewrite (PositionalEncoding_forward_widths pe X b T dx d_hid max_len HP HX HT).
  split.
  - intros ->. replace ((1 =? d_hid) || (1 =? 1) || (d_hid =? 1)) with true
      by (cbn [Nat.eqb]; rewrite orb_true_r; reflexivity).
    eexists. split; [reflexivity|]. split.
    + cbn [shape]. destruct (Nat.eqb_spec 1 d_hid) as [<-|_]; reflexivity.
    + intros i t j Hi Ht Hj.
      cbn [get bcast_index length Nat.sub skipn combine map sliced_index].
      rewrite (bcast_dim _ _ Hi), (bcast_dim _ _ Ht), (bcast_dim _ _ Hj).
      cbn [Nat.eqb].
      unfold slice_pos, slice_start, full_slice, upto. cbn [sl_start sl_step Nat.add].
      rewrite !Nat.mul_1_r. cbn [Nat.mul]. rewrite HPv by lia. reflexivity.
  - intros H1 H2 H3.
    destruct (Nat.eqb_spec dx d_hid); [contradiction|].
    destruct (Nat.eqb_spec dx 1); [contradiction|].
    destruct (Nat.eqb_spec d_hid 1); [contradiction|]. reflexivity.
Qed.

Lemma PositionalEncoding_forward_other_width_witness :
  exists pe,
    PositionalEncoding.init 4 3 = Ok pe
    /\ (exists out, PositionalEncoding.forward pe (ones [1; 2; 1]) = Ok out
          /\ shape out = [1; 2; 4]
          /\ forall i t j, i < 1 -> t < 2 -> j < 4 ->
               get out [i; t; j] = Rplus (get (ones [1; 2; 1]) [i; t; 0]) (sinusoid 4 t j))
    /\ PositionalEncoding.forward pe (ones [1; 2; 3]) = Raise RuntimeError.
Proof.
  eexists. split; [reflexivity|]. split.
  - apply (proj1 (PositionalEncoding_forward_other_width 4 3 _ (ones [1; 2; 1]) 1 2 1
                    eq_refl eq_refl ltac:(lia))). reflexivity.
  - apply (proj2 (PositionalEncoding_forward_other_width 4 3 _ (ones [1; 2; 3]) 1 2 3
                    eq_refl eq_refl ltac:(lia))); lia.
Defined.

(** ** The feed-forward network *)

Lemma Linear_forward_at (l : Linear.t) (x y : Tensor R) (pos : list nat) (o : nat) :
  Linear.forward l x = Ok y ->
  get y (pos ++ [o]) = linear_at l (fun j => get x (pos ++ [j])) o.
Proof.
  unfold Linear.forward. destruct (shape x); [discriminate|].
  destruct (_ =? _); [|discriminate].
  intros H. injection H as <-. cbn [get]. unfold linear_at.
  rewrite removelast_last, last_last. reflexivity.
Qed.

Lemma linear_at_ext (l : Linear.t) (row row' : nat -> R) (o : nat) :
  (forall j, j < Linear.in_features l -> row j = row' j) ->
  linear_at l row o = linear_at l row' o.
Proof.
  intros H. unfold linear_at.
  rewrite (big_sum_ext _ _ (fun j => Rmult (row' j) (get (Linear.weight l) [o; j]))).
  - reflexivity.
  - intros j Hj. rewrite (H j Hj). reflexivity.
Qed.

(** X7. The feed-forward network works position by position: whenever
    two inputs carry the same features at one position, the two outputs
    carry the same features at that position, whatever the inputs hold
    elsewhere. *)
Theorem PoswiseFeedForwardNet_forward_positionwise
        (self : PoswiseFeedForwardNet.t) (x x' y y' : Tensor R) (pos : list nat) :
  PoswiseFeedForwardNet.forward self x = Ok y ->
  PoswiseFeedForwardNet.forward self x' = Ok y' ->
  (forall j, j < Linear.in_features (PoswiseFeedForwardNet.w_1 self) ->
             get x (pos ++ [j]) = get x' (pos ++ [j])) ->
  forall o, get y (pos ++ [o]) = get y' (pos ++ [o]).
Proof.
  unfold PoswiseFeedForwardNet.forward. intros Hy Hy' Hrow o.
  destruct (Linear.forward (PoswiseFeedForwardNet.w_1 self) x) as [h|] eqn:Hh;
    [|discriminate].
  destruct (Linear.forward (PoswiseFeedForwardNet.w_1 self) x') as [h'|] eqn:Hh';
    [|discriminate].
  cbn [rbind] in Hy, Hy'.
  rewrite (Linear_forward_at _ _ _ pos o Hy), (Linear_forward_at _ _ _ pos o Hy').
  apply linear_at_ext. intros j _. cbn [relu tmap get].
  rewrite (Linear_forward_at _ _ _ pos j Hh), (Linear_forward_at _ _ _ pos j Hh').
  f_equal. apply linear_at_ext. exact Hrow.
Qed.

Lemma PoswiseFeedForwardNet_forward_positionwise_witness :
  exists y y',
    PoswiseFeedForwardNet.forward sample_ffn (zeros [1; 2; 2]) = Ok y
    /\ PoswiseFeedForwardNet.forward sample_ffn
         (mkTensor [1; 2; 2] (fun idx => INR (nth 1 idx 0))) = Ok y'
    /\ forall o, get y ([0; 0] ++ [o]) = get y' ([0; 0] ++ [o]).
Proof.
  eexists. eexists. split; [reflexivity|]. split; [reflexivity|].
  apply (PoswiseFeedForwardNet_forward_positionwise sample_ffn
           (zeros [1; 2; 2]) (mkTensor [1; 2; 2] (fun idx => INR (nth 1 idx 0)))).
  - reflexivity.
  - reflexivity.
  - intros j _. reflexivity.
Defined.

Lemma uniform_within (lo hi u : R) :
  Rle lo hi -> Rle 0 u -> Rle u 1 ->
  Rle lo (lo + (hi - lo) * u) /\ Rle (lo + (hi - lo) * u) hi.
Proof.
  intros H H0 H1.
  assert (Rle 0 ((hi - lo) * u)) by (apply Rmult_le_pos; lra).
  assert (Rle ((hi - lo) * u) ((hi - lo) * 1))
    by (apply Rmult_le_compat_l; lra).
  lra.
Qed.

(** X8. Construction of the feed-forward network re-initialises the
    weights of both linear layers: whatever the state of the generator,
    every weight of the first layer (d_ff x d_model) and of the second
    (d_model x d_ff) lies within [1 / sqrt d_model] of zero, given that
    the generator yields uniform samples of the unit interval. *)
Theorem PoswiseFeedForwardNet_init_weights (d_model d_ff : nat) (st : State) :
  1 <= d_model ->
  (forall k, Rle 0 (uniform_at (torch_rng (rngs st)) k)
             /\ Rle (uniform_at (torch_rng (rngs st)) k) 1) ->
  exists self st',
    PoswiseFeedForwardNet.init d_model d_ff st = (Ok self, st')
    /\ shape (Linear.weight (PoswiseFeedForwardNet.w_1 self)) = [d_ff; d_model]
    /\ shape (Linear.weight (PoswiseFeedForwardNet.w_2 self)) = [d_model; d_ff]
    /\ forall idx,
         Rle (Rabs (get (Linear.weight (PoswiseFeedForwardNet.w_1 self)) idx))
             (1 / sqrt (INR d_model))
         /\ Rle (Rabs (get (Linear.weight (PoswiseFeedForwardNet.w_2 self)) idx))
                (1 / sqrt (INR d_model)).
Proof.
  intros Hd Hu.
  assert (Hb : Rle 0 (1 / sqrt (INR d_model))).
  { apply Rlt_le, Rdiv_lt_0_compat; [lra|]. apply sqrt_lt_R0, lt_0_INR. lia. }
  cbv beta iota zeta delta [PoswiseFeedForwardNet.init PoswiseFeedForwardNet.reinit
                             Linear.init uniform bind ret].
  eexists. eexists. split; [reflexivity|].
  cbn [PoswiseFeedForwardNet.w_1 PoswiseFeedForwardNet.w_2 Linear.weight shape].
  split; [reflexivity|]. split; [reflexivity|].
  intros idx. cbn [get advance uniform_at torch_rng rngs set_torch_rng].
  split; apply Rabs_le;
    match goal with
    | |- (_ <= ?lo + (?hi - ?lo) * uniform_at _ ?k <= _)%R =>
        destruct (Hu k) as [H0 H1];
        destruct (uniform_within lo hi (uniform_at (torch_rng (rngs st)) k)
                    ltac:(lra) H0 H1);
        split; assumption
    end.
Qed.

Lemma PoswiseFeedForwardNet_init_weights_witness :
  exists self st',
    PoswiseFeedForwardNet.init 4 8 initial_state = (Ok self, st')
    /\ shape (Linear.weight (PoswiseFeedForwardNet.w_1 self)) = [8; 4]
    /\ shape (Linear.weight (PoswiseFeedForwardNet.w_2 self)) = [4; 8]
    /\ forall idx,
         Rle (Rabs (get (Linear.weight (PoswiseFeedForwardNet.w_1 self)) idx))
             (1 / sqrt (INR 4))
         /\ Rle (Rabs (get (Linear.weight (PoswiseFeedForwardNet.w_2 self)) idx))
                (1 / sqrt (INR 4)).
Proof.
  apply (PoswiseFeedForwardNet_init_weights 4 8 initial_state).
  - lia.
  - intros k. cbn. lra.
Defined.

(** ** The process model on inputs its layers refuse *)

(** The start of a forward call without target and without Gaussian
    process: the noise is drawn, scaled and written into the object [x]. *)
Lemma process_model_forward_start {E : Externals}
      (self : process_model.t) (x : loc) (st : State) (xv : Tensor R) :
  process_model.gp self = false ->
  nth_error (heap st) x = Some xv ->
  exists xn st1,
    tadd xv (smul (draw (torch_rng (rngs st)) (shape xv)) (1 / 10)) = Ok xn
    /\ shape xn = shape xv
    /\ nth_error (heap st1) x = Some xn
    /\ process_model.forward self x None st
       = match process_model.channel_first (process_model.encoder self) xn with
         | Ok h =>
             (musig <- lift (Linear.forward (process_model.musig self) h) ;;
              mu <- lift (getitem musig [full_slice; full_slice;
                                         upto (Z.of_nat (process_model.d self))]) ;;
              sigma <- lift (getitem musig [full_slice; full_slice;
                                            from (- Z.of_nat (process_model.d self))]) ;;
              r <- randn_like sigma ;;
              sr <- lift (tmul (texp (smul sigma (1 / 2))) r) ;;
              z <- lift (tadd mu sr) ;;
              y <- lift (process_model.channel_first (process_model.decoder self) z) ;;
              xv <- load x ;;
              yx <- lift (tadd y xv) ;;
              output <- lift (LayerNorm.forward (process_model.norm self) yx) ;;
              kl_loss <- ret (PyInt 0) ;;
              ret (output, kl_loss))%M st1
         | Raise e => (Raise e, st1)
         end.
Proof.
  intros Hgp Hx. unfold process_model.forward.
  rewrite (bind_load _ _ _ _ Hx), bind_randn_like.
  unfold process_model.target_stats, process_model.noise_term. rewrite Hgp.
  rewrite (bind_lift_ok _ _ _ _ eq_refl), (bind_lift_ok _ _ _ _ eq_refl).
  set (eps := smul _ _).
  assert (Hadd : tadd xv eps
                 = Ok (mkTensor (shape xv) (fun idx =>
                         Rplus (get xv (bcast_index (shape xv) idx))
                               (get eps (bcast_index (shape xv) idx)))))
    by (apply map2_same; reflexivity).
  set (st1 := set_torch_rng _ st).
  assert (Hx1 : nth_error (heap st1) x = Some xv) by exact Hx.
  rewrite (bind_add_ x xv eps _ _ st1 Hx1 Hadd) by reflexivity.
  set (st2 := mkState _ _ _).
  assert (Hx2 : nth_error (heap st2) x = Some _)
    by (apply (nth_error_update _ _ xv); exact Hx).
  rewrite (bind_load _ _ _ _ Hx2).
  eexists. exists st2. split; [exact Hadd|]. split; [reflexivity|].
  split; [exact Hx2|].
  unfold bind at 1, lift.
  destruct (process_model.channel_first _ _); reflexivity.
Qed.

(** X9. Without Gaussian process and without target, an input that is
    not three-dimensional makes the call raise the backend's error at the
    first permutation; the noise has been added in place before, so the
    caller's tensor is left modified although the call failed. *)
Theorem process_model_forward_not_3d {E : Externals}
        (self : process_model.t) (x : loc) (st : State) (xv : Tensor R) :
  process_model.gp self = false ->
  nth_error (heap st) x = Some xv ->
  length (shape xv) <> 3 ->
  exists xn st',
    process_model.forward self x None st = (Raise RuntimeError, st')
    /\ tadd xv (smul (draw (torch_rng (rngs st)) (shape xv)) (1 / 10)) = Ok xn
    /\ nth_error (heap st') x = Some xn.
Proof.
  intros Hgp Hx Hlen.
  destruct (process_model_forward_start self x st xv Hgp Hx)
    as (xn & st1 & Hadd & Hs & Hx1 & Hrun).
  exists xn, st1. split; [|split; assumption].
  rewrite Hrun. unfold process_model.channel_first, permute. rewrite Hs.
  cbn [length]. destruct (Nat.eqb_spec 3 (length (shape xv))); [congruence|].
  reflexivity.
Qed.

Lemma process_model_forward_not_3d_witness :
  exists xn st',
    @process_model.forward sample_externals (sample_process_model false) 0 None
      (state_with (zeros [2; 2]) sample_tape)
    = (Raise RuntimeError, st')
    /\ tadd (zeros [2; 2])
            (smul (draw (mkGenerator 0 sample_tape (fun _ => 0%R)) [2; 2]) (1 / 10))
       = Ok xn
    /\ nth_error (heap st') 0 = Some xn.
Proof.
  apply (@process_model_forward_not_3d sample_externals (sample_process_model false) 0
           (state_with (zeros [2; 2]) sample_tape) (zeros [2; 2])).
  - reflexivity.
  - reflexivity.
  - cbn. lia.
Defined.

Lemma process_model_init_fresh {E : Externals} (gp : bool) (d : nat) (st st' : State)
      (self : process_model.t) :
  process_model.init gp d st = (Ok self, st') ->
  process_model.gp self = gp
  /\ process_model.d self = d
  /\ exists c1 c2,
       process_model.encoder self
       = [LConv1d c1; LConv1d c2; LBatchNorm1d (BatchNorm1d.init d); LSoftmax (-1)]
       /\ conv_wf d c1 /\ conv_wf d c2.
Proof.
  unfold process_model.init, process_model.conv_stack, Conv1d.init, Linear.init.
  intros H. destruct gp; cbn in H; injection H as <- _;
    (split; [reflexivity|]; split; [reflexivity|];
     eexists; eexists; split; [reflexivity|]; repeat split).
Qed.

(** X10. A freshly constructed process model (without Gaussian process)
    is in training mode, and on one sequence with one time step its batch
    normalisation has a single value per channel: the call raises a value
    error, again after the input was noised in place. *)
Theorem process_model_forward_single_value {E : Externals}
        (d : nat) (st0 st1 : State) (self : process_model.t)
        (x : loc) (st : State) (xv : Tensor R) :
  1 <= d ->
  process_model.init false d st0 = (Ok self, st1) ->
  nth_error (heap st) x = Some xv -> shape xv = [1; 1; d] ->
  exists xn st',
    process_model.forward self x None st = (Raise ValueError, st')
    /\ tadd xv (smul (draw (torch_rng (rngs st)) [1; 1; d]) (1 / 10)) = Ok xn
    /\ nth_error (heap st') x = Some xn.
Proof.
  intros _ Hinit Hx Hxs.
  destruct (process_model_init_fresh false d st0 st1 self Hinit)
    as (Hgp & Hd & c1 & c2 & Henc & Hc1 & Hc2).
  destruct (process_model_forward_start self x st xv Hgp Hx)
    as (xn & st' & Hadd & Hs & Hx1 & Hrun).
  rewrite Hxs in Hadd, Hs.
  exists xn, st'. split; [|split; assumption].
  rewrite Hrun. unfold process_model.channel_first.
  rewrite (permute_021 xn 1 1 d Hs). cbn [rbind]. rewrite Henc.
  cbn [Sequential_forward Layer_forward].
  match goal with
  | |- context [Conv1d.forward c1 ?t] =>
      destruct (Conv1d_forward_shape c1 t 1 d 1 Hc1 eq_refl (le_n 1)) as (y1 & -> & Hy1)
  end.
  cbn [rbind].
  destruct (Conv1d_forward_shape c2 y1 1 d 1 Hc2 Hy1 (le_n 1)) as (y2 & -> & Hy2).
  cbn [rbind]. unfold BatchNorm1d.forward. rewrite Hy2.
  cbn [BatchNorm1d.init BatchNorm1d.num_features BatchNorm1d.training].
  rewrite Nat.eqb_refl. reflexivity.
Qed.

Lemma process_model_forward_single_value_witness :
  exists self st1 xn st',
    @process_model.init sample_externals false 2 initial_state = (Ok self, st1)
    /\ @process_model.forward sample_externals self 0 None
         (state_with (zeros [1; 1; 2]) sample_tape)
       = (Raise ValueError, st')
    /\ tadd (zeros [1; 1; 2])
            (smul (draw (mkGenerator 0 sample_tape (fun _ => 0%R)) [1; 1; 2]) (1 / 10))
       = Ok xn
    /\ nth_error (heap st') 0 = Some xn.
Proof.
  eexists. eexists.
  destruct (@process_model_forward_single_value sample_externals 2 initial_state _ _ 0
              (state_with (zeros [1; 1; 2]) sample_tape) (zeros [1; 1; 2])
              ltac:(lia) eq_refl eq_refl eq_refl) as (xn & st' & Hrun & Hadd & Hx).
  exists xn, st'. split; [reflexivity|]. split; [exact Hrun|]. split; assumption.
Defined.

(** ** What a call leaves of the record of strategy runs *)

Section Preserved.

Variable Rel : State -> State -> Prop.
Hypothesis Rel_refl : forall s, Rel s s.
Hypothesis Rel_trans : forall s1 s2 s3, Rel s1 s2 -> Rel s2 s3 -> Rel s1 s3.

Lemma preserved_ret {A} (a : A) : preserved Rel (ret a).
Proof. intros st. apply Rel_refl. Qed.

Lemma preserved_lift {A} (r : result A) : preserved Rel (lift r).
Proof. intros st. apply Rel_refl. Qed.

Lemma preserved_bind {A B} (c : M A) (k : A -> M B) :
  preserved Rel c -> (forall a, preserved Rel (k a)) -> preserved Rel (bind c k).
Proof.
  intros Hc Hk st. unfold bind. specialize (Hc st).
  destruct (c st) as [[a|e] s1]; cbn [snd] in *.
  - eapply Rel_trans; [exact Hc | apply Hk].
  - exact Hc.
Qed.

End Preserved.

Lemma same_calls_refl (s : State) : same_calls s s.
Proof. reflexivity. Qed.

Lemma same_calls_trans (s1 s2 s3 : State) :
  same_calls s1 s2 -> same_calls s2 s3 -> same_calls s1 s3.
Proof. unfold same_calls. congruence. Qed.

Lemma preserved_load (y : loc) : preserved same_calls (load y).
Proof.
  intros st. unfold load. destruct (nth_error (heap st) y); reflexivity.
Qed.

Lemma preserved_randn (s : list nat) : preserved same_calls (randn s).
Proof. intros st. reflexivity. Qed.

Lemma preserved_add_ (x : loc) (other : Tensor R) :
  preserved same_calls (add_ x other).
Proof.
  unfold add_.
  apply (preserved_bind _ same_calls_trans); [apply preserved_load|]. intros xv.
  apply (preserved_bind _ same_calls_trans);
    [apply (preserved_lift _ same_calls_refl)|]. intros r.
  destruct (list_eq_dec Nat.eq_dec (shape r) (shape xv));
    [|apply (preserved_lift _ same_calls_refl)].
  apply (preserved_bind _ same_calls_trans);
    [|intros; apply (preserved_ret _ same_calls_refl)].
  intros st. reflexivity.
Qed.

Ltac same_calls_step :=
  lazymatch goal with
  | |- preserved _ (bind _ _) =>
      apply (preserved_bind _ same_calls_trans); [|intros]
  | |- preserved _ (ret _) => apply (preserved_ret _ same_calls_refl)
  | |- preserved _ (lift _) => apply (preserved_lift _ same_calls_refl)
  | |- preserved _ (load _) => apply preserved_load
  | |- preserved _ (randn_like _) => apply preserved_randn
  | |- preserved _ (add_ _ _) => apply preserved_add_
  | |- preserved _ (match ?o with Some _ => _ | None => _ end) => destruct o as [[[? ?] ?]|]
  end.

(** The process model runs no attention strategy. *)
Lemma preserved_process_model_forward {E : Externals}
      (self : process_model.t) (x : loc) (target : option (Tensor R)) :
  preserved same_calls (process_model.forward self x target).
Proof.
  unfold process_model.forward.
  repeat same_calls_step.
Qed.

(** ** The strategy runs of the encoder and of a whole forward call *)

Lemma EncoderLayer_forward_calls {E : Externals} (self : EncoderLayer.t)
      (enc_inputs : Tensor R) (st : State) :
  post (EncoderLayer.forward self enc_inputs None)
       (fun r s' =>
          heap s' = heap st
          /\ ((attn_calls s' = attn_calls st /\ exists e, r = Raise e)
              \/ exists m, attn_calls s' = attn_calls st ++ [(m, None)])) st.
Proof.
  unfold EncoderLayer.forward. apply post_bind.
  eapply post_weaken; [apply MultiHeadAttention_forward_calls|].
  intros r s [Hh [[Hc [e ->]] | (m & mask' & Hc & _ & Hm)]].
  { split; [assumption|]. left. eauto. }
  cbn [per_head] in Hm. injection Hm as <-.
  assert (Ran : forall r : result (Tensor R * Tensor R),
             heap s = heap st
             /\ ((attn_calls s = attn_calls st /\ exists e, r = Raise e)
                 \/ exists m, attn_calls s = attn_calls st ++ [(m, None)])).
  { intros r'. split; [assumption|]. right. eauto. }
  destruct r as [[out attn]|e]; [|apply Ran].
  do 5 (post_step; [|apply Ran]).
  post_step. apply Ran.
Qed.

Lemma Encoder_run_calls {E : Externals} (layers : list EncoderLayer.t) :
  forall (enc_outputs : Tensor R) (acc : list (Tensor R)) (st : State),
    post (Encoder.run layers enc_outputs None acc)
         (fun r s' =>
            heap s' = heap st
            /\ exists new, attn_calls s' = attn_calls st ++ new
                 /\ Forall unmasked new /\ length new <= length layers
                 /\ forall out attns, r = Ok (out, attns) ->
                      length new = length layers
                      /\ length attns = length acc + length layers) st.
Proof.
  induction layers as [|layer rest IH]; intros; cbn [Encoder.run length].
  - apply post_ret. split; [reflexivity|]. exists []. rewrite app_nil_r.
    split; [reflexivity|]. split; [constructor|]. split; [cbn; lia|].
    intros out attns H. injection H as _ <-. cbn [length]. lia.
  - apply post_bind.
    eapply post_weaken; [apply EncoderLayer_forward_calls|].
    intros r s [Hh [[Hc [e ->]] | (m & Hc)]].
    { split; [assumption|]. exists []. rewrite app_nil_r.
      split; [assumption|]. split; [constructor|]. split; [cbn; lia|].
      discriminate. }
    destruct r as [[out attn]|e].
    + eapply post_weaken; [apply IH|].
      intros r' s' (Hh' & new' & Hc' & Hu & Hle & Hok).
      split; [congruence|]. exists ((m, None) :: new').
      split; [rewrite Hc', Hc, <- app_assoc; reflexivity|].
      split; [constructor; [reflexivity | assumption]|].
      split; [cbn [length]; lia|].
      intros out' attns H. destruct (Hok _ _ H) as [Hn Ha].
      rewrite Ha, length_app. cbn [length]. lia.
    + split; [assumption|]. exists [(m, None)].
      split; [assumption|]. split; [repeat constructor|]. split; [cbn; lia|].
      discriminate.
Qed.

Lemma Encoder_forward_calls {E : Externals}
      (self : Encoder.t) (enc_input : Tensor R) (st : State) :
  post (Encoder.forward self enc_input)
       (encoder_calls (length (Encoder.layers self)) st) st.
Proof.
  unfold Encoder.forward. post_step.
  - eapply post_weaken; [apply Encoder_run_calls|].
    intros r s (Hh & new & Hc & Hu & Hle & Hok).
    split; [assumption|]. exists new.
    split; [assumption|]. split; [assumption|]. split; [assumption|].
    intros out attns H. exact (Hok _ _ H).
  - split; [reflexivity|]. exists []. rewrite app_nil_r.
    split; [reflexivity|]. split; [constructor|]. split; [cbn; lia|].
    discriminate.
Qed.

(** X12. The encoder never masks: each layer reached runs exactly one
    attention strategy, without mask; when the call returns, every layer
    has run and one attention tensor per layer is returned.  The tensor
    objects are left as they were. *)
Theorem Encoder_forward_unmasked {E : Externals}
        (self : Encoder.t) (enc_input : Tensor R) (st : State) :
  post (Encoder.forward self enc_input)
       (encoder_calls (length (Encoder.layers self)) st) st.
Proof. apply Encoder_forward_calls. Qed.

Lemma Decoder_forward_calls {E : Externals}
      (self : Decoder.t) (dec_inputs enc_outputs : Tensor R)
      (B T : nat) (rest : list nat) (st : State) :
  shape dec_inputs = B :: T :: rest ->
  post (Decoder.forward self dec_inputs enc_outputs)
       (stack_calls B T (length (Decoder.layers self)) st) st.
Proof.
  intros Hs.
  destruct (get_attn_subsequent_mask_spec dec_inputs _ _ _ Hs) as (m & Hm & Hms & Hmv).
  unfold Decoder.forward. post_step.
  - rewrite Hm. apply post_bind_lift.
    apply Decoder_run_calls; assumption.
  - split; [reflexivity|]. exists []. rewrite app_nil_r.
    split; [reflexivity|]. split; [constructor | discriminate].
Qed.

Lemma Linear_forward_ok_shape (l : Linear.t) (x y : Tensor R) :
  Linear.forward l x = Ok y ->
  shape y = removelast (shape x) ++ [Linear.out_features l].
Proof.
  unfold Linear.forward. destruct (shape x); [discriminate|].
  destruct (_ =? _); [|discriminate]. intros H. injection H as <-. reflexivity.
Qed.

Lemma post_bind_preserved {A B} (Rel : State -> State -> Prop)
      (c : M A) (k : A -> M B) (Q : result B -> State -> Prop) (st : State) :
  preserved Rel c ->
  (forall a s', Rel st s' -> post (k a) Q s') ->
  (forall e s', Rel st s' -> Q (Raise e) s') ->
  post (bind c k) Q st.
Proof.
  intros Hc Hk He. unfold post, bind. specialize (Hc st).
  destruct (c st) as [[a|e] s1]; cbn [snd] in Hc.
  - apply Hk. exact Hc.
  - apply He. exact Hc.
Qed.

Lemma post_bind_alloc {B} (t : Tensor R) (k : loc -> M B)
      (Q : result B -> State -> Prop) (st : State) :
  post (k (length (heap st))) Q (mkState (rngs st) (heap st ++ [t]) (attn_calls st)) ->
  post (bind (alloc t) k) Q st.
Proof. intros H. exact H. Qed.

(** The tail of a forward call, after encoder and decoder have run: the
    optional process model on a fresh object, then the projection. *)
Lemma Transformer_forward_tail {E : Externals} (self : Transformer.t)
      (dec_outputs : Tensor R) (target : option (Tensor R)) (st : State) :
  post (if Transformer.p_model self then
          (process <- lift (process_model.attr (Transformer.process self)) ;;
           x <- alloc dec_outputs ;;
           ' (outputs, kl_loss) <- process_model.forward process x target ;;
           outputs <- lift (Transformer.project self outputs) ;;
           ret (Pair outputs kl_loss))%M
        else
          (outputs <- lift (Transformer.project self dec_outputs) ;;
           ret (Single outputs))%M)
       (fun _ s' => attn_calls s' = attn_calls st) st.
Proof.
  destruct (Transformer.p_model self).
  - post_step; [|reflexivity].
    apply post_bind_alloc.
    set (s1 := mkState _ _ _).
    apply (post_bind_preserved same_calls).
    + apply preserved_process_model_forward.
    + intros [outputs kl_loss] s' Ho.
      post_step; [post_step|]; exact Ho.
    + intros e s' Ho. exact Ho.
  - post_step; [post_step|]; reflexivity.
Qed.

Lemma Transformer_forward_effects {E : Externals} (self : Transformer.t)
      (enc_inputs dec_inputs : Tensor R) (target : option (Tensor R))
      (B T F : nat) (st : State) :
  shape dec_inputs = [B; T; F] ->
  post (Transformer.forward self enc_inputs dec_inputs target)
       (forward_calls (length (Encoder.layers (Transformer.encoder self)))
                      (length (Decoder.layers (Transformer.decoder self))) B T st) st.
Proof.
  intros Hs.
  assert (Stop : forall e, forward_calls
                   (length (Encoder.layers (Transformer.encoder self)))
                   (length (Decoder.layers (Transformer.decoder self))) B T st
                   (@Raise Returned e) st).
  { intros e. exists [], []. rewrite !app_nil_r.
    split; [reflexivity|]. split; [constructor|]. split; [cbn; lia|].
    split; [constructor|]. split; [congruence | discriminate]. }
  unfold Transformer.forward.
  post_step; [|apply Stop].
  apply post_bind_lift.
  destruct (Linear.forward (Transformer.dec_embedding self) dec_inputs)
    as [dec_emb|e] eqn:Hemb; [|apply Stop].
  pose proof (Linear_forward_ok_shape _ _ _ Hemb) as Hde.
  rewrite Hs in Hde. cbn [removelast app] in Hde.
  apply post_bind.
  eapply post_weaken; [apply Encoder_forward_calls|].
  intros r s (Hh & new & Hc & Hu & Hle & Hok).
  destruct r as [[enc_outputs attns]|e].
  2:{ exists new, []. rewrite app_nil_r.
      split; [assumption|]. split; [assumption|]. split; [assumption|].
      split; [constructor|]. split; [congruence | discriminate]. }
  destruct (Hok _ _ eq_refl) as [Hn _].
  apply post_bind.
  eapply post_weaken; [apply (Decoder_forward_calls _ _ _ B T _ s Hde)|].
  intros r2 s2 (Hh2 & new2 & Hc2 & Hd & Hl2).
  assert (Hcalls : attn_calls s2 = attn_calls st ++ new ++ new2).
  { rewrite Hc2, Hc, <- app_assoc. reflexivity. }
  destruct r2 as [[[dec_outputs sa] ca]|e].
  2:{ exists new, new2.
      split; [assumption|]. split; [assumption|]. split; [assumption|].
      split; [assumption|]. split; [intros _; exact Hn | discriminate]. }
  eapply post_weaken; [apply Transformer_forward_tail|].
  intros r3 s3 Hc3. cbv beta in Hc3. exists new, new2.
  split; [congruence|]. split; [assumption|]. split; [assumption|].
  split; [assumption|]. split; [intros _; exact Hn|].
  intros ? _. split; [exact Hn | exact (Hl2 _ eq_refl)].
Qed.

(** X13. One forward call of the transformer on a decoder input of shape
    (B, T, F) runs, in this order: one unmasked strategy per encoder
    layer, then for each decoder layer its self-attention with the causal
    mask of size T and its cross-attention without mask.  The process
    model and the projection run no strategy; when the call returns, all of
    these runs have taken place. *)
Theorem Transformer_forward_strategy_runs {E : Externals} (self : Transformer.t)
        (enc_inputs dec_inputs : Tensor R) (target : option (Tensor R))
        (B T F : nat) (st : State) :
  shape dec_inputs = [B; T; F] ->
  post (Transformer.forward self enc_inputs dec_inputs target)
       (forward_calls (length (Encoder.layers (Transformer.encoder self)))
                      (length (Decoder.layers (Transformer.decoder self))) B T st) st.
Proof. apply Transformer_forward_effects. Qed.

Lemma Transformer_forward_strategy_runs_witness :
  post (@Transformer.forward sample_externals (sample_transformer true)
          (zeros [2; 3; 1]) (zeros [2; 2; 1]) None)
       (forward_calls (length (Encoder.layers (Transformer.encoder (sample_transformer true))))
                      (length (Decoder.layers (Transformer.decoder (sample_transformer true))))
                      2 2 initial_state) initial_state.
Proof.
  apply (@Transformer_forward_strategy_runs sample_externals (sample_transformer true)
           (zeros [2; 3; 1]) (zeros [2; 2; 1]) None 2 2 1 initial_state).
  reflexivity.
Defined.

(** ** Construction of the transformer *)

Lemma only_rngs_refl (s : State) : only_rngs s s.
Proof. split; reflexivity. Qed.

Lemma only_rngs_trans (s1 s2 s3 : State) :
  only_rngs s1 s2 -> only_rngs s2 s3 -> only_rngs s1 s3.
Proof. intros [H1 H2] [H3 H4]. split; congruence. Qed.

Lemma bind_ok {A B} (c : M A) (k : A -> M B) (st st1 : State) (a : A) :
  c st = (Ok a, st1) -> bind c k st = k a st1.
Proof. intros H. unfold bind. rewrite H. reflexivity. Qed.

Lemma bind_ret_l {A B} (a : A) (k : A -> M B) (st : State) :
  bind (ret a) k st = k a st.
Proof. reflexivity. Qed.

Lemma Linear_init_ok (i o : nat) (with_bias : bool) (st : State) :
  exists l st',
    Linear.init i o with_bias st = (Ok l, st')
    /\ Linear.in_features l = i /\ Linear.out_features l = o
    /\ (Linear.bias l = None <-> with_bias = false)
    /\ only_rngs st st'.
Proof.
  unfold Linear.init, uniform, bind, ret.
  destruct with_bias; eexists; eexists; (split; [reflexivity|]);
    cbn [Linear.in_features Linear.out_features Linear.bias];
    (split; [reflexivity|]); (split; [reflexivity|]);
    (split; [split; (discriminate || reflexivity) | split; reflexivity]).
Qed.

Lemma Conv1d_init_ok (i o k p : nat) (st : State) :
  exists c st', Conv1d.init i o k p st = (Ok c, st') /\ only_rngs st st'.
Proof.
  unfold Conv1d.init, uniform, bind, ret.
  eexists. eexists. split; [reflexivity|]. split; reflexivity.
Qed.

Ltac rngs_chain :=
  unfold only_rngs in *; cbn [heap attn_calls set_torch_rng] in *; intuition congruence.

Ltac run_ok H :=
  let a := fresh "a" in
  let s := fresh "s" in
  let Heq := fresh "Heq" in
  let Hr := fresh "Hr" in
  destruct H as (a & s & Heq & Hr);
  rewrite (bind_ok _ _ _ _ _ Heq).

Lemma MultiHeadAttention_init_ok (d_model d_k d_v n_heads : nat)
      (attn_type : string) (seed : Z) (st : State) :
  exists self st',
    MultiHeadAttention.init d_model d_k d_v n_heads attn_type seed st = (Ok self, st')
    /\ only_rngs st st'.
Proof.
  unfold MultiHeadAttention.init.
  run_ok (Linear_init_ok d_model (d_k * n_heads) false st).
  run_ok (Linear_init_ok d_model (d_k * n_heads) false s).
  run_ok (Linear_init_ok d_model (d_v * n_heads) false s0).
  run_ok (Linear_init_ok (n_heads * d_v) d_model false s1).
  eexists. eexists. split; [reflexivity|]. rngs_chain.
Qed.

Lemma PoswiseFeedForwardNet_init_ok (d_model d_ff : nat) (st : State) :
  exists self st',
    PoswiseFeedForwardNet.init d_model d_ff st = (Ok self, st') /\ only_rngs st st'.
Proof.
  unfold PoswiseFeedForwardNet.init, PoswiseFeedForwardNet.reinit.
  run_ok (Linear_init_ok d_model d_ff true st).
  run_ok (Linear_init_ok d_ff d_model true s).
  unfold uniform, bind, ret.
  eexists. eexists. split; [reflexivity|]. rngs_chain.
Qed.

Lemma EncoderLayer_init_ok (d_model d_ff d_k d_v n_heads : nat)
      (attn_type : string) (seed : Z) (st : State) :
  exists self st',
    EncoderLayer.init d_model d_ff d_k d_v n_heads attn_type seed st = (Ok self, st')
    /\ only_rngs st st'.
Proof.
  unfold EncoderLayer.init.
  run_ok (MultiHeadAttention_init_ok d_model d_k d_v n_heads attn_type seed st).
  run_ok (PoswiseFeedForwardNet_init_ok d_model d_ff s).
  eexists. eexists. split; [reflexivity|]. rngs_chain.
Qed.

Lemma DecoderLayer_init_ok (d_model d_ff d_k d_v n_heads : nat)
      (attn_type : string) (seed : Z) (st : State) :
  exists self st',
    DecoderLayer.init d_model d_ff d_k d_v n_heads attn_type seed st = (Ok self, st')
    /\ only_rngs st st'.
Proof.
  unfold DecoderLayer.init.
  run_ok (MultiHeadAttention_init_ok d_model d_k d_v n_heads attn_type seed st).
  run_ok (MultiHeadAttention_init_ok d_model d_k d_v n_heads attn_type seed s).
  run_ok (PoswiseFeedForwardNet_init_ok d_model d_ff s0).
  eexists. eexists. split; [reflexivity|]. rngs_chain.
Qed.

Lemma replicate_ok {A} (n : nat) (make : M A) :
  (forall st, exists a st', make st = (Ok a, st') /\ only_rngs st st') ->
  forall st, exists l st',
    replicate n make st = (Ok l, st') /\ length l = n /\ only_rngs st st'.
Proof.
  intros Hm. induction n as [|n IH]; intros st; cbn [replicate].
  - exists [], st. split; [reflexivity|]. split; [reflexivity | apply only_rngs_refl].
  - run_ok (Hm st).
    destruct (IH s) as (l & s' & Hl & Hlen & Hr').
    rewrite (bind_ok _ _ _ _ _ Hl).
    eexists. eexists. split; [reflexivity|]. cbn [length].
    split; [congruence | rngs_chain].
Qed.

Lemma process_model_init_ok {E : Externals} (gp : bool) (d : nat) (st : State) :
  exists self st', process_model.init gp d st = (Ok self, st') /\ only_rngs st st'.
Proof.
  unfold process_model.init, process_model.conv_stack.
  rewrite bind_assoc. run_ok (Conv1d_init_ok d d 3 ((3 - 1) / 2) st).
  rewrite bind_assoc. run_ok (Conv1d_init_ok d d 3 ((3 - 1) / 2) s).
  rewrite bind_ret_l.
  run_ok (Linear_init_ok d (2 * d) true s0).
  rewrite bind_assoc. run_ok (Conv1d_init_ok d d 3 ((3 - 1) / 2) s1).
  rewrite bind_assoc. run_ok (Conv1d_init_ok d d 3 ((3 - 1) / 2) s2).
  rewrite bind_ret_l.
  destruct gp.
  - rewrite bind_assoc. run_ok (Linear_init_ok 1 d true s3).
    rewrite bind_assoc. run_ok (Linear_init_ok 1 d true s4).
    eexists. eexists. split; [reflexivity|]. rngs_chain.
  - eexists. eexists. split; [reflexivity|]. rngs_chain.
Qed.

Lemma Encoder_init_ok (d_model d_ff d_k d_v n_heads n_layers : nat)
      (attn_type : string) (seed : Z) (pe : PositionalEncoding.t) (st : State) :
  PositionalEncoding.init d_model 1000 = Ok pe ->
  exists self st',
    Encoder.init d_model d_ff d_k d_v n_heads n_layers attn_type seed st = (Ok self, st')
    /\ length (Encoder.layers self) = n_layers
    /\ Encoder.pos_emb self = pe
    /\ only_rngs st st'.
Proof.
  intros Hpe. unfold Encoder.init.
  rewrite (bind_lift_ok _ _ _ _ Hpe).
  destruct (replicate_ok n_layers
              (EncoderLayer.init d_model d_ff d_k d_v n_heads attn_type seed)
              (EncoderLayer_init_ok d_model d_ff d_k d_v n_heads attn_type seed) st)
    as (l & s & Hl & Hlen & Hr).
  rewrite (bind_ok _ _ _ _ _ Hl).
  eexists. eexists. split; [reflexivity|].
  split; [exact Hlen|]. split; [reflexivity | exact Hr].
Qed.

Lemma Decoder_init_ok (d_model d_ff d_k d_v n_heads n_layers : nat)
      (attn_type : string) (seed : Z) (pe : PositionalEncoding.t) (st : State) :
  PositionalEncoding.init d_model 1000 = Ok pe ->
  exists self st',
    Decoder.init d_model d_ff d_k d_v n_heads n_layers attn_type seed st = (Ok self, st')
    /\ length (Decoder.layers self) = n_layers
    /\ Decoder.pos_emb self = pe
    /\ only_rngs st st'.
Proof.
  intros Hpe. unfold Decoder.init.
  rewrite (bind_lift_ok _ _ _ _ Hpe).
  destruct (replicate_ok n_layers
              (DecoderLayer.init d_model d_ff d_k d_v n_heads attn_type seed)
              (DecoderLayer_init_ok d_model d_ff d_k d_v n_heads attn_type seed) st)
    as (l & s & Hl & Hlen & Hr).
  rewrite (bind_ok _ _ _ _ _ Hl).
  eexists. eexists. split; [reflexivity|].
  split; [exact Hlen|]. split; [reflexivity | exact Hr].
Qed.


Lemma Transformer_init_ok {E : Externals}
      (src_input_size tgt_input_size : nat) (pred_len : Z)
      (d_model d_ff d_k d_v n_heads n_layers : nat)
      (attn_type : string) (seed : Z) (p_model gp : bool)
      (pe : PositionalEncoding.t) (st : State) :
  PositionalEncoding.init d_model 1000 = Ok pe ->
  exists self st',
    Transformer.init src_input_size tgt_input_size pred_len
      d_model d_ff d_k d_v n_heads n_layers attn_type seed p_model gp st = (Ok self, st')
    /\ length (Encoder.layers (Transformer.encoder self)) = n_layers
    /\ length (Decoder.layers (Transformer.decoder self)) = 1
    /\ Transformer.p_model self = p_model
    /\ (Transformer.process self = None <-> p_model = false)
    /\ Transformer.pred_len self = pred_len
    /\ Linear.in_features (Transformer.projection self) = d_model
    /\ Linear.out_features (Transformer.projection self) = 1
    /\ Linear.bias (Transformer.projection self) = None
    /\ (heap st' = heap st /\ attn_calls st' = attn_calls st)
    /\ Encoder.pos_emb (Transformer.encoder self) = pe
    /\ Linear.in_features (Transformer.enc_embedding self) = src_input_size
    /\ Linear.out_features (Transformer.enc_embedding self) = d_model.
Proof.
  intros Hpe.
  unfold Transformer.init.
  rewrite (bind_ok _ _ _ _ _ (eq_refl : Transformer.seed_everything seed st = (Ok tt, _))).
  set (s0 := mkState _ (heap st) (attn_calls st)).
  run_ok (Encoder_init_ok d_model d_ff d_k d_v n_heads n_layers attn_type seed pe s0 Hpe).
  run_ok (Decoder_init_ok d_model d_ff d_k d_v n_heads 1 attn_type seed pe s Hpe).
  run_ok (Linear_init_ok src_input_size d_model true s1).
  run_ok (Linear_init_ok tgt_input_size d_model true s2).
  run_ok (Linear_init_ok d_model 1 false s3).
  assert (H5 : heap s4 = heap st /\ attn_calls s4 = attn_calls st).
  { unfold s0 in *. rngs_chain. }
  destruct Hr as (Hel & Hep & _). destruct Hr0 as (Hdl & _).
  destruct Hr1 as (Hei & Heo & _).
  destruct Hr3 as (Hpi & Hpo & Hpb & _).
  destruct p_model.
  - rewrite bind_assoc. run_ok (process_model_init_ok gp d_model s4).
    eexists. eexists. split; [reflexivity|].
    cbn [Transformer.encoder Transformer.decoder Transformer.p_model Transformer.process
         Transformer.pred_len Transformer.projection Transformer.enc_embedding].
    split; [exact Hel|]. split; [exact Hdl|]. split; [reflexivity|].
    split; [split; discriminate|]. split; [reflexivity|].
    split; [exact Hpi|]. split; [exact Hpo|]. split; [tauto|].
    split; [rngs_chain|]. split; [exact Hep|]. split; assumption.
  - eexists. eexists. split; [reflexivity|].
    cbn [Transformer.encoder Transformer.decoder Transformer.p_model Transformer.process
         Transformer.pred_len Transformer.projection Transformer.enc_embedding].
    split; [exact Hel|]. split; [exact Hdl|]. split; [reflexivity|].
    split; [split; reflexivity|]. split; [reflexivity|].
    split; [exact Hpi|]. split; [exact Hpo|]. split; [tauto|].
    split; [rngs_chain|]. split; [exact Hep|]. split; assumption.
Qed.





(** ** Splitting into heads and merging them again *)

Lemma divmod_pos (q m r : nat) :
  r < m -> (q * m + r) / m = q /\ (q * m + r) mod m = r.
Proof.
  intros H. split; symmetry.
  - apply (Nat.div_unique _ m q r); lia.
  - apply (Nat.mod_unique _ m q r); lia.
Qed.

Lemma of_nat_not_hole (n : nat) :
  (Z.of_nat n <? -1)%Z = false /\ (Z.of_nat n =? -1)%Z = false.
Proof.
  split; [destruct (Z.ltb_spec (Z.of_nat n) (-1)) | destruct (Z.eqb_spec (Z.of_nat n) (-1))];
    (reflexivity || lia).
Qed.

(** [p.view(b, -1, h, d)] on a tensor of shape (b, T, h * d). *)
Lemma view_heads {A} (p : Tensor A) (b T h d : nat) :
  shape p = [b; T; h * d] -> 1 <= b -> 1 <= h -> 1 <= d ->
  view p [Z.of_nat b; (-1)%Z; Z.of_nat h; Z.of_nat d]
  = Ok (mkTensor [b; T; h; d]
          (fun idx => get p (unravel [b; T; h * d] (ravel [b; T; h; d] idx)))).
Proof.
  intros Hs Hb Hh Hd. unfold view. rewrite Hs.
  cbn [existsb filter length fold_right map numel].
  destruct (of_nat_not_hole b) as [-> ->].
  destruct (of_nat_not_hole h) as [-> ->].
  destruct (of_nat_not_hole d) as [-> ->].
  change ((-1 <? -1)%Z) with false. change ((-1 =? -1)%Z) with true.
  cbn [orb length Nat.ltb Nat.leb Nat.eqb]. rewrite !Nat2Z.id.
  assert (Hk : b * (h * (d * 1)) <> 0) by nia.
  assert (Hn : b * (T * (h * d * 1)) = T * (b * (h * (d * 1)))) by nia.
  rewrite Hn, Nat.Div0.mod_mul, Nat.div_mul by exact Hk.
  destruct (Nat.eqb_spec (b * (h * (d * 1))) 0); [contradiction|].
  cbn [orb negb Nat.eqb]. reflexivity.
Qed.

(** [c.view(b, -1, w)] on a tensor of shape (b, T, h, d) with [w = h * d]. *)
Lemma view_merged {A} (c : Tensor A) (b T h d : nat) :
  shape c = [b; T; h; d] -> 1 <= b -> 1 <= h -> 1 <= d ->
  view c [Z.of_nat b; (-1)%Z; Z.of_nat (h * d)]
  = Ok (mkTensor [b; T; h * d]
          (fun idx => get c (unravel [b; T; h; d] (ravel [b; T; h * d] idx)))).
Proof.
  intros Hs Hb Hh Hd. unfold view. rewrite Hs.
  cbn [existsb filter length fold_right map numel].
  destruct (of_nat_not_hole b) as [-> ->].
  destruct (of_nat_not_hole (h * d)) as [-> ->].
  change ((-1 <? -1)%Z) with false. change ((-1 =? -1)%Z) with true.
  cbn [orb length Nat.ltb Nat.leb Nat.eqb]. rewrite !Nat2Z.id.
  assert (Hk : b * (h * d * 1) <> 0) by nia.
  assert (Hn : b * (T * (h * (d * 1))) = T * (b * (h * d * 1))) by nia.
  rewrite Hn, Nat.Div0.mod_mul, Nat.div_mul by exact Hk.
  destruct (Nat.eqb_spec (b * (h * d * 1)) 0); [contradiction|].
  cbn [orb negb Nat.eqb]. reflexivity.
Qed.

Lemma transpose_12 {A} (t : Tensor A) (a b c d : nat) :
  shape t = [a; b; c; d] ->
  transpose 1 2 t
  = Ok (mkTensor [a; c; b; d] (fun idx => get t (swap_at 1 2 0 idx))).
Proof.
  intros Hs. unfold transpose. rewrite Hs. cbn [length].
  change 1%Z with (Z.of_nat 1). change 2%Z with (Z.of_nat 2).
  rewrite !norm_dim_nat by lia. reflexivity.
Qed.

(** Position (i, t, k, j) of the four-dimensional view is position
    (i, t, k * d + j) of the three-dimensional one, and conversely. *)
Lemma heads_index (b T h d i t k j : nat) :
  i < b -> t < T -> k < h -> j < d ->
  unravel [b; T; h * d] (ravel [b; T; h; d] [i; t; k; j]) = [i; t; k * d + j].
Proof.
  intros Hi Ht Hk Hj. cbn [ravel unravel numel fold_right].
  rewrite !Nat.mul_1_r, Nat.add_0_r, Nat.div_1_r.
  assert (Hf : k * d + j < h * d) by nia.
  replace (i * (T * (h * d)) + (t * (h * d) + (k * d + j)))
    with (i * (T * (h * d)) + (t * (h * d) + (k * d + j))) by reflexivity.
  destruct (divmod_pos i (T * (h * d)) (t * (h * d) + (k * d + j))) as [-> ->]; [nia|].
  destruct (divmod_pos t (h * d) (k * d + j) Hf) as [-> ->].
  reflexivity.
Qed.

Lemma merged_index (b T h d i t f : nat) :
  i < b -> t < T -> f < h * d -> 1 <= d ->
  unravel [b; T; h; d] (ravel [b; T; h * d] [i; t; f]) = [i; t; f / d; f mod d].
Proof.
  intros Hi Ht Hf Hd. cbn [ravel unravel numel fold_right].
  rewrite !Nat.mul_1_r, Nat.add_0_r, Nat.div_1_r.
  assert (Hf' : f < h * d) by exact Hf.
  assert (Hdm : f = f / d * d + f mod d)
    by (rewrite Nat.mul_comm; apply Nat.div_mod_eq).
  assert (Hmod : f mod d < d) by (apply Nat.mod_upper_bound; lia).
  destruct (divmod_pos i (T * (h * d)) (t * (h * d) + f)) as [-> ->]; [nia|].
  destruct (divmod_pos t (h * d) f Hf) as [-> ->].
  reflexivity.
Qed.

(** X17. Splitting a projection of shape (b, T, h * d) into heads gives
    shape (b, h, T, d), head [k] holding the features [k * d .. k * d + d - 1]
    of every position; transposing back and merging, as the code does
    with the context, restores the projection entry by entry. *)
Theorem MultiHeadAttention_heads_round_trip
        (W : Linear.t) (X p : Tensor R) (b T h d : nat) :
  Linear.forward W X = Ok p -> shape p = [b; T; h * d] ->
  1 <= b -> 1 <= h -> 1 <= d ->
  exists q c m,
    MultiHeadAttention.split_heads W X b h d = Ok q
    /\ shape q = [b; h; T; d]
    /\ (forall i k t j, i < b -> k < h -> t < T -> j < d ->
          get q [i; k; t; j] = get p [i; t; k * d + j])
    /\ transpose 1 2 q = Ok c
    /\ view (contiguous c) [Z.of_nat b; (-1)%Z; Z.of_nat (h * d)] = Ok m
    /\ shape m = [b; T; h * d]
    /\ (forall i t f, i < b -> t < T -> f < h * d ->
          get m [i; t; f] = get p [i; t; f]).
Proof.
  intros Hp Hs Hb Hh Hd.
  unfold MultiHeadAttention.split_heads. rewrite Hp. cbn [rbind].
  rewrite (view_heads p b T h d Hs Hb Hh Hd). cbn [rbind].
  match goal with
  | |- context [transpose 1 2 ?t] => rewrite (transpose_12 t b T h d eq_refl)
  end.
  eexists. eexists. eexists. split; [reflexivity|]. split; [reflexivity|].
  split.
  { intros i k t j Hi Hk Ht Hj. cbn [get swap_at replace_at nth firstn skipn app].
    rewrite (heads_index b T h d i t k j Hi Ht Hk Hj). reflexivity. }
  match goal with
  | |- context [transpose 1 2 ?t] => rewrite (transpose_12 t b h T d eq_refl)
  end.
  split; [reflexivity|]. unfold contiguous.
  match goal with
  | |- context [view ?t _] => rewrite (view_merged t b T h d eq_refl Hb Hh Hd)
  end.
  split; [reflexivity|]. split; [reflexivity|].
  intros i t f Hi Ht Hf. cbn [get].
  rewrite (merged_index b T h d i t f Hi Ht Hf Hd).
  cbn [swap_at replace_at nth firstn skipn app].
  assert (Hk : f / d < h) by (apply Nat.Div0.div_lt_upper_bound; lia).
  assert (Hj : f mod d < d) by (apply Nat.mod_upper_bound; lia).
  rewrite (heads_index b T h d i t (f / d) (f mod d) Hi Ht Hk Hj).
  replace (f / d * d + f mod d) with f
    by (rewrite Nat.mul_comm; apply Nat.div_mod_eq).
  reflexivity.
Qed.

Lemma MultiHeadAttention_heads_round_trip_witness :
  exists p q c m,
    Linear.forward (sample_linear 2 6 false) (ones [2; 4; 2]) = Ok p
    /\ MultiHeadAttention.split_heads (sample_linear 2 6 false) (ones [2; 4; 2]) 2 3 2 = Ok q
    /\ shape q = [2; 3; 4; 2]
    /\ (forall i k t j, i < 2 -> k < 3 -> t < 4 -> j < 2 ->
          get q [i; k; t; j] = get p [i; t; k * 2 + j])
    /\ transpose 1 2 q = Ok c
    /\ view (contiguous c) [Z.of_nat 2; (-1)%Z; Z.of_nat (3 * 2)] = Ok m
    /\ shape m = [2; 4; 3 * 2]
    /\ (forall i t f, i < 2 -> t < 4 -> f < 3 * 2 ->
          get m [i; t; f] = get p [i; t; f]).
Proof.
  eexists.
  destruct (MultiHeadAttention_heads_round_trip (sample_linear 2 6 false) (ones [2; 4; 2])
              _ 2 4 3 2 eq_refl eq_refl ltac:(lia) ltac:(lia) ltac:(lia))
    as (q & c & m & H).
  exists q, c, m. split; [reflexivity | exact H].
Defined.

(** ** The attention layer on well-sized inputs *)

Lemma split_heads_ok (W : Linear.t) (X : Tensor R) (b T h d : nat) :
  shape X = [b; T; Linear.in_features W] -> Linear.out_features W = d * h ->
  1 <= b -> 1 <= h -> 1 <= d ->
  exists q, MultiHeadAttention.split_heads W X b h d = Ok q /\ shape q = [b; h; T; d].
Proof.
  intros HX Ho Hb Hh Hd.
  destruct (Linear_forward_shape W X [b; T] HX) as (p & Hp & Hps & _).
  rewrite Ho, (Nat.mul_comm d h) in Hps. cbn [app] in Hps.
  unfold MultiHeadAttention.split_heads. rewrite Hp. cbn [rbind].
  rewrite (view_heads p b T h d Hps Hb Hh Hd). cbn [rbind].
  match goal with
  | |- context [transpose 1 2 ?t] => rewrite (transpose_12 t b T h d eq_refl)
  end.
  eexists. split; reflexivity.
Qed.

Lemma per_head_ok (n_heads : nat) (attn_mask : option (Tensor Z)) :
  (forall m, attn_mask = Some m -> length (shape m) = 3) ->
  exists mask', per_head n_heads attn_mask = Ok mask'
                /\ is_given mask' = is_given attn_mask.
Proof.
  intros H. destruct attn_mask as [m|]; [|exists None; split; reflexivity].
  specialize (H m eq_refl).
  destruct (shape m) as [|a [|b [|c [|]]]] eqn:Hs; try discriminate H.
  unfold per_head, unsqueeze, repeat_. rewrite Hs.
  change 1%Z with (Z.of_nat 1). rewrite norm_dim_nat by (cbn; lia).
  cbn [rbind shape insert_at firstn skipn app length].
  cbn [Nat.ltb Nat.leb Nat.sub List.repeat app zip_with].
  eexists. split; reflexivity.
Qed.

(** X18. On queries of shape (b, Tq, d_model) and keys and values of
    shape (b, Tk, d_model), with at least one batch entry, one head and one
    feature per head, the dispatch is always reached: exactly one strategy
    object is built and run.  The ACAT and KittyCat strategies are built
    with the key length [Tk] as [l_k], and the informer strategy with a
    mask flag that tells whether a mask was given. *)
Theorem MultiHeadAttention_forward_builds_strategy {E : Externals}
        (self : MultiHeadAttention.t) (Q K V : Tensor R)
        (attn_mask : option (Tensor Z)) (b Tq Tk : nat) (st : State) :
  mha_wf self ->
  shape Q = [b; Tq; MultiHeadAttention.d_model self] ->
  shape K = [b; Tk; MultiHeadAttention.d_model self] ->
  shape V = [b; Tk; MultiHeadAttention.d_model self] ->
  1 <= b -> 1 <= MultiHeadAttention.n_heads self ->
  1 <= MultiHeadAttention.d_k self -> 1 <= MultiHeadAttention.d_v self ->
  (forall m, attn_mask = Some m -> length (shape m) = 3) ->
  post (MultiHeadAttention.forward self Q K V attn_mask)
       (fun _ s' =>
          exists mask',
            per_head (MultiHeadAttention.n_heads self) attn_mask = Ok mask'
            /\ attn_calls s'
               = attn_calls st ++ [(strategy_object self Tk (is_given attn_mask), mask')]
            /\ heap s' = heap st) st.
Proof.
  intros (Hqi & Hqo & Hki & Hko & Hvi & Hvo) HQ HK HV Hb Hh Hdk Hdv Hmask.
  rewrite <- Hqi in HQ. rewrite <- Hki in HK. rewrite <- Hvi in HV.
  destruct (split_heads_ok _ Q b Tq _ _ HQ Hqo Hb Hh Hdk) as (q_s & Hq & Hqs).
  destruct (split_heads_ok _ K b Tk _ _ HK Hko Hb Hh Hdk) as (k_s & Hk & Hks).
  destruct (split_heads_ok _ V b Tk _ _ HV Hvo Hb Hh Hdv) as (v_s & Hv & Hvs).
  destruct (per_head_ok (MultiHeadAttention.n_heads self) attn_mask Hmask)
    as (mask' & Hper & Hgiven).
  assert (Hsize : size Q 0 = Ok b) by (unfold size; rewrite HQ; reflexivity).
  assert (Hlk : size k_s 2 = Ok Tk) by (unfold size; rewrite Hks; reflexivity).
  set (Qf := fun (_ : result (Tensor R * Tensor R)) (s' : State) =>
               exists mask',
                 per_head (MultiHeadAttention.n_heads self) attn_mask = Ok mask'
                 /\ attn_calls s'
                    = attn_calls st
                      ++ [(strategy_object self Tk (is_given attn_mask), mask')]
                 /\ heap s' = heap st).
  unfold MultiHeadAttention.forward.
  apply post_bind_lift. rewrite Hsize.
  apply post_bind_lift. rewrite Hq.
  apply post_bind_lift. rewrite Hk.
  apply post_bind_lift. rewrite Hv.
  apply post_bind.
  apply (@post_weaken _ _
           (fun r s => s = st /\ r = match per_head (MultiHeadAttention.n_heads self)
                                            attn_mask with
                                     | Ok o => Ok o | Raise e => Raise e end)).
  { destruct attn_mask as [m|]; [|split; reflexivity].
    unfold per_head. post_step; [|split; reflexivity].
    cbn [rbind]. post_step; [|split; reflexivity].
    cbn [rbind]. post_step. split; reflexivity. }
  intros r s [-> ->]. rewrite Hper.
  assert (Ran : forall g (r : result (Tensor R * Tensor R)),
             Qf r (mkState g (heap st)
                     (attn_calls st
                      ++ [(strategy_object self Tk (is_given attn_mask), mask')]))).
  { intros g r. exists mask'. split; [exact Hper|]. split; reflexivity. }
  assert (Rest : forall g (p : Tensor R * Tensor R),
             post (let '(context, attn) := p in
                   (c <- lift (transpose 1 2 context) ;;
                    context0 <- lift (view (contiguous c)
                       [Z.of_nat b; (-1)%Z;
                        Z.of_nat (MultiHeadAttention.n_heads self
                                  * MultiHeadAttention.d_v self)]) ;;
                    output <- lift (Linear.forward (MultiHeadAttention.fc self) context0) ;;
                    ret (output, attn))%M)
                  Qf
                  (mkState g (heap st)
                     (attn_calls st
                      ++ [(strategy_object self Tk (is_given attn_mask), mask')]))).
  { intros g [context attn].
    do 3 (post_step; [|apply (Ran g (Raise RuntimeError))]).
    post_step. apply (Ran g (Raise RuntimeError)). }
  clearbody Qf.
  apply post_bind. unfold strategy_object in Ran, Rest.
  destruct (String.eqb (MultiHeadAttention.attn_type self) "ACAT").
  { apply post_bind_lift. rewrite Hlk.
    apply post_call; intros [p|e] g Hc; [apply Rest | apply (Ran g (Raise e))]. }
  destruct (contains "KittyCat" (MultiHeadAttention.attn_type self)).
  { apply post_bind_lift. rewrite Hlk.
    apply post_call; intros [p|e] g Hc; [apply Rest | apply (Ran g (Raise e))]. }
  destruct (String.eqb (MultiHeadAttention.attn_type self) "basic_attn").
  { apply post_call; intros [p|e] g Hc; [apply Rest | apply (Ran g (Raise e))]. }
  destruct (String.eqb (MultiHeadAttention.attn_type self) "LogTrans").
  { apply post_call; intros [p|e] g Hc; [apply Rest | apply (Ran g (Raise e))]. }
  destruct (String.eqb (MultiHeadAttention.attn_type self) "informer").
  { fold (is_given mask'). rewrite Hgiven.
    apply post_call; intros [p|e] g Hc; [apply Rest | apply (Ran g (Raise e))]. }
  apply post_bind_lift. rewrite (transpose_12 q_s _ _ _ _ Hqs).
  apply post_bind_lift. rewrite (transpose_12 k_s _ _ _ _ Hks).
  apply post_bind_lift. rewrite (transpose_12 v_s _ _ _ _ Hvs).
  apply post_call; intros [p|e] g Hc; [apply Rest | apply (Ran g (Raise e))].
Qed.

Lemma MultiHeadAttention_forward_builds_strategy_witness :
  post (@MultiHeadAttention.forward sample_externals (sample_attention "ACAT")
          (zeros [2; 3; 2]) (zeros [2; 5; 2]) (zeros [2; 5; 2]) None)
       (fun _ s' =>
          exists mask',
            per_head 1 None = Ok mask'
            /\ attn_calls s'
               = attn_calls initial_state
                 ++ [(strategy_object (sample_attention "ACAT") 5 (is_given (@None (Tensor Z))),
                      mask')]
            /\ heap s' = heap initial_state) initial_state.
Proof.
  apply (@MultiHeadAttention_forward_builds_strategy sample_externals
           (sample_attention "ACAT") (zeros [2; 3; 2]) (zeros [2; 5; 2]) (zeros [2; 5; 2])
           None 2 3 5 initial_state).
  - repeat split.
  - reflexivity.
  - reflexivity.
  - reflexivity.
  - lia.
  - cbn. lia.
  - cbn. lia.
  - cbn. lia.
  - discriminate.
Defined.

(** X19. An empty batch is refused: with a query whose first dimension
    has size zero, the reshaping into heads cannot infer the dimension given
    as -1, and the call raises the backend's error before any strategy is
    built; the state is left as it was. *)
Theorem MultiHeadAttention_forward_empty_batch {E : Externals}
        (self : MultiHeadAttention.t) (Q K V : Tensor R)
        (attn_mask : option (Tensor Z)) (rest : list nat) (st : State) :
  shape Q = 0 :: rest ->
  MultiHeadAttention.forward self Q K V attn_mask st = (Raise RuntimeError, st).
Proof.
  intros HQ. unfold MultiHeadAttention.forward.
  assert (Hsize : size Q 0 = Ok 0) by (unfold size; rewrite HQ; reflexivity).
  rewrite (bind_lift_ok _ _ _ _ Hsize).
  apply bind_lift_raise.
  unfold MultiHeadAttention.split_heads, Linear.forward. rewrite HQ.
  destruct (_ =? _); [|reflexivity].
  cbn [rbind]. unfold view.
  cbn [existsb filter length fold_right map numel].
  destruct (of_nat_not_hole 0) as [-> ->].
  destruct (of_nat_not_hole (MultiHeadAttention.n_heads self)) as [-> ->].
  destruct (of_nat_not_hole (MultiHeadAttention.d_k self)) as [-> ->].
  change ((-1 <? -1)%Z) with false. change ((-1 =? -1)%Z) with true.
  cbn [orb length Nat.ltb Nat.leb Nat.eqb Z.to_nat Z.of_nat Nat.mul].
  reflexivity.
Qed.

Lemma MultiHeadAttention_forward_empty_batch_witness :
  @MultiHeadAttention.forward sample_externals (sample_attention "basic_attn")
    (zeros [0; 3; 2]) (zeros [0; 3; 2]) (zeros [0; 3; 2]) None initial_state
  = (Raise RuntimeError, initial_state).
Proof.
  apply (@MultiHeadAttention_forward_empty_batch sample_externals
           (sample_attention "basic_attn") (zeros [0; 3; 2]) (zeros [0; 3; 2])
           (zeros [0; 3; 2]) None [3; 2] initial_state).
  reflexivity.
Defined.

(** ** Further behaviour of the whole model *)

Lemma Linear_forward_wrong_width (l : Linear.t) (x : Tensor R) :
  last (shape x) 0 <> Linear.in_features l ->
  Linear.forward l x = Raise RuntimeError.
Proof.
  intros H. unfold Linear.forward. destruct (shape x) eqn:Hs; [reflexivity|].
  destruct (Nat.eqb_spec (last (n :: l0) 0) (Linear.in_features l));
    [contradiction | reflexivity].
Qed.

Lemma Linear_forward_raises (l : Linear.t) (x : Tensor R) (e : exn) :
  Linear.forward l x = Raise e -> e = RuntimeError.
Proof.
  unfold Linear.forward. destruct (shape x); [congruence|].
  destruct (_ =? _); congruence.
Qed.

(** X20. When the last dimension of the encoder input differs from
    [src_input_size], or that of the decoder input from [tgt_input_size],
    the call raises the backend's size-mismatch error at the embedding:
    no strategy has run, no sample was drawn and no tensor object was
    touched. *)
Theorem Transformer_forward_wrong_width {E : Externals} (self : Transformer.t)
        (enc_inputs dec_inputs : Tensor R) (target : option (Tensor R)) (st : State) :
  last (shape enc_inputs) 0 <> Linear.in_features (Transformer.enc_embedding self)
  \/ last (shape dec_inputs) 0 <> Linear.in_features (Transformer.dec_embedding self) ->
  Transformer.forward self enc_inputs dec_inputs target st = (Raise RuntimeError, st).
Proof.
  intros [H|H]; unfold Transformer.forward.
  - apply bind_lift_raise. apply Linear_forward_wrong_width. exact H.
  - destruct (Linear.forward (Transformer.enc_embedding self) enc_inputs) as [eo|e] eqn:He.
    + rewrite (bind_lift_ok (Ok eo) eo _ st eq_refl).
      apply bind_lift_raise. apply Linear_forward_wrong_width. exact H.
    + pose proof (Linear_forward_raises _ _ _ He) as ->. reflexivity.
Qed.

Lemma Transformer_forward_wrong_width_witness :
  @Transformer.forward sample_externals (sample_transformer true)
    (zeros [2; 3; 4]) (zeros [2; 2; 1]) None initial_state
  = (Raise RuntimeError, initial_state).
Proof.
  apply (@Transformer_forward_wrong_width sample_externals (sample_transformer true)
           (zeros [2; 3; 4]) (zeros [2; 2; 1]) None initial_state).
  left. cbn. lia.
Defined.

(** X21. Without target, whenever a forward call of a transformer with
    process model returns, the loss it returns is the Python integer zero,
    not a tensor. *)
Theorem Transformer_forward_loss_without_target {E : Externals} (self : Transformer.t)
        (enc_inputs dec_inputs : Tensor R) (st : State) :
  post (Transformer.forward self enc_inputs dec_inputs None)
       (fun r _ => forall outputs kl_loss, r = Ok (Pair outputs kl_loss) ->
                   kl_loss = PyInt 0) st.
Proof.
  unfold Transformer.forward.
  apply post_bind_any; [|discriminate]. intros enc_outputs s0.
  apply post_bind_any; [|discriminate]. intros dec_outputs s1.
  apply post_bind_any; [|discriminate]. intros [enc_outputs' attns] s2.
  apply post_bind_any; [|discriminate]. intros [[dec_outputs' sa] ca] s3.
  destruct (Transformer.p_model self).
  - apply post_bind_any; [|discriminate]. intros process s4.
    apply post_bind_any; [|discriminate]. intros x s5.
    apply post_bind.
    eapply post_weaken; [apply process_model_forward_loss_without_target|].
    intros r s6 Hr. destruct r as [[outputs kl]|e]; [|discriminate].
    pose proof (Hr _ _ eq_refl) as ->.
    post_step; [|discriminate].
    post_step. intros o k H. injection H as _ <-. reflexivity.
  - post_step; [|discriminate]. post_step. discriminate.
Qed.

Lemma Decoder_run_lengths {E : Externals} (layers : list DecoderLayer.t) :
  forall (dec_outputs enc_outputs : Tensor R) (mask : Tensor Z)
         (sa ca : list (Tensor R)) (st : State),
    post (Decoder.run layers dec_outputs enc_outputs mask sa ca)
         (fun r _ => forall out sa' ca', r = Ok (out, sa', ca') ->
                     length sa' = length sa + length layers
                     /\ length ca' = length ca + length layers) st.
Proof.
  induction layers as [|layer rest IH]; intros; cbn [Decoder.run length].
  - apply post_ret. intros out sa' ca' H. injection H as _ <- <-. lia.
  - apply post_bind_any; [|discriminate].
    intros [[out a1] a2] s.
    eapply post_weaken; [apply IH|].
    intros r s' Hr out' sa' ca' H. destruct (Hr _ _ _ H) as [H1 H2].
    rewrite H1, H2, !length_app. cbn [length]. lia.
Qed.

(** X22. When the decoder returns, it returns one self-attention tensor
    and one cross-attention tensor per layer. *)
Theorem Decoder_forward_returns_per_layer {E : Externals}
        (self : Decoder.t) (dec_inputs enc_outputs : Tensor R) (st : State) :
  post (Decoder.forward self dec_inputs enc_outputs)
       (fun r _ => forall out dec_self_attns dec_enc_attns,
                   r = Ok (out, dec_self_attns, dec_enc_attns) ->
                   length dec_self_attns = length (Decoder.layers self)
                   /\ length dec_enc_attns = length (Decoder.layers self)) st.
Proof.
  unfold Decoder.forward.
  apply post_bind_any; [|discriminate]. intros dec_outputs s0.
  apply post_bind_any; [|discriminate]. intros mask s1.
  eapply post_weaken; [apply Decoder_run_lengths|].
  intros r s' Hr out sa ca H. exact (Hr _ _ _ H).
Qed.

(** X23. The positional table has a thousand rows: a transformer built
    by the constructor refuses an encoder input of more than a thousand
    time steps with the size-mismatch error, before any strategy has run
    and without touching the state. *)
Theorem Transformer_forward_too_long {E : Externals}
        (src_input_size tgt_input_size : nat) (pred_len : Z)
        (d_model d_ff d_k d_v n_heads n_layers : nat)
        (attn_type : string) (seed : Z) (p_model gp : bool) (st0 st1 : State)
        (self : Transformer.t)
        (enc_inputs dec_inputs : Tensor R) (target : option (Tensor R))
        (b T : nat) (st : State) :
  Transformer.init src_input_size tgt_input_size pred_len
    d_model d_ff d_k d_v n_heads n_layers attn_type seed p_model gp st0 = (Ok self, st1) ->
  shape enc_inputs = [b; T; src_input_size] -> 1000 < T ->
  Transformer.forward self enc_inputs dec_inputs target st = (Raise RuntimeError, st).
Proof.
  intros Hinit HX HT.
  destruct (PositionalEncoding.init d_model 1000) as [pe|e] eqn:Hpe.
  2:{ unfold Transformer.init, Encoder.init in Hinit. rewrite Hpe in Hinit.
      discriminate Hinit. }
  destruct (Transformer_init_ok src_input_size tgt_input_size pred_len
              d_model d_ff d_k d_v n_heads n_layers attn_type seed p_model gp pe st0 Hpe)
    as (self' & st' & H0 & _ & _ & _ & _ & _ & _ & _ & _ & _ & Hep & Hei & Heo).
  rewrite Hinit in H0. injection H0 as <- <-.
  destruct (PositionalEncoding_init_shape _ _ _ Hpe) as [HP _].
  unfold Transformer.forward.
  destruct (Linear_forward_shape (Transformer.enc_embedding self) enc_inputs [b; T])
    as (eo & Heo' & Heos & _).
  { rewrite Hei. exact HX. }
  rewrite (bind_lift_ok _ _ _ _ Heo').
  rewrite Heo in Heos. cbn [app] in Heos.
  destruct (Linear.forward (Transformer.dec_embedding self) dec_inputs) as [de|e] eqn:Hde.
  2:{ pose proof (Linear_forward_raises _ _ _ Hde) as ->. reflexivity. }
  rewrite (bind_lift_ok (Ok de) de _ st eq_refl).
  unfold Encoder.forward at 1. rewrite bind_assoc.
  apply bind_lift_raise. rewrite Hep.
  rewrite (PositionalEncoding_forward_cases pe eo b T d_model 1000 HP Heos).
  replace (Nat.min T 1000) with 1000 by lia.
  destruct (Nat.eqb_spec T 1000); [lia|].
  destruct (Nat.eqb_spec T 1); [lia|].
  destruct (Nat.eqb_spec 1000 1); [lia|]. reflexivity.
Qed.

Lemma Transformer_forward_too_long_witness :
  exists self st1,
    @Transformer.init sample_externals 1 1 1 2 4 1 1 1 1 "basic_attn" 0 false false
      initial_state = (Ok self, st1)
    /\ @Transformer.forward sample_externals self (zeros [1; 1001; 1]) (zeros [1; 2; 1])
         None initial_state
       = (Raise RuntimeError, initial_state).
Proof.
  assert (Hs : match fst (@Transformer.init sample_externals 1 1 1 2 4 1 1 1 1
                            "basic_attn" 0 false false initial_state) with
               | Ok _ => true
               | Raise _ => false
               end = true).
  { vm_compute. reflexivity. }
  destruct (@Transformer.init sample_externals 1 1 1 2 4 1 1 1 1
              "basic_attn" 0 false false initial_state) as [[self|e] st1] eqn:Hinit;
    [|discriminate Hs].
  exists self, st1. split; [reflexivity|].
  apply (@Transformer_forward_too_long sample_externals 1 1 1 2 4 1 1 1 1 "basic_attn" 0
           false false initial_state st1 self (zeros [1; 1001; 1]) (zeros [1; 2; 1]) None
           1 1001 initial_state Hinit).
  - reflexivity.
  - lia.
Defined.

(** ** A target longer than an input of one time step *)

Lemma bcast_index_col (b i l : nat) :
  i < b -> bcast_index [b; 1] [i; l] = [i; 0].
Proof.
  intros Hi. cbn [bcast_index length Nat.sub skipn combine map].
  rewrite (bcast_dim _ _ Hi). reflexivity.
Qed.

Lemma broadcast_col (b L : nat) :
  broadcast_shapes [b; L] [b; 1] = Ok [b; L]
  /\ broadcast_shapes [b; 1] [b; L] = Ok [b; L].
Proof.
  unfold broadcast_shapes. cbn [rev app broadcast_rev]. rewrite Nat.eqb_refl.
  split.
  - destruct (L =? 1); reflexivity.
  - destruct (Nat.eqb_spec 1 L) as [<-|]; reflexivity.
Qed.

(** An operand with one column is repeated along the columns of the other. *)
Lemma map2_col_r (f : R -> R -> R) (a c : Tensor R) (b L : nat) :
  shape a = [b; L] -> shape c = [b; 1] ->
  exists t, map2 f a c = Ok t /\ shape t = [b; L]
    /\ forall i l, i < b -> l < L -> get t [i; l] = f (get a [i; l]) (get c [i; 0]).
Proof.
  intros Ha Hc. unfold map2. rewrite Ha, Hc, (proj1 (broadcast_col b L)).
  cbn [rbind]. eexists. split; [reflexivity|]. split; [reflexivity|].
  intros i l Hi Hl. cbn [get].
  rewrite (bcast_index2 b L i l Hi Hl), (bcast_index_col b i l Hi). reflexivity.
Qed.

Lemma map2_col_l (f : R -> R -> R) (a c : Tensor R) (b L : nat) :
  shape a = [b; 1] -> shape c = [b; L] ->
  exists t, map2 f a c = Ok t /\ shape t = [b; L]
    /\ forall i l, i < b -> l < L -> get t [i; l] = f (get a [i; 0]) (get c [i; l]).
Proof.
  intros Ha Hc. unfold map2. rewrite Ha, Hc, (proj2 (broadcast_col b L)).
  cbn [rbind]. eexists. split; [reflexivity|]. split; [reflexivity|].
  intros i l Hi Hl. cbn [get].
  rewrite (bcast_index2 b L i l Hi Hl), (bcast_index_col b i l Hi). reflexivity.
Qed.

Lemma normal_kl_cols (mean1 logvar1 mean2 logvar2 : Tensor R) (b L : nat) :
  shape mean1 = [b; L] -> shape logvar1 = [b; L] ->
  shape mean2 = [b; 1] -> shape logvar2 = [b; 1] ->
  exists kl, normal_kl mean1 logvar1 mean2 logvar2 = Ok kl
    /\ shape kl = [b; L]
    /\ forall i l, i < b -> l < L ->
         get kl [i; l]
         = gaussian_kl (get mean1 [i; l]) (get logvar1 [i; l])
                       (get mean2 [i; 0]) (get logvar2 [i; 0]).
Proof.
  intros H1 H2 H3 H4. unfold normal_kl, tsub, tadd, tmul.
  destruct (map2_col_l Rminus (sadd (-1) logvar2) logvar1 b L H4 H2)
    as (a & -> & Ha & Hav). cbn [rbind].
  destruct (map2_col_r Rminus logvar1 logvar2 b L H2 H4)
    as (d12 & -> & Hd & Hdv). cbn [rbind].
  destruct (map2_shape Rplus a (texp d12) [b; L] Ha Hd) as (s1 & -> & Hs1 & Hs1v).
  cbn [rbind].
  destruct (map2_col_r Rminus mean1 mean2 b L H1 H3) as (dm & -> & Hdm & Hdmv).
  cbn [rbind].
  destruct (map2_col_r Rmult (tsquare dm) (texp (tneg logvar2)) b L Hdm H4)
    as (c & -> & Hc & Hcv). cbn [rbind].
  destruct (map2_shape Rplus s1 c [b; L] Hs1 Hc) as (s2 & -> & Hs2 & Hs2v).
  cbn [rbind].
  eexists. split; [reflexivity|]. split; [exact Hs2|].
  intros i l Hi Hl. cbn [tmap get].
  rewrite Hs2v, (bcast_index2 b L i l Hi Hl).
  rewrite Hs1v, (Hcv i l Hi Hl), (bcast_index2 b L i l Hi Hl).
  rewrite (Hav i l Hi Hl).
  cbn [texp tneg tsquare sadd tmap get].
  rewrite (Hdv i l Hi Hl), (Hdmv i l Hi Hl).
  unfold gaussian_kl. reflexivity.
Qed.

Lemma kl_of_single_step (L b d : nat) (mean_t co_var_t mu sigma : Tensor R) :
  shape mean_t = [b; L; 1] -> shape co_var_t = [b; L; 1] ->
  shape mu = [b; 1; d] -> shape sigma = [b; 1; d] ->
  1 <= L ->
  process_model.kl_of L mean_t co_var_t mu sigma
  = Ok (Scalar (kl_mean_single b L d mean_t co_var_t mu sigma)).
Proof.
  intros Hm Hc Hmu Hsg HL. unfold process_model.kl_of.
  destruct (feature_mean_flat mean_t b L 1 Hm) as (m1 & u1 & -> & Hu1 & Hu1s & Hu1v).
  cbn [rbind]. rewrite Hu1. cbn [rbind].
  destruct (feature_mean_flat co_var_t b L 1 Hc) as (m2 & u2 & -> & Hu2 & Hu2s & Hu2v).
  cbn [rbind]. rewrite Hu2. cbn [rbind].
  assert (Hlen : slice_len 1 (from (- Z.of_nat L)) = 1).
  { rewrite slice_len_from_neg. destruct (Nat.eqb_spec L 0); lia. }
  assert (Hpos : slice_pos 1 (from (- Z.of_nat L)) 0 = 0).
  { unfold slice_pos. rewrite slice_start_from_neg.
    destruct (Nat.eqb_spec L 0); [lia|]. cbn [from sl_step]. lia. }
  rewrite (getitem3 mu b 1 d _ _ _ Hmu). cbn [rbind].
  match goal with
  | |- context [mean_last ?t] =>
      destruct (feature_mean_flat t b 1 d) as (m3 & u3 & -> & Hu3 & Hu3s & Hu3v)
  end.
  { cbn [shape]. rewrite !slice_len_full, Hlen. reflexivity. }
  cbn [rbind]. rewrite Hu3. cbn [rbind].
  rewrite (getitem3 sigma b 1 d _ _ _ Hsg). cbn [rbind].
  match goal with
  | |- context [mean_last ?t] =>
      destruct (feature_mean_flat t b 1 d) as (m4 & u4 & -> & Hu4 & Hu4s & Hu4v)
  end.
  { cbn [shape]. rewrite !slice_len_full, Hlen. reflexivity. }
  cbn [rbind]. rewrite Hu4. cbn [rbind].
  destruct (normal_kl_cols u1 u2 u3 u4 b L Hu1s Hu2s Hu3s Hu4s) as (kl & -> & Hkls & Hklv).
  cbn [rbind]. f_equal. f_equal.
  rewrite (mean_all_rows kl b L Hkls). unfold kl_mean_single. f_equal.
  apply big_sum_ext. intros i Hi. apply big_sum_ext. intros l Hl.
  rewrite (Hklv i l Hi Hl), Hu1v, Hu2v, Hu3v, Hu4v.
  unfold feature_mean. cbn [get sliced_index].
  rewrite Hpos. unfold slice_pos, slice_start, full_slice.
  cbn [sl_start sl_step Nat.add]. rewrite ?Nat.mul_1_r.
  assert (E3 : forall t : Tensor R,
             big_sum d (fun j => get t [i; 0; j * 1])
             = big_sum d (fun j => get t [i; 0; j])).
  { intros t. apply big_sum_ext. intros j _. rewrite Nat.mul_1_r. reflexivity. }
  rewrite !E3. reflexivity.
Qed.

(** X24. When the input has a single time step, a target of any length
    [L >= 1] is accepted without error: the predicted statistics [mu] and
    [sigma] of the call (the two halves of the output of [musig] on the
    encoded noised input) are broadcast along the target, so the loss
    compares every target step with the one predicted step and averages over
    the batch and the [L] target steps. *)
Theorem process_model_forward_single_step_target {E : Externals}
        (self : process_model.t) (x : loc) (target : Tensor R) (st : State)
        (xv : Tensor R) (b L : nat) (mean_t co_var_t nz : Tensor R) :
  pm_wf self ->
  nth_error (heap st) x = Some xv -> shape xv = [b; 1; process_model.d self] ->
  2 <= b ->
  size target 1 = Ok L ->
  process_model.gp_stats (process_model.mean_module_t self)
                         (process_model.covar_module_t self) target
  = Ok (mean_t, co_var_t) ->
  shape mean_t = [b; L; 1] -> shape co_var_t = [b; L; 1] ->
  1 <= L ->
  process_model.noise_term self xv (draw (torch_rng (rngs st)) (shape xv)) = Ok nz ->
  shape nz = [b; 1; process_model.d self] ->
  exists xn h ms mu sigma z y out st',
    process_model.forward self x (Some target) st
    = (Ok (out, Scalar (kl_mean_single b L (process_model.d self)
                                       mean_t co_var_t mu sigma)), st')
    /\ data_flow self xv nz
                 (draw (advance (numel (shape xv)) (torch_rng (rngs st)))
                       [b; 1; process_model.d self])
                 xn h ms mu sigma z y out.
Proof.
  intros Hwf Hx Hxs Hb HL Hgp Hms Hcs HL1 Hnz Hnzs.
  assert (Hts : process_model.target_stats self (Some target)
                = Ok (Some (L, mean_t, co_var_t))).
  { unfold process_model.target_stats. rewrite HL. cbn [rbind]. rewrite Hgp. reflexivity. }
  destruct (process_model_forward_run self x (Some target) st xv b 1 _ nz
              Hwf Hx Hxs (le_n 1) ltac:(lia) Hts Hnz Hnzs)
    as (xn & h & ms & mu & sigma & z & y & out & st' & Hflow & _ & Hmus & Hsgs & _
        & _ & _ & _ & Hrun).
  exists xn, h, ms, mu, sigma, z, y, out, st'. split; [|exact Hflow].
  rewrite Hrun. unfold loss_of.
  rewrite (kl_of_single_step L b (process_model.d self) mean_t co_var_t mu sigma
             Hms Hcs Hmus Hsgs HL1).
  reflexivity.
Qed.

Lemma process_model_forward_single_step_target_witness :
  exists xn h ms mu sigma z y out st',
    @process_model.forward sample_externals (sample_process_model false) 0
      (Some (zeros [2; 3; 1])) (state_with (zeros [2; 1; 2]) INR)
    = (Ok (out, Scalar (kl_mean_single 2 3 2 (zeros [2; 3; 1])
                          (mkTensor [2; 3; 1] (fun idx => get (mkTensor [2; 3]
                             (fun idx => get (mkTensor [2; 3; 3]
                                (fun idx => exp (- sq_dist (zeros [2; 3; 1]) (nth 0 idx 0)
                                                   (nth 1 idx 0) (nth 2 idx 0) / 2)))
                                             (idx ++ [last idx 0]))) (remove_at 2 idx)))
                          mu sigma)), st')
    /\ data_flow (sample_process_model false) (zeros [2; 1; 2])
                 (smul (draw (mkGenerator 0 INR (fun _ => 0%R)) [2; 1; 2]) (1 / 10))
                 (draw (advance (numel [2; 1; 2]) (mkGenerator 0 INR (fun _ => 0%R)))
                       [2; 1; 2])
                 xn h ms mu sigma z y out.
Proof.
  apply (@process_model_forward_single_step_target sample_externals
           (sample_process_model false) 0
           (zeros [2; 3; 1]) (state_with (zeros [2; 1; 2]) INR)
           (zeros [2; 1; 2]) 2 3 (zeros [2; 3; 1])
           (mkTensor [2; 3; 1] (fun idx => get (mkTensor [2; 3]
              (fun idx => get (mkTensor [2; 3; 3]
                 (fun idx => exp (- sq_dist (zeros [2; 3; 1]) (nth 0 idx 0) (nth 1 idx 0)
                                             (nth 2 idx 0) / 2)))
                              (idx ++ [last idx 0]))) (remove_at 2 idx)))
           (smul (draw (mkGenerator 0 INR (fun _ => 0%R)) [2; 1; 2]) (1 / 10))).
  - apply sample_process_model_wf.
  - reflexivity.
  - reflexivity.
  - lia.
  - reflexivity.
  - reflexivity.
  - reflexivity.
  - reflexivity.
  - lia.
  - reflexivity.
  - reflexivity.
Defined.
